(** * Pawlygon Utils: shapekey utilities and operators

    A shallow embedding of [utils.py] and of the operators of
    [operators.py] that call it, over an explicit model of the part of
    the host (Blender) object API the code drives: an ordered,
    name-indexed collection of shapekeys with an active index, and the
    object operators that add, remove, move and clear shapekeys.

    Conventions.
    - A Python reference that may be [None] is an [option].
    - Python code that can raise returns a [result]; the [while] loop of
      [move_old_shapekeys_to_bottom] takes fuel and answers [OutOfFuel]
      when it is exhausted.
    - The object is mutable in Python: the embedding threads it through
      every call (state passing, monad [M]).
    - [bpy.ops.object.*] act on the context object; the operators pass
      [context.active_object] to the utilities, so the embedding lets the
      [bpy.ops] calls act on the object the utility was given.
    - The host operators that add, remove and move shapekeys have polls
      that refuse an object in Edit mode; a refused call raises
      [RuntimeError].
    - [obj.data.shape_keys] exists for the kinds of object whose data can
      carry shapekeys; for the others the read raises [AttributeError].
    - Vertex data is not represented: a shapekey is its name, its blend
      weight and its vertex-group mask; the key is a relative key (new
      entries are appended).
    - A string is the sequence of the bytes of its UTF-8 encoding, which
      is how the host stores names: in a field of 64 bytes, the last one
      for the terminator.
    - The scene's target object and the context's active object are held
      as two values; no operator embedded here touches both. *)

From Stdlib Require Import List String Arith Lia Bool ZArith QArith.
From Stdlib Require Import Permutation DecimalString DecimalNat DecimalN.
From Stdlib Require Import Finite Ascii.
Import ListNotations.

Local Open Scope string_scope.
Local Open Scope nat_scope.
Local Open Scope list_scope.

(** ** Outcomes of Python code *)

Inductive exn : Type :=
| ValueError | KeyError | IndexError | AttributeError | TypeError
| RuntimeError | ReferenceError.

Inductive result (A : Type) : Type :=
| Ok (a : A)
| Raise (e : exn)
| OutOfFuel.

Arguments Ok {A} a.
Arguments Raise {A} e.
Arguments OutOfFuel {A}.

(** ** Strings *)

(** [s.endswith(suffix)]. *)
Definition endswith (s suffix : string) : bool :=
  let n := String.length s in
  let m := String.length suffix in
  (m <=? n) && String.eqb (substring (n - m) m s) suffix.

(** [str(n)] for a non-negative integer. *)
Definition str_of_nat (n : nat) : string :=
  NilEmpty.string_of_uint (Nat.to_uint n).

(** [name in names]. *)
Definition mem (n : string) (l : list string) : bool :=
  existsb (String.eqb n) l.

(** [names.index(n)]: position of the first occurrence. *)
Fixpoint index_of (n : string) (l : list string) : option nat :=
  match l with
  | [] => None
  | x :: r =>
      if String.eqb x n then Some 0
      else match index_of n r with
           | Some i => Some (S i)
           | None => None
           end
  end.

(** ** Host data *)

(** A shapekey (host [KeyBlock]). [sk_ptr] is the identity of the entry:
    a Python reference to a shapekey keeps designating the same entry
    while the entry moves in the collection. *)
Record ShapeKey : Type := mkShapeKey {
  sk_ptr : nat;
  name : string;
  value : Q;
  vertex_group : string
}.

(** An object of the scene. [type] is [obj.type] and [mode] is [obj.mode].
    [shape_keys] is the [key_blocks] collection of [obj.data.shape_keys],
    [None] when the data has no shapekey datablock. [shapenr] is the
    host's one-based active shapekey number, [0] when no entry is active.
    [vertex_groups] holds the names of the groups. *)
Record Object : Type := mkObject {
  type : string;
  mode : string;
  shape_keys : option (list ShapeKey);
  shapenr : nat;
  vertex_groups : list string
}.

Definition with_keys (o : Object) (k : option (list ShapeKey)) (nr : nat)
  : Object :=
  mkObject (type o) (mode o) k nr (vertex_groups o).

Definition names (kbs : list ShapeKey) : list string := map name kbs.

(** The kinds of object whose data has a [shape_keys] attribute: meshes,
    curves, surfaces, text and lattices. The data of any other kind has
    none, and an Empty has no data at all. *)
Definition has_shape_keys_attr (o : Object) : bool :=
  mem (type o) ["MESH"; "CURVE"; "SURFACE"; "FONT"; "LATTICE"].

(** The kinds of object the host can add a shapekey to. *)
Definition supports_shapes (o : Object) : bool :=
  mem (type o) ["MESH"; "CURVE"; "SURFACE"; "LATTICE"].

(** [obj.data.shape_keys]. *)
Definition data_shape_keys (o : Object)
  : result (option (list ShapeKey)) :=
  if has_shape_keys_attr o then Ok (shape_keys o) else Raise AttributeError.

(** The mode test of the polls of the host's shapekey operators. *)
Definition in_edit_mode (o : Object) : bool := String.eqb (mode o) "EDIT".

(** [obj.active_shape_key]. *)
Definition active_shape_key (o : Object) : option ShapeKey :=
  match shape_keys o, shapenr o with
  | Some kbs, S i => nth_error kbs i
  | _, _ => None
  end.

(** [obj.active_shape_key_index] (read): the host answers
    [max (shapenr - 1) 0]. *)
Definition active_shape_key_index (o : Object) : nat := shapenr o - 1.

(** [obj.vertex_groups.get(name)]. *)
Definition vertex_groups_get (o : Object) (n : string) : option string :=
  find (String.eqb n) (vertex_groups o).

(** *** Names as the host stores them

    A name handed to the host is read as a C string and copied into the
    name field by whole UTF-8 sequences ([BLI_strncpy_utf8]); an empty
    name is replaced by [Key]. The host then keeps the names of one
    collection distinct ([BLI_uniquename]): when another entry carries
    the name, a trailing [.digits] is split off and the first free name
    among [stem.NNN] is taken, counting up from the number split off and
    shortening the stem so that the whole fits the field. *)

Definition MAX_NAME : nat := 64.

(** What the host reads of a string: the bytes before the first NUL. *)
Fixpoint c_string (s : string) : string :=
  match s with
  | EmptyString => EmptyString
  | String c r =>
      if Nat.eqb (nat_of_ascii c) 0 then EmptyString
      else String c (c_string r)
  end.

(** The length of the UTF-8 sequence announced by its first byte. *)
Definition utf8_skip (c : ascii) : nat :=
  let n := nat_of_ascii c in
  if n <? 192 then 1
  else if n <? 224 then 2
  else if n <? 240 then 3
  else if n <? 248 then 4
  else if n <? 252 then 5
  else if n <? 254 then 6
  else 1.

(** [BLI_strncpy_utf8] into a buffer of [maxncpy] bytes: sequences are
    copied as long as the next one leaves room for the terminator.
    [pending] counts the bytes still to copy of the sequence under way. *)
Fixpoint utf8_cpy (maxncpy pending : nat) (s : string) : string :=
  match s with
  | EmptyString => EmptyString
  | String c r =>
      match pending with
      | S p => String c (utf8_cpy maxncpy p r)
      | 0 =>
          let k := utf8_skip c in
          if k <? maxncpy then String c (utf8_cpy (maxncpy - k) (k - 1) r)
          else EmptyString
      end
  end.

(** The name as it lands in the name field. *)
Definition stored_name (n : string) : string :=
  utf8_cpy MAX_NAME 0 (c_string n).

(** A name the host stores as it is given: not empty, and unchanged by
    the copy into the name field. *)
Definition fits (n : string) : bool :=
  negb (String.eqb n "") && String.eqb (stored_name n) n.

Definition is_digit (c : ascii) : bool :=
  (48 <=? nat_of_ascii c) && (nat_of_ascii c <=? 57).

Fixpoint all_digits (s : string) : bool :=
  match s with
  | EmptyString => true
  | String c r => is_digit c && all_digits r
  end.

Fixpoint digits_value (s : string) (acc : N) : N :=
  match s with
  | EmptyString => acc
  | String c r =>
      digits_value r (10 * acc + N.of_nat (nat_of_ascii c - 48))%N
  end.

(** [int(atol(digits))], a negative result replaced by 0: the value is
    capped at the largest [long] (64 bits), cut to 32 bits and read as a
    signed number. *)
Definition atol_int (digits : string) : N :=
  let v := N.min (digits_value digits 0) (2 ^ 63 - 1) in
  let w := (v mod 2 ^ 32)%N in
  if (w <? 2 ^ 31)%N then w else 0%N.

(** The last [.] of the string when only digits follow it: what
    precedes it and the digits. *)
Fixpoint split_number (s : string) : option (string * string) :=
  match s with
  | EmptyString => None
  | String c r =>
      match split_number r with
      | Some (l, d) => Some (String c l, d)
      | None =>
          if Ascii.eqb c "." && all_digits r then Some (EmptyString, r)
          else None
      end
  end.

(** [BLI_string_split_name_number]: a name of more than one byte that
    ends with the delimiter is not split. *)
Definition split_name_number (s : string) : string * N :=
  match split_number s with
  | Some (l, d) =>
      if String.eqb d "" && (1 <? String.length s) then (s, 0%N)
      else (l, atol_int d)
  | None => (s, 0%N)
  end.

Definition str_of_N (n : N) : string :=
  NilEmpty.string_of_uint (N.to_uint n).

(** The number as [%03d] prints it. *)
Definition pad3 (k : N) : string :=
  let s := str_of_N k in
  match String.length s with
  | 1 => ("00" ++ s)%string
  | 2 => ("0" ++ s)%string
  | _ => s
  end.

Definition numstr (k : N) : string := ("." ++ pad3 k)%string.

Definition candidate (stem : string) (k : N) : string :=
  (utf8_cpy (MAX_NAME - String.length (numstr k)) 0 stem ++ numstr k)%string.

(** The host tries the numbers one after the other until a name is
    free; one more try than there are names taken is always enough. *)
Fixpoint first_free (taken : list string) (stem : string) (k : N)
  (fuel : nat) : string :=
  match fuel with
  | 0 => candidate stem k
  | S f =>
      if mem (candidate stem k) taken then first_free taken stem (N.succ k) f
      else candidate stem k
  end.

Definition unique_name (taken : list string) (n : string) : string :=
  let n0 := stored_name n in
  let n1 := if String.eqb n0 "" then "Key" else n0 in
  if mem n1 taken then
    let '(stem, number) := split_name_number n1 in
    first_free taken stem (N.succ number) (List.length taken)
  else n1.

Definition fresh_ptr (kbs : list ShapeKey) : nat :=
  S (list_max (map sk_ptr kbs)).

(** The entry the host allocates for a new shapekey: weight 1, no mask. *)
Definition new_keyblock (kbs : list ShapeKey) (n : string) : ShapeKey :=
  mkShapeKey (fresh_ptr kbs) (unique_name (names kbs) n) 1%Q "".

(** *** List surgery used by the host *)

Definition remove_at {A : Type} (i : nat) (l : list A) : list A :=
  firstn i l ++ skipn (S i) l.

Definition insert_at {A : Type} (i : nat) (x : A) (l : list A) : list A :=
  firstn i l ++ x :: skipn i l.

(** The host's [BKE_keyblock_move]: the entry at [org] is taken out and put
    back at [new]. *)
Definition keyblock_move (org new : nat) (l : list ShapeKey)
  : list ShapeKey :=
  match nth_error l org with
  | Some kb => insert_at new kb (remove_at org l)
  | None => l
  end.

Definition update_ptr (p : nat) (f : ShapeKey -> ShapeKey)
  (kbs : list ShapeKey) : list ShapeKey :=
  map (fun kb => if sk_ptr kb =? p then f kb else kb) kbs.

Definition set_kb_value (v : Q) (kb : ShapeKey) : ShapeKey :=
  mkShapeKey (sk_ptr kb) (name kb) v (vertex_group kb).

Definition set_kb_vertex_group (g : string) (kb : ShapeKey) : ShapeKey :=
  mkShapeKey (sk_ptr kb) (name kb) (value kb) g.

Definition set_kb_name (n : string) (kb : ShapeKey) : ShapeKey :=
  mkShapeKey (sk_ptr kb) n (value kb) (vertex_group kb).

(** ** The state monad of code that mutates the object *)

Definition M (A : Type) : Type := Object -> result (A * Object).

Definition ret {A : Type} (a : A) : M A := fun o => Ok (a, o).

Definition bind {A B : Type} (m : M A) (k : A -> M B) : M B :=
  fun o =>
    match m o with
    | Ok (a, o') => k a o'
    | Raise e => Raise e
    | OutOfFuel => OutOfFuel
    end.

Definition throw {A : Type} (e : exn) : M A := fun _ => Raise e.

Notation "x <- m ;; k" := (bind m (fun x => k))
  (at level 61, m at next level, right associativity).
Notation "m ;;; k" := (bind m (fun _ => k))
  (at level 61, right associativity).

(** [for _ in range(n): body]. *)
Fixpoint repeat_m (n : nat) (body : M unit) : M unit :=
  match n with
  | 0 => ret tt
  | S n' => body ;;; repeat_m n' body
  end.

(** [for x in xs: acc = body(x, acc)]. *)
Fixpoint for_each {A B : Type} (xs : list A) (body : A -> B -> M B) (acc : B)
  : M B :=
  match xs with
  | [] => ret acc
  | x :: r => acc' <- body x acc ;; for_each r body acc'
  end.

(** ** Host operations *)

(** [obj.active_shape_key_index = v]: the host stores the number as it
    is given. *)
Definition set_active_shape_key_index (v : nat) : M unit :=
  fun o => Ok (tt, with_keys o (shape_keys o) (S v)).

Definition get_active_shape_key_index : M nat :=
  fun o => Ok (active_shape_key_index o, o).

(** [len(key_blocks)] through the live collection. *)
Definition key_blocks_len : M nat :=
  fun o =>
    match shape_keys o with
    | Some kbs => Ok (List.length kbs, o)
    | None => Raise ReferenceError
    end.

(** [obj.data.shape_keys.key_blocks.keys().__len__()]. *)
Definition keys_len : M nat :=
  fun o =>
    match shape_keys o with
    | Some kbs => Ok (List.length kbs, o)
    | None => Raise AttributeError
    end.

(** [obj.data.shape_keys.key_blocks.keys().index(n)]. *)
Definition keys_index (n : string) : M nat :=
  fun o =>
    match shape_keys o with
    | Some kbs =>
        match index_of n (names kbs) with
        | Some i => Ok (i, o)
        | None => Raise ValueError
        end
    | None => Raise AttributeError
    end.

(** [name in key_blocks] through the live collection. *)
Definition key_blocks_contains (n : string) : M bool :=
  fun o =>
    match shape_keys o with
    | Some kbs => Ok (mem n (names kbs), o)
    | None => Raise ReferenceError
    end.

Inductive MoveType : Type := UP | DOWN.

(** [bpy.ops.object.shape_key_move(type=...)]. The operator is refused
    (its poll fails, [RuntimeError]) in Edit mode and unless the
    collection has more than one entry. The active entry goes one step up
    or down, wrapping around at the ends, and stays active. With no
    active entry nothing moves. *)
Definition shape_key_move (ty : MoveType) : M unit :=
  fun o =>
    match shape_keys o with
    | Some kbs =>
        let totkey := List.length kbs in
        if in_edit_mode o || (totkey <=? 1) then Raise RuntimeError
        else
          match active_shape_key o with
          | Some _ =>
              let act_index := shapenr o - 1 in
              let new_index :=
                match ty with
                | UP => (totkey + act_index - 1) mod totkey
                | DOWN => (totkey + act_index + 1) mod totkey
                end in
              Ok (tt, with_keys o
                        (Some (keyblock_move act_index new_index kbs))
                        (S new_index))
          | None => Ok (tt, o)
          end
    | None => Raise RuntimeError
    end.

(** [bpy.ops.object.shape_key_remove()]: removes the active entry; refused
    in Edit mode and when there is no active entry. The active number
    steps back by one unless it was the first; removing the last entry
    frees the shapekey datablock. *)
Definition shape_key_remove : M unit :=
  fun o =>
    match shape_keys o, active_shape_key o with
    | Some kbs, Some _ =>
        if in_edit_mode o then Raise RuntimeError
        else
          match remove_at (shapenr o - 1) kbs with
          | [] => Ok (tt, with_keys o None 0)
          | kbs' =>
              Ok (tt, with_keys o (Some kbs')
                        (if 1 <? shapenr o then shapenr o - 1
                         else shapenr o))
          end
    | _, _ => Raise RuntimeError
    end.

(** [bpy.ops.object.shape_key_clear()]: every weight back to 0; nothing
    happens without an active entry. *)
Definition shape_key_clear : M unit :=
  fun o =>
    match shape_keys o, active_shape_key o with
    | Some kbs, Some _ =>
        Ok (tt, with_keys o (Some (map (set_kb_value 0%Q) kbs)) (shapenr o))
    | _, _ => Ok (tt, o)
    end.

(** The host's default name for a new entry. *)
Definition default_name (kbs : list ShapeKey) : string :=
  match kbs with
  | [] => "Basis"
  | _ => ("Key " ++ str_of_nat (List.length kbs))%string
  end.

(** [bpy.ops.object.shape_key_add(from_mix=...)]: refused in Edit mode;
    a new entry with the host's default name is appended and becomes the
    active one. *)
Definition op_shape_key_add (from_mix : bool) : M unit :=
  fun o =>
    if in_edit_mode o then Raise RuntimeError
    else
      let kbs := match shape_keys o with Some kbs => kbs | None => [] end in
      let kb := new_keyblock kbs (default_name kbs) in
      Ok (tt, with_keys o (Some (kbs ++ [kb])) (S (List.length kbs))).

(** [obj.shape_key_add(name=..., from_mix=...)]: refused ([RuntimeError])
    for an object that does not support shapes. A new entry is appended;
    when the datablock is missing it is created and its first entry
    becomes the active one, otherwise the active number is left alone.
    Answers the reference to the new entry. *)
Definition shape_key_add (n : string) (from_mix : bool) : M nat :=
  fun o =>
    if supports_shapes o then
      match shape_keys o with
      | Some kbs =>
          let kb := new_keyblock kbs n in
          Ok (sk_ptr kb, with_keys o (Some (kbs ++ [kb])) (shapenr o))
      | None =>
          let kb := new_keyblock [] n in
          Ok (sk_ptr kb, with_keys o (Some [kb]) 1)
      end
    else Raise RuntimeError.

(** Attribute writes through a shapekey reference. *)
Definition on_key_blocks (f : list ShapeKey -> list ShapeKey) : M unit :=
  fun o =>
    match shape_keys o with
    | Some kbs => Ok (tt, with_keys o (Some (f kbs)) (shapenr o))
    | None => Raise ReferenceError
    end.

Definition set_vertex_group (p : nat) (g : string) : M unit :=
  on_key_blocks (update_ptr p (set_kb_vertex_group g)).

Definition set_value (p : nat) (v : Q) : M unit :=
  on_key_blocks (update_ptr p (set_kb_value v)).

(** [kb.name = n]: the host makes the name unique among the other
    entries. *)
Definition set_name (p : nat) (n : string) : M unit :=
  on_key_blocks (fun kbs =>
    let others := filter (fun kb => negb (sk_ptr kb =? p)) kbs in
    update_ptr p (set_kb_name (unique_name (names others) n)) kbs).

(** [obj.active_shape_key.name = n]. *)
Definition set_active_shape_key_name (n : string) : M unit :=
  fun o =>
    match active_shape_key o with
    | Some kb => set_name (sk_ptr kb) n o
    | None => Raise AttributeError
    end.

(** ** utils.py *)

(** The disposable suffix test [kb.name.endswith('.old')]. *)
Definition is_old (kb : ShapeKey) : bool := endswith (name kb) ".old".

(** [(created_names[0], created_names[1])]. *)
Definition first_two (l : list string) : M (option (string * string)) :=
  match l with
  | a :: b :: _ => ret (Some (a, b))
  | _ => throw IndexError
  end.

(** One round of the loop of [split_shapekey_by_groups]: the new shapekey
    for [group_name], called [original_name + suffix], is derived and
    moved up by [move_steps]. *)
Definition split_one (shape_key : ShapeKey) (original_name : string)
  (move_steps : nat) (gs : string * string) (created_names : list string)
  : M (list string) :=
  let '(group_name, suffix) := gs in
  shape_key_clear ;;;
  idx <- keys_index original_name ;;
  set_active_shape_key_index idx ;;;
  set_vertex_group (sk_ptr shape_key) group_name ;;;
  set_value (sk_ptr shape_key) 1%Q ;;;
  op_shape_key_add true ;;;
  let new_name := (original_name ++ suffix)%string in
  set_active_shape_key_name new_name ;;;
  repeat_m move_steps (shape_key_move UP) ;;;
  ret (created_names ++ [new_name]).

(** The end of [split_shapekey_by_groups]: the mask of the original is
    cleared and the original is put back at [original_index]. *)
Definition split_restore (shape_key : ShapeKey) (original_name : string)
  (original_index : nat) : M unit :=
  shape_key_clear ;;;
  current_index <- keys_index original_name ;;
  set_active_shape_key_index current_index ;;;
  set_vertex_group (sk_ptr shape_key) "" ;;;
  (if negb (current_index =? original_index) then
     if current_index <? original_index then
       repeat_m (original_index - current_index) (shape_key_move DOWN)
     else
       repeat_m (current_index - original_index) (shape_key_move UP)
   else ret tt) ;;;
  set_active_shape_key_index original_index.

(** The body of [split_shapekey_by_groups] once the three guards have
    passed; [shape_key] is the reference taken from
    [obj.active_shape_key]. *)
Definition split_steps (shape_key : ShapeKey)
  (group_a_name group_b_name : string) : M (option (string * string)) :=
  let original_name := name shape_key in
  original_index <- get_active_shape_key_index ;;
  key_count <- keys_len ;;
  let move_steps := key_count - original_index - 1 in
  created_names <-
    for_each [(group_a_name, group_a_name); (group_b_name, group_b_name)]
      (split_one shape_key original_name move_steps) [] ;;
  split_restore shape_key original_name original_index ;;;
  first_two created_names.

(** Runs a utility body on the object and gives the object back. *)
Definition on_object {A : Type} (o : Object) (m : M A)
  : result (A * option Object) :=
  match m o with
  | Ok (a, o') => Ok (a, Some o')
  | Raise e => Raise e
  | OutOfFuel => OutOfFuel
  end.

Definition split_shapekey_by_groups (obj : option Object)
  (group_a_name group_b_name : string)
  : result (option (string * string) * option Object) :=
  match obj with
  | None => Ok (None, None)
  | Some o =>
      match data_shape_keys o with
      | Raise e => Raise e
      | OutOfFuel => OutOfFuel
      | Ok None => Ok (None, Some o)
      | Ok (Some _) =>
          match active_shape_key o with
          | None => Ok (None, Some o)
          | Some shape_key =>
              match vertex_groups_get o group_a_name,
                    vertex_groups_get o group_b_name with
              | Some _, Some _ =>
                  on_object o (split_steps shape_key group_a_name group_b_name)
              | _, _ => Ok (None, Some o)
              end
          end
      end
  end.

Definition get_missing_shapekeys (obj : option Object)
  (expected_names : list string) : result (list string * option Object) :=
  match obj with
  | None => Ok (expected_names, None)
  | Some o =>
      match data_shape_keys o with
      | Raise e => Raise e
      | OutOfFuel => OutOfFuel
      | Ok None => Ok (expected_names, Some o)
      | Ok (Some key_blocks) =>
          let existing := names key_blocks in
          Ok (filter (fun n => negb (mem n existing)) expected_names,
              Some o)
      end
  end.

(** [[i for i, kb in enumerate(key_blocks) if kb.name.endswith('.old')]],
    counting from [k]. *)
Fixpoint old_indices_from (k : nat) (key_blocks : list ShapeKey) : list nat :=
  match key_blocks with
  | [] => []
  | kb :: r =>
      if is_old kb then k :: old_indices_from (S k) r
      else old_indices_from (S k) r
  end.

Definition old_indices (key_blocks : list ShapeKey) : list nat :=
  old_indices_from 0 key_blocks.

(** [while obj.active_shape_key_index < target_index:
       bpy.ops.object.shape_key_move(type='DOWN')]. *)
Fixpoint while_below (fuel : nat) (target_index : nat) : M unit :=
  fun o =>
    if active_shape_key_index o <? target_index then
      match fuel with
      | 0 => OutOfFuel
      | S f => (shape_key_move DOWN ;;; while_below f target_index) o
      end
    else Ok (tt, o).

(** The loop of [move_old_shapekeys_to_bottom] over the reversed indices;
    the accumulator is [moved]. *)
Definition move_loop (fuel : nat) (idxs : list nat) (moved : nat) : M nat :=
  for_each idxs
    (fun idx moved =>
       if idx =? 0 then ret moved
       else
         set_active_shape_key_index idx ;;;
         len <- key_blocks_len ;;
         let target_index := len - 1 in
         while_below fuel target_index ;;;
         ret (moved + 1))
    moved.

Definition move_old_shapekeys_to_bottom (fuel : nat) (obj : option Object)
  : result (option nat * option Object) :=
  match obj with
  | None => Ok (None, None)
  | Some o =>
      match data_shape_keys o with
      | Raise e => Raise e
      | OutOfFuel => OutOfFuel
      | Ok None => Ok (None, Some o)
      | Ok (Some key_blocks) =>
          on_object o
            (moved <- move_loop fuel (rev (old_indices key_blocks)) 0 ;;
             ret (Some moved))
      end
  end.

(** [[kb.name for kb in key_blocks if kb.name.endswith('.old')]]. *)
Definition old_names (key_blocks : list ShapeKey) : list string :=
  names (filter is_old key_blocks).

(** [list(key_blocks).index(key_blocks[name])]: the position of the first
    entry called [n]. *)
Definition index_of_named (n : string) : M nat :=
  fun o =>
    match shape_keys o with
    | Some kbs =>
        match index_of n (names kbs) with
        | Some i => Ok (i, o)
        | None => Raise KeyError
        end
    | None => Raise ReferenceError
    end.

(** The loop of [delete_old_shapekeys] over the reversed names; the
    accumulator is [deleted]. *)
Definition delete_loop (nms : list string) (deleted : nat) : M nat :=
  for_each nms
    (fun n deleted =>
       present <- key_blocks_contains n ;;
       if present then
         i <- index_of_named n ;;
         set_active_shape_key_index i ;;;
         shape_key_remove ;;;
         ret (deleted + 1)
       else ret deleted)
    deleted.

Definition delete_old_shapekeys (obj : option Object)
  : result (option nat * option Object) :=
  match obj with
  | None => Ok (None, None)
  | Some o =>
      match data_shape_keys o with
      | Raise e => Raise e
      | OutOfFuel => OutOfFuel
      | Ok None => Ok (None, Some o)
      | Ok (Some key_blocks) =>
          on_object o
            (deleted <- delete_loop (rev (old_names key_blocks)) 0 ;;
             ret (Some deleted))
      end
  end.

(** ** operators.py *)

(** One entry of the missing-name list kept on the scene. *)
Module PawlygonMissingItem.
Record t : Type := mk { name : string }.
End PawlygonMissingItem.

(** The scene properties registered by [properties.py]. *)
Record Scene : Type := mkScene {
  pawlygon_target_object : option Object;
  pawlygon_list_name : string;
  pawlygon_missing_count : Z;
  pawlygon_missing_list : list PawlygonMissingItem.t;
  pawlygon_missing_index : Z
}.

Record Context : Type := mkContext {
  active_object : option Object;
  scene : Scene
}.

Inductive Status : Type := FINISHED | CANCELLED.

(** What an [execute] hands back to the host: the message given to
    [self.report] with its level, and the returned status. *)
Record Outcome : Type := mkOutcome {
  report : string * string;
  status : Status
}.

(** A Python value read as a condition: a reference is true unless it is
    [None]. *)
Definition truthy {A : Type} (x : option A) : bool :=
  match x with
  | Some _ => true
  | None => false
  end.

(** [obj.mode in {'OBJECT', 'SCULPT'}]. *)
Definition correct_mode (obj : Object) : bool :=
  String.eqb (mode obj) "OBJECT" || String.eqb (mode obj) "SCULPT".

Definition PU_OT_move_old_shapekeys_poll (context : Context) : bool :=
  match active_object context with
  | None => false
  | Some obj =>
      String.eqb (type obj) "MESH"
      && truthy (shape_keys obj)
      && (String.eqb (mode obj) "OBJECT" || String.eqb (mode obj) "SCULPT")
  end.

Definition PU_OT_move_old_shapekeys_execute (fuel : nat) (context : Context)
  : result (Outcome * Context) :=
  let obj := active_object context in
  match move_old_shapekeys_to_bottom fuel obj with
  | Ok (Some moved, obj') =>
      Ok (mkOutcome
            (if 0 <? moved then
               ("INFO",
                ("Moved " ++ str_of_nat moved ++ " shapekey(s) to bottom")
                  %string)
             else ("INFO", "No .old shapekeys found"))
            FINISHED,
          mkContext obj' (scene context))
  | Ok (None, _) => Raise TypeError
  | Raise e => Raise e
  | OutOfFuel => OutOfFuel
  end.

Definition PU_OT_delete_old_shapekeys_poll (context : Context) : bool :=
  match active_object context with
  | None => false
  | Some obj =>
      String.eqb (type obj) "MESH"
      && truthy (shape_keys obj)
      && (String.eqb (mode obj) "OBJECT" || String.eqb (mode obj) "SCULPT")
  end.

Definition PU_OT_delete_old_shapekeys_execute (context : Context)
  : result (Outcome * Context) :=
  let obj := active_object context in
  match delete_old_shapekeys obj with
  | Ok (Some deleted, obj') =>
      Ok (mkOutcome
            (if 0 <? deleted then
               ("INFO",
                ("Deleted " ++ str_of_nat deleted ++ " shapekey(s)")%string)
             else ("INFO", "No .old shapekeys found"))
            FINISHED,
          mkContext obj' (scene context))
  | Ok (None, _) => Raise TypeError
  | Raise e => Raise e
  | OutOfFuel => OutOfFuel
  end.

Definition PU_OT_create_missing_poll (context : Context) : bool :=
  match pawlygon_target_object (scene context) with
  | None => false
  | Some _ => (0 <? pawlygon_missing_count (scene context))%Z
  end.

(** [item.name not in target.data.shape_keys.key_blocks]. *)
Definition not_in_key_blocks (n : string) : M bool :=
  fun o =>
    match shape_keys o with
    | Some kbs => Ok (negb (mem n (names kbs)), o)
    | None => Raise AttributeError
    end.

(** The part of [PU_OT_create_missing.execute] that works on the target:
    the base entry is ensured, then the missing names are created.
    Answers [created]. *)
Definition create_missing_steps
  (missing_list : list PawlygonMissingItem.t) : M nat :=
  fun target =>
    ((match data_shape_keys target with
      | Raise e => throw e
      | OutOfFuel => fun _ => OutOfFuel
      | Ok None => shape_key_add "Basis" false ;;; ret tt
      | Ok (Some _) => ret tt
      end) ;;;
     for_each missing_list
       (fun item created =>
          absent <- not_in_key_blocks (PawlygonMissingItem.name item) ;;
          if absent then
            sk <- shape_key_add (PawlygonMissingItem.name item) false ;;
            set_value sk 0%Q ;;;
            ret (created + 1)
          else ret created)
       0) target.

(** [execute] of the create-missing operator. The local [created] is
    handed back next to the outcome, so that statements can name it. *)
Definition PU_OT_create_missing_execute (context : Context)
  : result (Outcome * nat * Context) :=
  match pawlygon_target_object (scene context) with
  | None => Raise AttributeError
  | Some target =>
      let missing_list := pawlygon_missing_list (scene context) in
      match create_missing_steps missing_list target with
      | Ok (created, target') =>
          Ok (mkOutcome
                ("INFO",
                 ("Created " ++ str_of_nat created ++ " shapekey(s)")%string)
                FINISHED,
              created,
              mkContext (active_object context)
                (mkScene (Some target')
                   (pawlygon_list_name (scene context))
                   0%Z
                   []
                   (pawlygon_missing_index (scene context))))
      | Raise e => Raise e
      | OutOfFuel => OutOfFuel
      end
  end.

(** ** Reference notions and sample objects used by the statements *)

(** The entries of an object, the empty list when it has no collection. *)
Definition key_list (o : Object) : list ShapeKey :=
  match shape_keys o with
  | Some kbs => kbs
  | None => []
  end.

(** The entries the move sweep treats: those after the first one whose
    name carries the suffix. *)
Definition movable (kbs : list ShapeKey) : list ShapeKey :=
  filter is_old (tl kbs).

Definition not_old (kb : ShapeKey) : bool := negb (is_old kb).

(** A plain entry: weight 0 and no mask. *)
Definition plain (p : nat) (n : string) : ShapeKey := mkShapeKey p n 0%Q "".

(** What the polls of the cleanup and split operators ask of the object
    itself: a mesh, in Object or Sculpt mode. *)
Definition mesh_in_mode (o : Object) : bool :=
  String.eqb (type o) "MESH" && correct_mode o.

Definition mesh (kbs : list ShapeKey) (nr : nat) : Object :=
  mkObject "MESH" "OBJECT" (Some kbs) nr ["L"; "R"].

(** [Basis, A.old, B, C.old], the example of the specification. *)
Definition sample_cleanup : Object :=
  mesh [plain 1 "Basis"; plain 2 "A.old"; plain 3 "B"; plain 4 "C.old"] 1.

(** [Basis, A.old]. *)
Definition sample_one_old : Object :=
  mesh [plain 1 "Basis"; plain 2 "A.old"] 1.

(** A base entry that carries the suffix: [Basis.old, A]. *)
Definition sample_old_base : Object :=
  mesh [plain 1 "Basis.old"; plain 2 "A"] 1.

(** The names an object currently carries. *)
Definition present_names (obj : option Object) : list string :=
  match obj with
  | Some o => names (key_list o)
  | None => []
  end.


(** An object without a shapekey collection. *)
Definition sample_bare : Object := mkObject "MESH" "OBJECT" None 0 ["L"; "R"].

Definition sample_context (obj : Object) : Context :=
  mkContext (Some obj) (mkScene None "" 0%Z [] 0%Z).

(** The names a creation pass creates, in the words of the specification:
    one per stored name, in order, skipping a name that is already
    present in the collection when its turn comes. *)
Fixpoint names_to_create (present missing : list string) : list string :=
  match missing with
  | [] => []
  | n :: r =>
      if in_dec string_dec n present then names_to_create present r
      else n :: names_to_create (present ++ [n]) r
  end.

(** The collection once a base entry is ensured: the collection itself,
    or a lone entry called [Basis] when the object had none. *)
Definition base_ensured (target : Object) : list ShapeKey :=
  match shape_keys target with
  | Some kbs => kbs
  | None => [mkShapeKey 1 "Basis" 1%Q ""]
  end.

(** The active number once a base entry is ensured. *)
Definition base_ensured_nr (target : Object) : nat :=
  match shape_keys target with
  | Some _ => shapenr target
  | None => 1
  end.

(** The names the creation loop gives, whatever the stored names are:
    a stored name found in the collection at its turn is skipped, the
    others are stored the way the host stores names. *)
Fixpoint names_created (present missing : list string) : list string :=
  match missing with
  | [] => []
  | n :: r =>
      if mem n present then names_created present r
      else
        let s := unique_name present n in
        s :: names_created (present ++ [s]) r
  end.

Definition item (n : string) : PawlygonMissingItem.t :=
  PawlygonMissingItem.mk n.

(** [Basis, Smile, Smile.old, Frown] as target, with [Wink] stored as
    missing: the example of the specification. *)
Definition sample_missing : Context :=
  mkContext None
    (mkScene
       (Some (mesh [plain 1 "Basis"; plain 2 "Smile"; plain 3 "Smile.old";
                    plain 4 "Frown"] 1))
       "" 1%Z [item "Wink"] 0%Z).

(** Two entries that are the same shapekey, possibly with other weight
    and mask: same identity, same name. *)
Definition same_id (a b : ShapeKey) : Prop :=
  sk_ptr a = sk_ptr b /\ name a = name b.

(** Two collections holding the same shapekeys in the same order. *)
Definition variant (K K' : list ShapeKey) : Prop := Forall2 same_id K K'.

(** [Basis, Smile, Frown] with [Smile] active. *)
Definition sample_split : Object :=
  mesh [plain 1 "Basis"; plain 2 "Smile"; plain 3 "Frown"] 2.

(** [sample_split] after one split by L and R:
    [Basis, Smile, SmileL, SmileR, Frown] with [Smile] still active. *)
Definition sample_split_again : Object :=
  mesh [plain 1 "Basis"; plain 2 "Smile"; plain 4 "SmileL";
        plain 5 "SmileR"; plain 3 "Frown"] 2.

(** ** operators.py: the split and check operators *)

(** [constants.SHAPEKEY_LISTS] and [constants.VERTEX_GROUP_PAIRS] are read
    by the code below; the code that reads them takes them as parameters:
    a dictionary from list names to expected names, kept as an
    association list, and a list of pairs of group names. *)
Definition ShapekeyLists : Type := list (string * list string).

(** [d.get(key, [])]. *)
Fixpoint dict_get (d : ShapekeyLists) (key : string) : list string :=
  match d with
  | [] => []
  | (k, v) :: r => if String.eqb k key then v else dict_get r key
  end.

Definition PU_OT_split_shapekey_poll (context : Context) : bool :=
  match active_object context with
  | None => false
  | Some obj =>
      String.eqb (type obj) "MESH"
      && truthy (shape_keys obj)
      && truthy (active_shape_key obj)
      && correct_mode obj
  end.

(** [execute] of the split operator; [group_a] and [group_b] are the
    operator's properties. *)
Definition PU_OT_split_shapekey_execute (group_a group_b : string)
  (context : Context) : result (Outcome * Context) :=
  let obj := active_object context in
  match split_shapekey_by_groups obj group_a group_b with
  | Ok (Some (r0, r1), obj') =>
      Ok (mkOutcome ("INFO", ("Created: " ++ r0 ++ " and " ++ r1)%string)
            FINISHED,
          mkContext obj' (scene context))
  | Ok (None, obj') =>
      Ok (mkOutcome
            ("WARNING", "Could not split. Check vertex groups exist.")
            CANCELLED,
          mkContext obj' (scene context))
  | Raise e => Raise e
  | OutOfFuel => OutOfFuel
  end.

Definition PU_OT_check_missing_poll (context : Context) : bool :=
  truthy (pawlygon_target_object (scene context)).

Definition PU_OT_check_missing_execute (SHAPEKEY_LISTS : ShapekeyLists)
  (context : Context) : result (Outcome * Context) :=
  let target := pawlygon_target_object (scene context) in
  let list_name := pawlygon_list_name (scene context) in
  let expected_keys := dict_get SHAPEKEY_LISTS list_name in
  match get_missing_shapekeys target expected_keys with
  | Ok (missing, target') =>
      Ok (mkOutcome
            (match missing with
             | _ :: _ =>
                 ("INFO",
                  ("Found " ++ str_of_nat (List.length missing)
                   ++ " missing shapekeys")%string)
             | [] => ("INFO", "All shapekeys present!")
             end)
            FINISHED,
          mkContext (active_object context)
            (mkScene target' list_name
               (Z.of_nat (List.length missing))
               (map PawlygonMissingItem.mk missing)
               (pawlygon_missing_index (scene context))))
  | Raise e => Raise e
  | OutOfFuel => OutOfFuel
  end.

(** ** properties.py *)

(** [get_list_items]: one [(identifier, name, description)] per key of
    the dictionary. *)
Definition get_list_items (SHAPEKEY_LISTS : ShapekeyLists)
  : list (string * string * string) :=
  map (fun kv =>
         let name := fst kv in
         (name, name, ("Check against " ++ name ++ " list")%string))
    SHAPEKEY_LISTS.

(** ** panels.py *)

(** What a [draw] puts on the layout, in order. *)
#[local] Unset Elimination Schemes.
Inductive Widget : Type :=
| Label (text icon : string)
| Separator
| OperatorButton (idname text : string) (props : list (string * string))
| PropField (property text : string)
| PropSearch (property search_property text : string)
| TemplateList (listtype_name propname active_propname : string)
    (rows : nat)
| Column (enabled : bool) (body : list Widget)
| Row (enabled : bool) (body : list Widget).
#[local] Set Elimination Schemes.

(** [obj and obj.mode in {'OBJECT', 'SCULPT'}], read as a condition. *)
Definition is_correct_mode (obj : option Object) : bool :=
  match obj with
  | Some o => correct_mode o
  | None => false
  end.

(** [is_valid] of the split panel, read as a condition. *)
Definition split_is_valid (obj : option Object) : bool :=
  match obj with
  | Some o =>
      String.eqb (type o) "MESH"
      && truthy (shape_keys o)
      && truthy (active_shape_key o)
  | None => false
  end.

(** The status line of the split panel. The branch that prints the
    active name is entered with [is_valid] true, so with an active
    shapekey; the two tests are taken together here. *)
Definition split_status (obj : option Object) : list Widget :=
  if negb (is_correct_mode obj) then
    [Label "Switch to Object or Sculpt mode" "INFO"]
  else
    match obj with
    | Some o =>
        match split_is_valid obj, active_shape_key o with
        | true, Some kb => [Label ("Active: " ++ name kb)%string "NONE"]
        | _, _ => [Label "Select a mesh with shapekeys" "INFO"]
        end
    | None => [Label "Select a mesh with shapekeys" "INFO"]
    end.

(** [[vg.name for vg in obj.vertex_groups] if obj and obj.vertex_groups
    else []]. *)
Definition vg_names (obj : option Object) : list string :=
  match obj with
  | Some o => vertex_groups o
  | None => []
  end.

(** The column drawn for one pair of groups. *)
Definition split_pair_column (obj : option Object) (pair : string * string)
  : Widget :=
  let '(group_a, group_b) := pair in
  let has_a := mem group_a (vg_names obj) in
  let has_b := mem group_b (vg_names obj) in
  let has_both := has_a && has_b in
  let text := ("Split " ++ group_a ++ "/" ++ group_b)%string in
  if split_is_valid obj && has_both && is_correct_mode obj then
    Column true
      [OperatorButton "pawlygon.split_shapekey" text
         [("group_a", group_a); ("group_b", group_b)]]
  else
    Column true
      (Row false [OperatorButton "pawlygon.split_shapekey" text []]
       :: (if negb has_both then
             let missing :=
               (if negb has_a then [group_a] else [])
               ++ (if negb has_b then [group_b] else []) in
             [Row true
                [Label ("Missing Vertex Group: "
                        ++ String.concat ", " missing)%string "ERROR"]]
           else [])).

Definition PU_PT_split_panel_draw
  (VERTEX_GROUP_PAIRS : list (string * string)) (context : Context)
  : list Widget :=
  let obj := active_object context in
  split_status obj ++ [Separator]
  ++ map (split_pair_column obj) VERTEX_GROUP_PAIRS.

Definition PU_PT_missing_panel_draw (context : Context) : list Widget :=
  let scene := scene context in
  [PropSearch "pawlygon_target_object" "objects" "Target Object";
   PropField "pawlygon_list_name" "List";
   OperatorButton "pawlygon.check_missing" "Check Missing" []]
  ++ (let missing_count := pawlygon_missing_count scene in
      if (0 <? missing_count)%Z then
        [Separator;
         Label ("Missing: " ++ str_of_nat (Z.to_nat missing_count)
                ++ " shapekeys")%string "ERROR";
         TemplateList "PU_UL_missing_list" "pawlygon_missing_list"
           "pawlygon_missing_index" 5;
         OperatorButton "pawlygon.create_missing" "Create Missing" []]
      else []).

(** [is_valid] of the cleanup panel, read as a condition. *)
Definition cleanup_is_valid (obj : option Object) : bool :=
  match obj with
  | Some o => String.eqb (type o) "MESH" && truthy (shape_keys o)
  | None => false
  end.

(** The value of [is_valid and is_correct_mode] in the cleanup panel.
    Python's [and] answers one of its operands: [None] when there is no
    object or when the mesh has no shapekey datablock, [False] for an
    object that is not a mesh, and otherwise the mode test. *)
Definition cleanup_enabled_value (obj : option Object) : option bool :=
  match obj with
  | None => None
  | Some o =>
      if String.eqb (type o) "MESH" then
        match shape_keys o with
        | None => None
        | Some _ => Some (correct_mode o)
        end
      else Some false
  end.

(** [draw] of the cleanup panel. [col.enabled] is a boolean property of
    the host: assigning [None] to it raises [TypeError], before the two
    buttons are drawn. *)
Definition PU_PT_cleanup_panel_draw (context : Context)
  : result (list Widget) :=
  let obj := active_object context in
  let status :=
    if negb (is_correct_mode obj) then
      [Label "Switch to Object or Sculpt mode" "INFO"]
    else if negb (cleanup_is_valid obj) then
      [Label "Select a mesh with shapekeys" "INFO"]
    else [] in
  match cleanup_enabled_value obj with
  | Some enabled =>
      Ok (status
          ++ [Column enabled
                [OperatorButton "pawlygon.move_old_shapekeys"
                   "Move .old to Bottom" [];
                 OperatorButton "pawlygon.delete_old_shapekeys"
                   "Delete .old Shapekeys" []]])
  | None => Raise TypeError
  end.

(** ** Further notions used by the statements *)

(** Two entries that are the same shapekey and, unless the entry is the
    one referred to by [p], carry the same mask. *)
Definition alike (p : nat) (a b : ShapeKey) : Prop :=
  sk_ptr a = sk_ptr b /\ name a = name b
  /\ (sk_ptr a <> p -> vertex_group a = vertex_group b).

(** The entry a split derives, as the host allocates it: weight 1, no
    mask. *)
Definition derived (p : nat) (n : string) : ShapeKey := mkShapeKey p n 1%Q "".

(** A dictionary of two lists of expected names. *)
Definition sample_lists : ShapekeyLists :=
  [("Basic", ["Smile"; "Frown"; "Wink"]); ("Eyes", ["Blink"])].

Definition sample_check : Context :=
  mkContext None
    (mkScene
       (Some (mesh [plain 1 "Basis"; plain 2 "Smile"; plain 3 "Smile.old";
                    plain 4 "Frown"] 1))
       "Basic" 0%Z [] 0%Z).

(** [Basis, Smile, Frown] with weights and masks set, [Smile] active. *)
Definition sample_weighted : Object :=
  mesh [plain 1 "Basis"; mkShapeKey 2 "Smile" (1 # 2) "Face";
        mkShapeKey 3 "Frown" 1%Q "Mouth"] 2.

(** An Empty: an object without data. *)
Definition sample_empty : Object := mkObject "EMPTY" "OBJECT" None 0 [].

Definition sample_split_context (obj : Object) : Context :=
  mkContext (Some obj) (mkScene None "" 0%Z [] 0%Z).

(** * Properties *)

(** ** Lists *)

Section ListFacts.
Context {A : Type}.

Lemma firstn_length_app (a b : list A) : firstn (List.length a) (a ++ b) = a.
Proof. induction a; simpl; congruence. Qed.

Lemma skipn_length_app (a b : list A) : skipn (List.length a) (a ++ b) = b.
Proof. induction a; simpl; congruence. Qed.

Lemma nth_error_length_app (a b : list A) (x : A) :
  nth_error (a ++ x :: b) (List.length a) = Some x.
Proof. induction a; simpl; congruence. Qed.

Lemma remove_at_middle (a b : list A) (x : A) :
  remove_at (List.length a) (a ++ x :: b) = a ++ b.
Proof.
  unfold remove_at. rewrite firstn_length_app.
  replace (a ++ x :: b) with ((a ++ [x]) ++ b) at 1
    by (rewrite <- app_assoc; reflexivity).
  replace (S (List.length a)) with (List.length (a ++ [x]))
    by (rewrite length_app; simpl; lia).
  now rewrite skipn_length_app.
Qed.

Lemma insert_at_middle (a b : list A) (x : A) :
  insert_at (List.length a) x (a ++ b) = a ++ x :: b.
Proof.
  unfold insert_at. now rewrite firstn_length_app, skipn_length_app.
Qed.

Lemma filter_none_all (p : A -> bool) (l : list A) :
  filter p l = [] -> filter (fun x => negb (p x)) l = l.
Proof.
  induction l as [|x l IH]; simpl; [reflexivity|].
  destruct (p x); simpl; [discriminate|].
  intros H. now rewrite IH.
Qed.

Lemma filter_negb_filter (p : A -> bool) (l : list A) :
  filter p (filter (fun x => negb (p x)) l) = [].
Proof.
  induction l as [|x l IH]; simpl; [reflexivity|].
  destruct (p x) eqn:E; simpl; [assumption|]. now rewrite E.
Qed.
End ListFacts.

(** ** Names *)

Lemma mem_In (n : string) (l : list string) : mem n l = true <-> In n l.
Proof.
  unfold mem. rewrite existsb_exists. split.
  - intros (x & Hin & E). apply String.eqb_eq in E. now subst.
  - intros Hin. exists n. split; [assumption | apply String.eqb_refl].
Qed.

Lemma mem_not_In (n : string) (l : list string) :
  mem n l = false <-> ~ In n l.
Proof.
  rewrite <- mem_In. destruct (mem n l); split; congruence.
Qed.

Lemma string_app_inv_head (n a b : string) :
  (n ++ a)%string = (n ++ b)%string -> a = b.
Proof.
  induction n as [|c n IH]; simpl; intros H; [exact H|].
  injection H as H. now apply IH.
Qed.

Lemma digit_not_dot (c : ascii) :
  is_digit c = true -> Ascii.eqb c "." = false.
Proof.
  destruct (Ascii.eqb_spec c ".") as [->|_]; [discriminate | reflexivity].
Qed.

Lemma split_number_digits (d : string) :
  all_digits d = true -> split_number d = None.
Proof.
  induction d as [|c d IH]; simpl; [reflexivity|]. intros H.
  apply andb_prop in H. destruct H as (Hc & Hd).
  now rewrite (IH Hd), (digit_not_dot c Hc).
Qed.

(** The host's own splitting reads a numbered name back. *)
Lemma split_number_app (a d : string) :
  all_digits d = true ->
  split_number (a ++ String "." d) = Some (a, d).
Proof.
  intros Hd. induction a as [|c a IH]; simpl.
  - now rewrite (split_number_digits d Hd), Hd.
  - now rewrite IH.
Qed.

Lemma string_of_uint_digits (u : Decimal.uint) :
  all_digits (NilEmpty.string_of_uint u) = true.
Proof. induction u; simpl; auto. Qed.

Lemma all_digits_pad3 (k : N) : all_digits (pad3 k) = true.
Proof.
  unfold pad3, str_of_N.
  pose proof (string_of_uint_digits (N.to_uint k)) as H.
  destruct (String.length (NilEmpty.string_of_uint (N.to_uint k)))
    as [|[|[|?]]]; simpl; exact H.
Qed.

Lemma pad3_decode (k : N) :
  option_map N.of_uint (NilEmpty.uint_of_string (pad3 k)) = Some k.
Proof.
  assert (H : option_map N.of_uint
                (NilEmpty.uint_of_string (str_of_N k)) = Some k).
  { unfold str_of_N. rewrite NilEmpty.usu. simpl.
    now rewrite DecimalN.Unsigned.of_to. }
  unfold pad3. destruct (String.length (str_of_N k)) as [|[|[|?]]];
    try exact H; simpl;
    destruct (NilEmpty.uint_of_string (str_of_N k)); simpl in *;
    try discriminate; exact H.
Qed.

(** The numbered candidates for one name are pairwise distinct, however
    the name is shortened to make room for the number. *)
Lemma candidate_inj (stem : string) (j k : N) :
  candidate stem j = candidate stem k -> j = k.
Proof.
  unfold candidate, numstr. cbn [String.append]. intros H.
  pose proof (split_number_app
                (utf8_cpy (MAX_NAME - String.length (String "." (pad3 j))) 0
                   stem)
                (pad3 j) (all_digits_pad3 j)) as Hj.
  rewrite H, (split_number_app _ _ (all_digits_pad3 k)) in Hj.
  injection Hj as _ Hp.
  pose proof (pad3_decode j) as Dj. rewrite <- Hp, pad3_decode in Dj.
  now injection Dj.
Qed.

Lemma first_free_taken (taken : list string) (stem : string) (fuel : nat) :
  forall k,
    In (first_free taken stem k fuel) taken ->
    forall i, i <= fuel -> In (candidate stem (k + N.of_nat i)) taken.
Proof.
  induction fuel as [|fuel IH]; intros k Hin i Hi; simpl in Hin.
  - replace i with 0 by lia. now rewrite N.add_0_r.
  - destruct (mem (candidate stem k) taken) eqn:E.
    + destruct i as [|i]; [rewrite N.add_0_r; now apply mem_In|].
      replace (k + N.of_nat (S i))%N with (N.succ k + N.of_nat i)%N by lia.
      apply (IH (N.succ k) Hin). lia.
    + apply mem_not_In in E. contradiction.
Qed.

Lemma fits_inv (n : string) :
  fits n = true -> n <> "" /\ stored_name n = n.
Proof.
  unfold fits. intros H. apply andb_prop in H. destruct H as (H1 & H2).
  apply negb_true_iff, String.eqb_neq in H1.
  apply String.eqb_eq in H2. now split.
Qed.

(** A name that fits the name field and is free is stored as given. *)
Lemma unique_name_free (taken : list string) (n : string) :
  fits n = true -> ~ In n taken -> unique_name taken n = n.
Proof.
  intros Hf H. apply fits_inv in Hf. destruct Hf as (Hne & Hs).
  unfold unique_name. rewrite Hs.
  apply String.eqb_neq in Hne. rewrite Hne.
  apply mem_not_In in H. now rewrite H.
Qed.

(** The name the host stores is never one of the names already taken. *)
Lemma unique_name_fresh (taken : list string) (n : string) :
  ~ In (unique_name taken n) taken.
Proof.
  unfold unique_name.
  set (n1 := if String.eqb (stored_name n) "" then "Key" else stored_name n).
  destruct (mem n1 taken) eqn:E; [|now apply mem_not_In].
  destruct (split_name_number n1) as [stem number].
  intros Hin.
  pose proof (first_free_taken taken stem (List.length taken)
                (N.succ number) Hin) as Hall.
  set (cands := map (fun i => candidate stem (N.succ number + N.of_nat i))
                  (seq 0 (S (List.length taken)))).
  assert (Hnd : NoDup cands).
  { apply Injective_map_NoDup; [|apply seq_NoDup].
    intros j k Hjk. apply candidate_inj in Hjk. lia. }
  assert (Hincl : incl cands taken).
  { intros c Hc. apply in_map_iff in Hc. destruct Hc as (j & <- & Hj).
    apply in_seq in Hj. apply Hall. lia. }
  pose proof (NoDup_incl_length Hnd Hincl) as Hlen.
  unfold cands in Hlen. rewrite length_map, length_seq in Hlen. lia.
Qed.

(** ** The monad and the object record *)

Lemma bind_Ok {A B : Type} (m : M A) (k : A -> M B) (o o' : Object) (a : A) :
  m o = Ok (a, o') -> bind m k o = k a o'.
Proof. unfold bind. now intros ->. Qed.

Lemma bind_assoc {A B C : Type} (m : M A) (g : A -> M B) (k : B -> M C)
  (o : Object) :
  bind (bind m g) k o = bind m (fun x => bind (g x) k) o.
Proof. unfold bind. destruct (m o) as [[a o']| |]; reflexivity. Qed.

Lemma for_each_app {A B : Type} (xs ys : list A) (body : A -> B -> M B)
  (acc : B) (o : Object) :
  for_each (xs ++ ys) body acc o
  = (acc' <- for_each xs body acc ;; for_each ys body acc') o.
Proof.
  revert acc o. induction xs as [|x xs IH]; intros acc o; simpl.
  - reflexivity.
  - unfold bind. destruct (body x acc o) as [[acc' o']| |]; auto.
Qed.

Lemma with_keys_same (o : Object) (k : option (list ShapeKey)) (nr : nat) :
  shape_keys o = k -> shapenr o = nr -> with_keys o k nr = o.
Proof. destruct o; simpl; intros; subst; reflexivity. Qed.

Lemma with_keys_twice (o : Object) k nr k' nr' :
  with_keys (with_keys o k nr) k' nr' = with_keys o k' nr'.
Proof. reflexivity. Qed.

(** One host call at the head of a sequence, run on a known state. *)
Ltac run_host f :=
  unfold bind at 1; unfold f at 1; try unfold on_key_blocks at 1;
  cbn [shape_keys with_keys shapenr].

(** ** One step of the host's move operator *)

Lemma keyblock_move_down (pre suf : list ShapeKey) (x y : ShapeKey) :
  keyblock_move (List.length pre) (S (List.length pre)) (pre ++ x :: y :: suf)
  = pre ++ y :: x :: suf.
Proof.
  unfold keyblock_move.
  rewrite nth_error_length_app, remove_at_middle.
  replace (S (List.length pre)) with (List.length (pre ++ [y]))
    by (rewrite length_app; simpl; lia).
  replace (pre ++ y :: suf) with ((pre ++ [y]) ++ suf)
    by (rewrite <- app_assoc; reflexivity).
  rewrite insert_at_middle, <- app_assoc. reflexivity.
Qed.

Lemma keyblock_move_up (pre suf : list ShapeKey) (x y : ShapeKey) :
  keyblock_move (S (List.length pre)) (List.length pre) (pre ++ y :: x :: suf)
  = pre ++ x :: y :: suf.
Proof.
  unfold keyblock_move.
  replace (S (List.length pre)) with (List.length (pre ++ [y]))
    by (rewrite length_app; simpl; lia).
  replace (pre ++ y :: x :: suf) with ((pre ++ [y]) ++ x :: suf)
    by (rewrite <- app_assoc; reflexivity).
  rewrite nth_error_length_app, remove_at_middle, <- app_assoc. simpl.
  apply insert_at_middle.
Qed.

Lemma shape_key_move_down_step (o : Object) (pre suf : list ShapeKey)
  (x y : ShapeKey) :
  in_edit_mode o = false ->
  shape_keys o = Some (pre ++ x :: y :: suf) ->
  shapenr o = S (List.length pre) ->
  shape_key_move DOWN o
  = Ok (tt, with_keys o (Some (pre ++ y :: x :: suf))
              (S (S (List.length pre)))).
Proof.
  intros Hm Hk Hn. unfold shape_key_move, active_shape_key.
  rewrite Hk, Hn, Hm. cbn [orb].
  rewrite nth_error_length_app.
  assert (Hlen : List.length (pre ++ x :: y :: suf)
                 = List.length pre + 2 + List.length suf)
    by (rewrite length_app; simpl; lia).
  destruct (Nat.leb_spec (List.length (pre ++ x :: y :: suf)) 1); [lia|].
  replace (S (List.length pre) - 1) with (List.length pre) by lia.
  replace ((List.length (pre ++ x :: y :: suf) + List.length pre + 1)
           mod List.length (pre ++ x :: y :: suf))
    with (S (List.length pre)).
  - now rewrite keyblock_move_down.
  - set (t := List.length (pre ++ x :: y :: suf)) in *.
    replace (t + List.length pre + 1) with (S (List.length pre) + 1 * t)
      by lia.
    rewrite Nat.Div0.mod_add. symmetry. apply Nat.mod_small. lia.
Qed.

Lemma shape_key_move_up_step (o : Object) (pre suf : list ShapeKey)
  (x y : ShapeKey) :
  in_edit_mode o = false ->
  shape_keys o = Some (pre ++ y :: x :: suf) ->
  shapenr o = S (S (List.length pre)) ->
  shape_key_move UP o
  = Ok (tt, with_keys o (Some (pre ++ x :: y :: suf)) (S (List.length pre))).
Proof.
  intros Hm Hk Hn. unfold shape_key_move, active_shape_key.
  rewrite Hk, Hn, Hm. cbn [orb].
  replace (pre ++ y :: x :: suf) with ((pre ++ [y]) ++ x :: suf) at 2
    by (rewrite <- app_assoc; reflexivity).
  replace (S (List.length pre)) with (List.length (pre ++ [y])) at 1
    by (rewrite length_app; simpl; lia).
  rewrite nth_error_length_app.
  assert (Hlen : List.length (pre ++ y :: x :: suf)
                 = List.length pre + 2 + List.length suf)
    by (rewrite length_app; simpl; lia).
  destruct (Nat.leb_spec (List.length (pre ++ y :: x :: suf)) 1); [lia|].
  replace (S (S (List.length pre)) - 1) with (S (List.length pre)) by lia.
  replace ((List.length (pre ++ y :: x :: suf) + S (List.length pre) - 1)
           mod List.length (pre ++ y :: x :: suf))
    with (List.length pre).
  - now rewrite keyblock_move_up.
  - set (t := List.length (pre ++ y :: x :: suf)) in *.
    replace (t + S (List.length pre) - 1) with (List.length pre + 1 * t)
      by lia.
    rewrite Nat.Div0.mod_add. symmetry. apply Nat.mod_small. lia.
Qed.

(** ** move_old_shapekeys_to_bottom *)

(** The [while] loop carries the active entry to the last position, and
    [List.length suf] units of fuel are enough. *)
Lemma while_below_spec (suf : list ShapeKey) :
  forall (pre : list ShapeKey) (x : ShapeKey) (o : Object) (fuel t : nat),
    in_edit_mode o = false ->
    shape_keys o = Some (pre ++ x :: suf) ->
    shapenr o = S (List.length pre) ->
    t = List.length pre + List.length suf ->
    List.length suf <= fuel ->
    while_below fuel t o
    = Ok (tt, with_keys o (Some (pre ++ suf ++ [x])) (S t)).
Proof.
  induction suf as [|y suf IH]; intros pre x o fuel t Hm Hk Hn Ht Hf.
  - simpl in Ht. assert (E : (active_shape_key_index o <? t) = false).
    { unfold active_shape_key_index. rewrite Hn. apply Nat.ltb_ge. lia. }
    destruct fuel; simpl; rewrite E; f_equal; f_equal; symmetry;
      apply with_keys_same; simpl; auto; lia.
  - simpl in Ht, Hf. destruct fuel as [|fuel]; [lia|].
    simpl. assert (E : (active_shape_key_index o <? t) = true).
    { unfold active_shape_key_index. rewrite Hn. apply Nat.ltb_lt. lia. }
    rewrite E.
    rewrite (bind_Ok _ _ _ _ _
               (shape_key_move_down_step o pre suf x y Hm Hk Hn)).
    rewrite (IH (pre ++ [y]) x _ fuel t).
    + rewrite with_keys_twice, <- !app_assoc. reflexivity.
    + exact Hm.
    + simpl. now rewrite <- app_assoc.
    + simpl. rewrite length_app. simpl. lia.
    + rewrite length_app. simpl. lia.
    + lia.
Qed.

(** The loop over the reversed indices of the entries after [pre]: the
    entries without the suffix keep their order, those with the suffix
    follow them in reverse order, and each of them is counted. *)
Lemma move_loop_spec (l : list ShapeKey) :
  forall (pre : list ShapeKey) (o : Object) (fuel moved : nat),
    in_edit_mode o = false ->
    pre <> [] ->
    shape_keys o = Some (pre ++ l) ->
    List.length (pre ++ l) <= fuel ->
    exists nr,
      move_loop fuel (rev (old_indices_from (List.length pre) l)) moved o
      = Ok (moved + List.length (filter is_old l),
            with_keys o
              (Some (pre ++ filter not_old l ++ rev (filter is_old l))) nr).
Proof.
  induction l as [|x l IH]; intros pre o fuel moved Hm Hpre Hk Hf.
  - exists (shapenr o). simpl. unfold move_loop, ret. simpl.
    rewrite Nat.add_0_r, with_keys_same; auto.
  - assert (Hk' : shape_keys o = Some ((pre ++ [x]) ++ l))
      by (now rewrite <- app_assoc).
    assert (Hf' : List.length ((pre ++ [x]) ++ l) <= fuel)
      by (now rewrite <- app_assoc).
    assert (Hpre' : pre ++ [x] <> []) by (destruct pre; discriminate).
    destruct (IH (pre ++ [x]) o fuel moved Hm Hpre' Hk' Hf') as [nr Hloop].
    replace (List.length (pre ++ [x])) with (S (List.length pre)) in Hloop
      by (rewrite length_app; simpl; lia).
    simpl. unfold not_old at 1. destruct (is_old x) eqn:Eold; simpl.
    + unfold move_loop in *. rewrite for_each_app.
      rewrite (bind_Ok _ _ _ _ _ Hloop). simpl.
      destruct (Nat.eqb_spec (List.length pre) 0) as [E0|_].
      { destruct pre; [congruence|discriminate]. }
      set (mid := filter not_old l ++ rev (filter is_old l)).
      assert (Hlen : List.length (pre ++ x :: l)
                     = List.length (pre ++ x :: mid)).
      { rewrite !length_app. simpl. unfold mid. rewrite length_app, length_rev.
        f_equal. f_equal. unfold not_old.
        rewrite <- (filter_length is_old l). lia. }
      eexists.
      unfold bind at 1. unfold bind at 1. unfold set_active_shape_key_index.
      cbn [shape_keys with_keys shapenr].
      unfold bind at 1. unfold key_blocks_len at 1.
      cbn [shape_keys with_keys shapenr].
      rewrite <- app_assoc. simpl.
      erewrite (bind_Ok (while_below fuel _)).
      2:{ apply (while_below_spec mid pre x); cbn [shape_keys with_keys shapenr].
          - exact Hm.
          - reflexivity.
          - reflexivity.
          - rewrite length_app. simpl. lia.
          - rewrite Hlen in Hf. rewrite length_app in Hf. simpl in Hf. lia. }
      unfold ret. rewrite with_keys_twice. f_equal. f_equal.
      * lia.
      * unfold mid. rewrite <- !app_assoc. reflexivity.
    + exists nr. rewrite Hloop. rewrite <- !app_assoc. reflexivity.
Qed.

Lemma move_old_cons (o : Object) (x : ShapeKey) (l : list ShapeKey)
  (fuel : nat) :
  has_shape_keys_attr o = true ->
  in_edit_mode o = false ->
  shape_keys o = Some (x :: l) ->
  S (List.length l) <= fuel ->
  exists nr,
    move_old_shapekeys_to_bottom fuel (Some o)
    = Ok (Some (List.length (filter is_old l)),
          Some (with_keys o
                  (Some (x :: filter not_old l ++ rev (filter is_old l)))
                  nr)).
Proof.
  intros Ha Hm Hk Hf. unfold move_old_shapekeys_to_bottom, data_shape_keys.
  rewrite Ha, Hk.
  destruct (move_loop_spec l [x] o fuel 0) as [nr Hloop];
    [exact Hm | discriminate | exact Hk | exact Hf |].
  exists nr. unfold on_object, old_indices. simpl in Hloop |- *.
  destruct (is_old x).
  - simpl. unfold bind at 1. unfold move_loop in *. rewrite for_each_app.
    rewrite (bind_Ok _ _ _ _ _ Hloop). reflexivity.
  - unfold bind at 1. rewrite Hloop. reflexivity.
Qed.

Lemma move_old_nil (o : Object) (fuel : nat) :
  has_shape_keys_attr o = true ->
  shape_keys o = Some [] ->
  move_old_shapekeys_to_bottom fuel (Some o) = Ok (Some 0, Some o).
Proof.
  intros Ha Hk. unfold move_old_shapekeys_to_bottom, data_shape_keys.
  now rewrite Ha, Hk.
Qed.

(** What the hypothesis on the object gives the host calls. *)
Lemma mesh_in_mode_inv (o : Object) :
  mesh_in_mode o = true ->
  type o = "MESH" /\ correct_mode o = true
  /\ has_shape_keys_attr o = true /\ supports_shapes o = true
  /\ in_edit_mode o = false.
Proof.
  unfold mesh_in_mode, correct_mode, has_shape_keys_attr, supports_shapes,
    in_edit_mode.
  intros H. apply andb_prop in H. destruct H as (Ht & Hm).
  apply String.eqb_eq in Ht. rewrite Ht. repeat split; try assumption.
  apply orb_prop in Hm. destruct Hm as [Hm|Hm]; apply String.eqb_eq in Hm;
    now rewrite Hm.
Qed.

Lemma mesh_has_attr (o : Object) :
  type o = "MESH" ->
  has_shape_keys_attr o = true /\ supports_shapes o = true.
Proof.
  unfold has_shape_keys_attr, supports_shapes. intros ->. now split.
Qed.

(** What one sweep does, for every collection. *)
Lemma move_old_spec (o : Object) (kbs : list ShapeKey) (fuel : nat) :
  mesh_in_mode o = true ->
  shape_keys o = Some kbs ->
  List.length kbs <= fuel ->
  exists o',
    move_old_shapekeys_to_bottom fuel (Some o)
    = Ok (Some (List.length (movable kbs)), Some o')
    /\ shape_keys o'
       = Some (firstn 1 kbs ++ filter not_old (tl kbs) ++ rev (movable kbs))
    /\ type o' = type o /\ mode o' = mode o
    /\ vertex_groups o' = vertex_groups o.
Proof.
  intros Hp Hk Hf.
  destruct (mesh_in_mode_inv o Hp) as (_ & _ & Ha & _ & Hm).
  destruct kbs as [|x l].
  - exists o. rewrite (move_old_nil o fuel Ha Hk). auto.
  - destruct (move_old_cons o x l fuel Ha Hm Hk Hf) as [nr H].
    eexists. split; [exact H|]. simpl. auto.
Qed.

Lemma filter_idem {A : Type} (p : A -> bool) (l : list A) :
  filter p (filter p l) = filter p l.
Proof.
  induction l as [|x l IH]; simpl; [reflexivity|].
  destruct (p x) eqn:E; simpl; [rewrite E|]; congruence.
Qed.

Lemma sweep_length (kbs : list ShapeKey) :
  List.length (firstn 1 kbs ++ filter not_old (tl kbs) ++ rev (movable kbs))
  = List.length kbs.
Proof.
  destruct kbs as [|x l]; [reflexivity|]. unfold movable. simpl.
  rewrite length_app, length_rev. unfold not_old.
  rewrite <- (filter_length is_old l). lia.
Qed.

Lemma sweep_movable (kbs : list ShapeKey) :
  movable (firstn 1 kbs ++ filter not_old (tl kbs) ++ rev (movable kbs))
  = rev (movable kbs).
Proof.
  destruct kbs as [|x l]; [reflexivity|]. unfold movable. simpl.
  rewrite filter_app. unfold not_old at 1.
  rewrite (filter_negb_filter is_old l). simpl.
  now rewrite filter_rev, filter_idem.
Qed.

(** C1 (amended). For a mesh object in Object or Sculpt mode whose
    shapekey collection is, in order, [Basis, A.old, B, C.old], one
    invocation of [move_old_shapekeys_to_bottom] returns 2 and leaves the
    collection in the order [Basis, B, C.old, A.old]: the entries with
    the suffix end up below the others, the one taken last from the top
    coming last. *)
Theorem move_old_example_order (o : Object) (kbs : list ShapeKey)
  (fuel : nat) :
  mesh_in_mode o = true ->
  shape_keys o = Some kbs ->
  names kbs = ["Basis"; "A.old"; "B"; "C.old"] ->
  4 <= fuel ->
  exists o',
    move_old_shapekeys_to_bottom fuel (Some o) = Ok (Some 2, Some o')
    /\ option_map names (shape_keys o')
       = Some ["Basis"; "B"; "C.old"; "A.old"].
Proof.
  intros Hp Hk Hn Hf.
  destruct kbs as [|b0 [|b1 [|b2 [|b3 [|? ?]]]]]; try discriminate.
  injection Hn as H0 H1 H2 H3.
  destruct (move_old_spec o _ fuel Hp Hk Hf) as (o' & Hrun & Hkeys & _).
  exists o'. unfold movable, not_old, is_old in *. simpl in *.
  rewrite H1, H2, H3 in *. simpl in *.
  split; [exact Hrun|]. rewrite Hkeys. simpl. congruence.
Qed.

Lemma move_old_example_order_witness :
  exists o',
    move_old_shapekeys_to_bottom 4 (Some sample_cleanup) = Ok (Some 2, Some o')
    /\ option_map names (shape_keys o')
       = Some ["Basis"; "B"; "C.old"; "A.old"].
Proof.
  apply (move_old_example_order sample_cleanup
           [plain 1 "Basis"; plain 2 "A.old"; plain 3 "B"; plain 4 "C.old"] 4).
  - reflexivity.
  - reflexivity.
  - reflexivity.
  - apply le_n.
Defined.

(** C1 as stated fails on the example of the specification: no run of the
    sweep on [Basis, A.old, B, C.old], a mesh in Object mode, leaves
    [Basis, B, A.old, C.old]. *)
Lemma move_old_example_claimed_order_refuted :
  ~ (exists fuel r o',
       move_old_shapekeys_to_bottom fuel (Some sample_cleanup)
       = Ok (r, Some o')
       /\ option_map names (shape_keys o')
          = Some ["Basis"; "B"; "A.old"; "C.old"]).
Proof.
  intros (fuel & r & o' & Hrun & Hn).
  destruct (le_lt_dec 4 fuel) as [Hf|Hf].
  - destruct (move_old_spec sample_cleanup _ fuel eq_refl eq_refl Hf)
      as (o1 & Hrun1 & Hkeys & _).
    rewrite Hrun in Hrun1. inversion Hrun1; subst.
    rewrite Hkeys in Hn. vm_compute in Hn. discriminate.
  - do 4 (destruct fuel as [|fuel];
          [vm_compute in Hrun;
           first [discriminate
                 | inversion Hrun; subst; vm_compute in Hn; discriminate]|]).
    lia.
Qed.

(** C2. The failing input: on [Basis, A.old], a mesh in Object mode, no
    entry has anywhere to go, and the sweep still answers 1: the
    collection is left as it was and [moved] is counted all the same. A
    second invocation right after does the same and answers 1 again,
    not 0. *)
Theorem move_old_counts_unmoved_entry :
  exists o1,
    move_old_shapekeys_to_bottom 2 (Some sample_one_old)
    = Ok (Some 1, Some o1)
    /\ shape_keys o1 = shape_keys sample_one_old
    /\ move_old_shapekeys_to_bottom 2 (Some o1) = Ok (Some 1, Some o1).
Proof.
  exists (mesh [plain 1 "Basis"; plain 2 "A.old"] 2).
  repeat split; reflexivity.
Qed.

(** ** delete_old_shapekeys *)



(** The first entry called [n] splits the collection. *)
Lemma index_of_split (C : list ShapeKey) (n : string) :
  In n (names C) ->
  exists C1 b C2,
    C = C1 ++ b :: C2 /\ name b = n /\ ~ In n (names C1)
    /\ index_of n (names C) = Some (List.length C1).
Proof.
  induction C as [|b C IH]; simpl; [contradiction|].
  intros Hin. destruct (String.eqb_spec (name b) n) as [E|E].
  - exists [], b, C. simpl. auto.
  - destruct Hin as [Hin|Hin]; [contradiction|].
    destruct (IH Hin) as (C1 & b' & C2 & -> & Hb & Hnot & Hidx).
    exists (b :: C1), b', C2. simpl. rewrite Hidx.
    repeat split; auto. intros [H|H]; auto.
Qed.

Lemma shape_key_remove_at (o : Object) (C1 C2 : list ShapeKey)
  (b : ShapeKey) :
  in_edit_mode o = false ->
  shape_keys o = Some (C1 ++ b :: C2) ->
  shapenr o = S (List.length C1) ->
  exists o',
    shape_key_remove o = Ok (tt, o')
    /\ key_list o' = C1 ++ C2
    /\ (C1 ++ C2 <> [] -> shape_keys o' = Some (C1 ++ C2))
    /\ type o' = type o /\ mode o' = mode o
    /\ vertex_groups o' = vertex_groups o.
Proof.
  intros Hm Hk Hn. unfold shape_key_remove, active_shape_key.
  rewrite Hk, Hn, Hm.
  rewrite nth_error_length_app.
  replace (S (List.length C1) - 1) with (List.length C1) by lia.
  rewrite remove_at_middle. destruct (C1 ++ C2) as [|c r] eqn:E.
  - eexists. split; [reflexivity|]. unfold key_list. simpl.
    repeat split; auto. congruence.
  - eexists. split; [reflexivity|]. unfold key_list. simpl.
    repeat split; auto.
Qed.

(** The loop deletes one entry for each of the names it is given. *)
Lemma delete_loop_spec (R : list string) :
  forall (o : Object) (C : list ShapeKey) (d : nat),
    in_edit_mode o = false ->
    shape_keys o = Some C ->
    Permutation R (names (filter is_old C)) ->
    exists o',
      delete_loop R d o = Ok (d + List.length R, o')
      /\ key_list o' = filter not_old C
      /\ type o' = type o /\ mode o' = mode o
      /\ vertex_groups o' = vertex_groups o.
Proof.
  induction R as [|n R IH]; intros o C d Hedit Hk Hperm.
  - exists o. simpl. unfold ret. rewrite Nat.add_0_r.
    split; [reflexivity|]. split; [|auto].
    unfold key_list. rewrite Hk. symmetry. apply filter_none_all.
    apply Permutation_nil in Hperm.
    destruct (filter is_old C); [reflexivity|discriminate].
  - assert (Hin : In n (names (filter is_old C)))
      by (apply (Permutation_in _ Hperm); now left).
    assert (Hold : endswith n ".old" = true).
    { unfold names in Hin. apply in_map_iff in Hin.
      destruct Hin as (b0 & <- & Hb0). apply filter_In in Hb0. apply Hb0. }
    assert (HinC : In n (names C)).
    { unfold names in *. apply in_map_iff in Hin.
      destruct Hin as (b0 & <- & Hb0). apply filter_In in Hb0.
      apply in_map. apply Hb0. }
    destruct (index_of_split C n HinC) as (C1 & b & C2 & -> & Hb & _ & Hidx).
    assert (Hbold : is_old b = true) by (unfold is_old; now rewrite Hb).
    set (o1 := with_keys o (Some (C1 ++ b :: C2)) (S (List.length C1))).
    destruct (shape_key_remove_at o1 C1 C2 b Hedit eq_refl eq_refl)
      as (o2 & Hrem & Hkl & Hsome & Ht & Hm & Hv).
    unfold o1 in Ht, Hm, Hv. simpl in Ht, Hm, Hv.
    assert (Hstep :
      (present <- key_blocks_contains n ;;
       if present then
         i <- index_of_named n ;;
         set_active_shape_key_index i ;;;
         shape_key_remove ;;;
         ret (d + 1)
       else ret d) o = Ok (d + 1, o2)).
    { unfold bind at 1. unfold key_blocks_contains. rewrite Hk.
      apply mem_In in HinC. rewrite HinC.
      unfold bind at 1. unfold index_of_named. rewrite Hk, Hidx.
      unfold bind at 1. unfold set_active_shape_key_index. rewrite Hk.
      fold o1. unfold bind. rewrite Hrem. reflexivity. }
    assert (Hperm' : Permutation R (names (filter is_old (C1 ++ C2)))).
    { rewrite filter_app in Hperm |- *. simpl in Hperm.
      rewrite Hbold in Hperm. unfold names in *.
      rewrite map_app in Hperm |- *. simpl in Hperm. rewrite Hb in Hperm.
      now apply Permutation_cons_app_inv in Hperm. }
    assert (Hnot : filter not_old (C1 ++ b :: C2) = filter not_old (C1 ++ C2)).
    { rewrite !filter_app. simpl. unfold not_old at 2. now rewrite Hbold. }
    unfold delete_loop in *. cbn [for_each].
    rewrite (bind_Ok _ _ _ _ _ Hstep).
    destruct (C1 ++ C2) as [|c r] eqn:E.
    + apply Permutation_sym, Permutation_nil in Hperm'. subst R. exists o2. simpl. unfold ret.
      split; [f_equal; f_equal; lia|]. rewrite Hkl, Hnot.
      repeat split; auto.
    + assert (Hk2 : shape_keys o2 = Some (c :: r))
        by (apply Hsome; discriminate).
      assert (Hedit2 : in_edit_mode o2 = false)
        by (unfold in_edit_mode in *; now rewrite Hm).
      destruct (IH o2 (c :: r) (d + 1) Hedit2 Hk2 Hperm')
        as (o' & Hrun & Hkl' & Ht' & Hm' & Hv').
      exists o'. rewrite Hrun. split; [f_equal; f_equal; simpl; lia|].
      rewrite Hnot. repeat split; congruence.
Qed.

(** What one deletion sweep does, for every collection. *)
Lemma delete_old_spec (o : Object) (kbs : list ShapeKey) :
  mesh_in_mode o = true ->
  shape_keys o = Some kbs ->
  exists o',
    delete_old_shapekeys (Some o)
    = Ok (Some (List.length (filter is_old kbs)), Some o')
    /\ key_list o' = filter not_old kbs
    /\ type o' = type o /\ mode o' = mode o
    /\ vertex_groups o' = vertex_groups o.
Proof.
  intros Hp Hk.
  destruct (mesh_in_mode_inv o Hp) as (_ & _ & Ha & _ & Hedit).
  unfold delete_old_shapekeys, data_shape_keys. rewrite Ha, Hk.
  destruct (delete_loop_spec (rev (old_names kbs)) o kbs 0 Hedit Hk)
    as (o' & Hrun & Hrest).
  { unfold old_names. symmetry. apply Permutation_rev. }
  exists o'. unfold on_object. unfold bind. rewrite Hrun.
  unfold old_names, names. rewrite length_rev, length_map. simpl.
  split; [reflexivity | exact Hrest].
Qed.

(** A sweep over a collection without disposable entries changes
    nothing. *)
Lemma delete_old_nothing (o : Object) (kbs : list ShapeKey) :
  has_shape_keys_attr o = true ->
  shape_keys o = Some kbs ->
  filter is_old kbs = [] ->
  delete_old_shapekeys (Some o) = Ok (Some 0, Some o).
Proof.
  intros Ha Hk Hnone. unfold delete_old_shapekeys, data_shape_keys, old_names.
  rewrite Ha, Hk, Hnone. reflexivity.
Qed.

Lemma mesh_in_mode_same (o o' : Object) :
  type o' = type o -> mode o' = mode o ->
  mesh_in_mode o' = mesh_in_mode o.
Proof.
  unfold mesh_in_mode, correct_mode. now intros -> ->.
Qed.

(** C6. On a mesh object in Object or Sculpt mode,
    [delete_old_shapekeys] removes exactly the entries whose name ends
    with ['.old'] and returns how many they were: none is left afterwards
    (a base entry that carries the suffix is removed as well), and a
    second invocation right after deletes nothing, returning 0, or the
    sentinel [None] when the first one emptied the collection. Without a
    collection the function returns [None], which is not 0. *)
Theorem delete_old_shapekeys_removes_all (o : Object) :
  mesh_in_mode o = true ->
  (forall kbs,
      shape_keys o = Some kbs ->
      exists o1,
        delete_old_shapekeys (Some o)
        = Ok (Some (List.length (filter is_old kbs)), Some o1)
        /\ key_list o1 = filter not_old kbs
        /\ List.length kbs
           = List.length (key_list o1) + List.length (filter is_old kbs)
        /\ (forall kb, In kb (key_list o1) -> is_old kb = false)
        /\ exists r2,
             delete_old_shapekeys (Some o1) = Ok (r2, Some o1)
             /\ (r2 = Some 0 \/ (r2 = None /\ shape_keys o1 = None)))
  /\ (shape_keys o = None ->
      delete_old_shapekeys (Some o) = Ok (None, Some o))
  /\ delete_old_shapekeys None = Ok (None, None)
  /\ (None : option nat) <> Some 0.
Proof.
  intros Hp. destruct (mesh_in_mode_inv o Hp) as (_ & _ & Ha & _ & _).
  split; [|split; [|split]].
  - intros kbs Hk.
    destruct (delete_old_spec o kbs Hp Hk)
      as (o1 & Hrun & Hkl & Ht1 & Hm1 & _).
    assert (Ha1 : has_shape_keys_attr o1 = true)
      by (unfold has_shape_keys_attr in *; now rewrite Ht1).
    exists o1. split; [exact Hrun|]. split; [exact Hkl|]. split.
    { rewrite Hkl. unfold not_old. rewrite <- (filter_length is_old kbs).
      lia. }
    split.
    { intros kb Hin. rewrite Hkl in Hin. apply filter_In in Hin.
      destruct Hin as [_ Hn]. unfold not_old in Hn.
      now destruct (is_old kb). }
    destruct (shape_keys o1) as [l|] eqn:E.
    + exists (Some 0). split; [|now left].
      apply (delete_old_nothing o1 l Ha1 E).
      unfold key_list in Hkl. rewrite E in Hkl. subst l.
      apply filter_negb_filter.
    + exists None. split; [|now right].
      unfold delete_old_shapekeys, data_shape_keys. now rewrite Ha1, E.
  - intros Hk. unfold delete_old_shapekeys, data_shape_keys.
    now rewrite Ha, Hk.
  - reflexivity.
  - discriminate.
Qed.

Lemma delete_old_shapekeys_removes_all_witness :
  exists o1,
    delete_old_shapekeys (Some sample_cleanup) = Ok (Some 2, Some o1)
    /\ key_list o1 = [plain 1 "Basis"; plain 3 "B"].
Proof.
  destruct (delete_old_shapekeys_removes_all sample_cleanup eq_refl)
    as [H _].
  destruct (H _ eq_refl) as (o1 & Hrun & Hkl & _).
  exists o1. split; [exact Hrun | exact Hkl].
Defined.

(** C3 (amended). For every mesh object in Object or Sculpt mode with a
    shapekey collection, [move_old_shapekeys_to_bottom] never relocates
    the entry at position 0, even when its name ends with ['.old'], and
    [delete_old_shapekeys] leaves the entry at position 0 in place
    whenever its name does not end with ['.old']: after the sweep the
    same entry is at position 0. *)
Theorem base_entry_stays_first (o : Object) (x : ShapeKey)
  (l : list ShapeKey) :
  mesh_in_mode o = true ->
  shape_keys o = Some (x :: l) ->
  (forall fuel,
      S (List.length l) <= fuel ->
      exists r o',
        move_old_shapekeys_to_bottom fuel (Some o) = Ok (r, Some o')
        /\ nth_error (key_list o') 0 = Some x)
  /\ (is_old x = false ->
      exists r o',
        delete_old_shapekeys (Some o) = Ok (r, Some o')
        /\ nth_error (key_list o') 0 = Some x).
Proof.
  intros Hp Hk. split.
  - intros fuel Hf.
    destruct (move_old_spec o _ fuel Hp Hk Hf) as (o' & Hrun & Hk' & _).
    eexists _, o'. split; [exact Hrun|].
    unfold key_list. rewrite Hk'. reflexivity.
  - intros Hx.
    destruct (delete_old_spec o _ Hp Hk) as (o' & Hrun & Hkl & _).
    eexists _, o'. split; [exact Hrun|].
    rewrite Hkl. simpl. unfold not_old at 1. rewrite Hx. reflexivity.
Qed.

Lemma base_entry_stays_first_witness :
  (exists r o',
      move_old_shapekeys_to_bottom 2 (Some sample_old_base) = Ok (r, Some o')
      /\ nth_error (key_list o') 0 = Some (plain 1 "Basis.old"))
  /\ (exists r o',
        delete_old_shapekeys (Some sample_cleanup) = Ok (r, Some o')
        /\ nth_error (key_list o') 0 = Some (plain 1 "Basis")).
Proof.
  split.
  - destruct (base_entry_stays_first sample_old_base _ _ eq_refl eq_refl)
      as [H _].
    exact (H 2 (le_n 2)).
  - destruct (base_entry_stays_first sample_cleanup _ _ eq_refl eq_refl)
      as [_ H].
    exact (H eq_refl).
Defined.

(** C3 as stated fails for the deletion sweep: on [Basis.old, A] the
    entry of position 0 is removed and [A] takes its place. *)
Lemma delete_old_removes_old_base :
  ~ (forall r o',
       delete_old_shapekeys (Some sample_old_base) = Ok (r, Some o') ->
       nth_error (key_list o') 0 = nth_error (key_list sample_old_base) 0).
Proof.
  intros H.
  specialize (H (Some 1) (mesh [plain 2 "A"] 1) eq_refl).
  discriminate.
Qed.

(** ** get_missing_shapekeys *)

Lemma filter_all_true {A : Type} (p : A -> bool) (l : list A) :
  (forall x, In x l -> p x = true) -> filter p l = l.
Proof.
  induction l as [|x l IH]; simpl; intros H; [reflexivity|].
  rewrite (H x (or_introl eq_refl)), IH; auto.
Qed.

Lemma get_missing_by_filter (obj : option Object) (expected : list string) :
  (forall o, obj = Some o -> has_shape_keys_attr o = true) ->
  get_missing_shapekeys obj expected
  = Ok (filter (fun n => negb (mem n (present_names obj))) expected, obj).
Proof.
  intros Hattr.
  unfold get_missing_shapekeys, data_shape_keys, present_names, key_list.
  destruct obj as [o|].
  - rewrite (Hattr o eq_refl). destruct (shape_keys o); f_equal; f_equal;
      try reflexivity; symmetry; now apply filter_all_true.
  - f_equal. f_equal. symmetry. now apply filter_all_true.
Qed.



(** ** split_shapekey_by_groups: failed preconditions *)

Lemma vertex_groups_get_absent (o : Object) (n : string) :
  ~ In n (vertex_groups o) -> vertex_groups_get o n = None.
Proof.
  unfold vertex_groups_get. induction (vertex_groups o) as [|g l IH]; simpl.
  - reflexivity.
  - intros H. destruct (String.eqb_spec n g) as [->|_].
    + exfalso. apply H. now left.
    + apply IH. intros Hin. apply H. now right.
Qed.

Lemma vertex_groups_get_present (o : Object) (n : string) :
  In n (vertex_groups o) -> vertex_groups_get o n = Some n.
Proof.
  unfold vertex_groups_get. induction (vertex_groups o) as [|g l IH]; simpl.
  - contradiction.
  - intros H. destruct (String.eqb_spec n g) as [->|Hne]; [reflexivity|].
    destruct H as [->|H]; [congruence | now apply IH].
Qed.

(** C9. When a precondition of [split_shapekey_by_groups] does not hold
    (no object, or a mesh object with no shapekey collection, no active
    shapekey, or one of the two vertex groups absent), the function
    returns [None] without raising and leaves the object as it was. *)
Theorem split_shapekey_by_groups_refuses (obj : option Object)
  (group_a_name group_b_name : string) :
  (forall o, obj = Some o -> type o = "MESH") ->
  (obj = None
   \/ exists o,
        obj = Some o
        /\ (shape_keys o = None
            \/ active_shape_key o = None
            \/ ~ In group_a_name (vertex_groups o)
            \/ ~ In group_b_name (vertex_groups o))) ->
  split_shapekey_by_groups obj group_a_name group_b_name = Ok (None, obj).
Proof.
  intros Hmesh [->|(o & -> & H)]; [reflexivity|].
  destruct (mesh_has_attr o (Hmesh o eq_refl)) as (Hattr & _).
  unfold split_shapekey_by_groups, data_shape_keys. rewrite Hattr.
  destruct (shape_keys o) as [kbs|] eqn:Hk; [|reflexivity].
  destruct (active_shape_key o) as [sk|] eqn:Ha; [|reflexivity].
  destruct H as [H|[H|[H|H]]]; try discriminate.
  - now rewrite (vertex_groups_get_absent o _ H).
  - rewrite (vertex_groups_get_absent o _ H).
    now destruct (vertex_groups_get o group_a_name).
Qed.

Lemma split_shapekey_by_groups_refuses_witness :
  split_shapekey_by_groups (Some sample_cleanup) "L" "Missing"
  = Ok (None, Some sample_cleanup).
Proof.
  apply split_shapekey_by_groups_refuses.
  { intros o Ho. injection Ho as <-. reflexivity. }
  right. exists sample_cleanup. split; [reflexivity|].
  right. right. right. simpl.
  intros [H|[H|H]]; [discriminate H | discriminate H | exact H].
Defined.

(** ** The cleanup operators *)

Lemma poll_gives_collection (obj : Object) :
  String.eqb (type obj) "MESH"
  && truthy (shape_keys obj)
  && (String.eqb (mode obj) "OBJECT" || String.eqb (mode obj) "SCULPT")
  = true ->
  mesh_in_mode obj = true /\ exists kbs, shape_keys obj = Some kbs.
Proof.
  intros H. apply andb_prop in H. destruct H as (H & Hm).
  apply andb_prop in H. destruct H as (Ht & Hk).
  split.
  - unfold mesh_in_mode, correct_mode. now rewrite Ht, Hm.
  - destruct (shape_keys obj) as [kbs|]; [now exists kbs | discriminate].
Qed.

(** C10. Whenever the poll of the move-old operator (of the delete-old
    operator) holds, the utility it calls returns an integer, never
    [None]; [execute] then compares integers and finishes, and its
    [None] branch is not taken. *)
Theorem cleanup_utilities_return_int (context : Context) :
  (PU_OT_move_old_shapekeys_poll context = true ->
   exists obj kbs,
     active_object context = Some obj
     /\ shape_keys obj = Some kbs
     /\ forall fuel,
          List.length kbs <= fuel ->
          exists moved obj' out,
            move_old_shapekeys_to_bottom fuel (Some obj)
            = Ok (Some moved, Some obj')
            /\ PU_OT_move_old_shapekeys_execute fuel context
               = Ok (out, mkContext (Some obj') (scene context))
            /\ status out = FINISHED)
  /\ (PU_OT_delete_old_shapekeys_poll context = true ->
      exists obj deleted obj' out,
        active_object context = Some obj
        /\ delete_old_shapekeys (Some obj) = Ok (Some deleted, Some obj')
        /\ PU_OT_delete_old_shapekeys_execute context
           = Ok (out, mkContext (Some obj') (scene context))
        /\ status out = FINISHED).
Proof.
  split.
  - unfold PU_OT_move_old_shapekeys_poll. intros Hpoll.
    destruct (active_object context) as [obj|] eqn:Hobj; [|discriminate].
    destruct (poll_gives_collection obj Hpoll) as (Hp & kbs & Hk).
    exists obj, kbs. split; [reflexivity|]. split; [exact Hk|].
    intros fuel Hf.
    destruct (move_old_spec obj kbs fuel Hp Hk Hf) as (obj' & Hrun & _).
    eexists _, obj', _. split; [exact Hrun|].
    unfold PU_OT_move_old_shapekeys_execute. rewrite Hobj, Hrun.
    split; reflexivity.
  - unfold PU_OT_delete_old_shapekeys_poll. intros Hpoll.
    destruct (active_object context) as [obj|] eqn:Hobj; [|discriminate].
    destruct (poll_gives_collection obj Hpoll) as (Hp & kbs & Hk).
    destruct (delete_old_spec obj kbs Hp Hk) as (obj' & Hrun & _).
    eexists obj, _, obj', _. split; [reflexivity|]. split; [exact Hrun|].
    unfold PU_OT_delete_old_shapekeys_execute. rewrite Hobj, Hrun.
    split; reflexivity.
Qed.

Lemma cleanup_utilities_return_int_witness :
  (exists moved obj',
      move_old_shapekeys_to_bottom 4 (Some sample_cleanup)
      = Ok (Some moved, Some obj'))
  /\ (exists deleted obj',
        delete_old_shapekeys (Some sample_cleanup)
        = Ok (Some deleted, Some obj')).
Proof.
  destruct (cleanup_utilities_return_int (sample_context sample_cleanup))
    as [Hmove Hdelete].
  split.
  - destruct (Hmove eq_refl) as (obj & kbs & Hobj & Hk & Hrun).
    injection Hobj as <-. injection Hk as <-.
    destruct (Hrun 4 (le_n 4)) as (moved & obj' & out & H & _).
    exists moved, obj'. exact H.
  - destruct (Hdelete eq_refl)
      as (obj & deleted & obj' & out & Hobj & Hrun & _).
    injection Hobj as <-. exists deleted, obj'. exact Hrun.
Defined.

(** ** The create-missing operator *)

Lemma ptr_below_fresh (B : list ShapeKey) (b : ShapeKey) :
  In b B -> sk_ptr b < fresh_ptr B.
Proof.
  intros Hin. unfold fresh_ptr.
  assert (H : Forall (fun k => k <= list_max (map sk_ptr B)) (map sk_ptr B))
    by (apply list_max_le; lia).
  rewrite Forall_forall in H. specialize (H (sk_ptr b) (in_map _ _ _ Hin)).
  lia.
Qed.

(** A write through the reference of an entry just added touches that
    entry alone. *)
Lemma update_ptr_fresh (B : list ShapeKey) (nb : ShapeKey)
  (f : ShapeKey -> ShapeKey) :
  sk_ptr nb = fresh_ptr B ->
  update_ptr (fresh_ptr B) f (B ++ [nb]) = B ++ [f nb].
Proof.
  intros Hp. unfold update_ptr. rewrite map_app. simpl.
  rewrite Hp, Nat.eqb_refl. f_equal.
  rewrite <- (map_id B) at 2. apply map_ext_in. intros b Hin.
  pose proof (ptr_below_fresh B b Hin) as Hlt.
  destruct (Nat.eqb_spec (sk_ptr b) (fresh_ptr B)); [lia | reflexivity].
Qed.


(** The creation loop on a target whose collection is [B]: each entry
    added gets its name from the host and its weight from the
    assignment that follows. *)
Lemma create_loop_spec (missing : list PawlygonMissingItem.t) :
  forall (o : Object) (B : list ShapeKey) (c : nat),
    supports_shapes o = true ->
    shape_keys o = Some B ->
    exists news,
      for_each missing
        (fun item created =>
           absent <- not_in_key_blocks (PawlygonMissingItem.name item) ;;
           if absent then
             sk <- shape_key_add (PawlygonMissingItem.name item) false ;;
             set_value sk 0%Q ;;;
             ret (created + 1)
           else ret created)
        c o
      = Ok (c + List.length news,
            with_keys o (Some (B ++ news)) (shapenr o))
      /\ names news
         = names_created (names B) (map PawlygonMissingItem.name missing)
      /\ Forall (fun kb => value kb = 0%Q /\ vertex_group kb = "") news.
Proof.
  induction missing as [|it missing IH]; intros o B c Hs Hk.
  - exists []. simpl. unfold ret.
    rewrite Nat.add_0_r, app_nil_r, with_keys_same; auto.
  - cbn [for_each map names_created].
    set (n := PawlygonMissingItem.name it).
    destruct (mem n (names B)) eqn:Hmem.
    + assert (Hstep :
        (absent <- not_in_key_blocks n ;;
         if absent then
           sk <- shape_key_add n false ;; set_value sk 0%Q ;;; ret (c + 1)
         else ret c) o = Ok (c, o)).
      { unfold bind at 1. unfold not_in_key_blocks. rewrite Hk.
        now rewrite Hmem. }
      rewrite (bind_Ok _ _ _ _ _ Hstep).
      destruct (IH o B c Hs Hk) as (news & Hrun & Hrest).
      exists news. split; [exact Hrun | exact Hrest].
    + set (nb1 := new_keyblock B n).
      set (nb := set_kb_value 0%Q nb1).
      set (o1 := with_keys o (Some (B ++ [nb])) (shapenr o)).
      assert (Hstep :
        (absent <- not_in_key_blocks n ;;
         if absent then
           sk <- shape_key_add n false ;; set_value sk 0%Q ;;; ret (c + 1)
         else ret c) o = Ok (c + 1, o1)).
      { unfold bind at 1. unfold not_in_key_blocks. rewrite Hk, Hmem.
        cbn [negb].
        unfold bind at 1. unfold shape_key_add at 1. rewrite Hs, Hk.
        fold nb1.
        unfold bind at 1. unfold set_value, on_key_blocks.
        cbn [shape_keys with_keys shapenr].
        change (sk_ptr nb1) with (fresh_ptr B).
        rewrite (update_ptr_fresh B nb1 (set_kb_value 0%Q) eq_refl).
        reflexivity. }
      rewrite (bind_Ok _ _ _ _ _ Hstep).
      destruct (IH o1 (B ++ [nb]) (c + 1) Hs eq_refl)
        as (news & Hrun & Hn & Hv).
      exists (nb :: news). rewrite Hrun. split; [|split].
      * unfold o1. rewrite with_keys_twice. simpl. rewrite <- app_assoc.
        simpl. f_equal. f_equal. lia.
      * change (names (nb :: news))
          with (unique_name (names B) n :: names news).
        rewrite Hn. unfold names. rewrite map_app. reflexivity.
      * constructor; [split; reflexivity | exact Hv].
Qed.

Lemma create_missing_steps_spec (missing : list PawlygonMissingItem.t)
  (target : Object) :
  type target = "MESH" ->
  exists news,
    create_missing_steps missing target
    = Ok (List.length news,
          with_keys target (Some (base_ensured target ++ news))
            (base_ensured_nr target))
    /\ names news
       = names_created (names (base_ensured target))
           (map PawlygonMissingItem.name missing)
    /\ Forall (fun kb => value kb = 0%Q /\ vertex_group kb = "") news.
Proof.
  intros Ht. destruct (mesh_has_attr target Ht) as (Ha & Hs).
  unfold create_missing_steps, data_shape_keys, base_ensured,
    base_ensured_nr.
  rewrite Ha. destruct (shape_keys target) as [B|] eqn:Hk.
  - unfold bind at 1. unfold ret at 1.
    destruct (create_loop_spec missing target B 0 Hs Hk)
      as (news & Hrun & H).
    exists news. rewrite Hrun. split; [reflexivity | exact H].
  - unfold bind at 1. unfold bind at 1. unfold shape_key_add at 1.
    rewrite Hs, Hk. unfold ret at 1.
    set (o1 := with_keys target (Some [new_keyblock [] "Basis"]) 1).
    destruct (create_loop_spec missing o1 [mkShapeKey 1 "Basis" 1%Q ""] 0
                Hs eq_refl)
      as (news & Hrun & H).
    exists news. rewrite Hrun. split; [reflexivity | exact H].
Qed.

(** With names that fit the name field the loop creates the stored
    names themselves. *)
Lemma names_created_fitting (missing : list string) :
  forall present : list string,
    Forall (fun n => fits n = true) missing ->
    names_created present missing = names_to_create present missing.
Proof.
  induction missing as [|n missing IH]; intros present Hf; [reflexivity|].
  inversion Hf as [|? ? Hn Hr]; subst. simpl.
  destruct (in_dec string_dec n present) as [Hin|Hin].
  - apply mem_In in Hin. rewrite Hin. now apply IH.
  - pose proof Hin as Hmem. apply mem_not_In in Hmem. rewrite Hmem.
    rewrite (unique_name_free present n Hn Hin). f_equal. now apply IH.
Qed.

(** Whatever the stored names, the names created are new and distinct. *)
Lemma names_created_NoDup (missing : list string) :
  forall present : list string,
    NoDup present -> NoDup (present ++ names_created present missing).
Proof.
  induction missing as [|m missing IH]; intros present Hnd; simpl.
  - now rewrite app_nil_r.
  - destruct (mem m present); [now apply IH|].
    replace (present ++ unique_name present m
             :: names_created (present ++ [unique_name present m]) missing)
      with ((present ++ [unique_name present m])
            ++ names_created (present ++ [unique_name present m]) missing)
      by (now rewrite <- app_assoc).
    apply IH. apply (Permutation_NoDup (Permutation_cons_append _ _)).
    constructor; [apply unique_name_fresh | exact Hnd].
Qed.






(** ** split_shapekey_by_groups *)

Lemma variant_refl (K : list ShapeKey) : variant K K.
Proof. induction K; constructor; [split; reflexivity | assumption]. Qed.

Lemma variant_trans (K1 K2 K3 : list ShapeKey) :
  variant K1 K2 -> variant K2 K3 -> variant K1 K3.
Proof.
  intros H12. revert K3. induction H12 as [|a b K1 K2 [Hp Hn] _ IH];
    intros K3 H23; inversion H23 as [|? c ? K3' [Hp' Hn'] Hrest]; subst.
  - constructor.
  - constructor; [split; congruence | now apply IH].
Qed.

Lemma variant_map (h : ShapeKey -> ShapeKey) (K : list ShapeKey) :
  (forall kb, same_id kb (h kb)) -> variant K (map h K).
Proof. intros H. induction K; simpl; constructor; auto. Qed.

Lemma variant_update_ptr (p : nat) (f : ShapeKey -> ShapeKey)
  (K : list ShapeKey) :
  (forall kb, same_id kb (f kb)) -> variant K (update_ptr p f K).
Proof.
  intros H. apply variant_map. intros kb.
  destruct (sk_ptr kb =? p); [apply H | split; reflexivity].
Qed.

Lemma variant_names (K K' : list ShapeKey) :
  variant K K' -> names K' = names K.
Proof.
  induction 1 as [|a b K K' [_ Hn] _ IH]; simpl; [reflexivity|].
  now rewrite Hn, IH.
Qed.

Lemma variant_ptrs (K K' : list ShapeKey) :
  variant K K' -> map sk_ptr K' = map sk_ptr K.
Proof.
  induction 1 as [|a b K K' [Hp _] _ IH]; simpl; [reflexivity|].
  now rewrite Hp, IH.
Qed.

Lemma variant_length (K K' : list ShapeKey) :
  variant K K' -> List.length K' = List.length K.
Proof. intros H. symmetry. exact (Forall2_length H). Qed.

Lemma variant_fresh_ptr (K K' : list ShapeKey) :
  variant K K' -> fresh_ptr K' = fresh_ptr K.
Proof. intros H. unfold fresh_ptr. now rewrite (variant_ptrs K K' H). Qed.

Lemma variant_app (K1 K2 K1' K2' : list ShapeKey) :
  variant K1 K1' -> variant K2 K2' -> variant (K1 ++ K2) (K1' ++ K2').
Proof. apply Forall2_app. Qed.

(** A variant of a collection cut in four is cut the same way. *)
Lemma variant_split (P S1 S2 K' : list ShapeKey) (X : ShapeKey) :
  variant (P ++ X :: S1 ++ S2) K' ->
  exists P' X' S1' S2',
    K' = P' ++ X' :: S1' ++ S2'
    /\ variant P P' /\ same_id X X' /\ variant S1 S1' /\ variant S2 S2'.
Proof.
  intros H. apply Forall2_app_inv_l in H.
  destruct H as (P' & R' & HP & HR & ->).
  inversion HR as [|? X' ? R'' HX HR']; subst.
  apply Forall2_app_inv_l in HR'.
  destruct HR' as (S1' & S2' & H1 & H2 & ->).
  exists P', X', S1', S2'. auto.
Qed.

Lemma index_of_at (P R : list ShapeKey) (X : ShapeKey) :
  ~ In (name X) (names P) ->
  index_of (name X) (names (P ++ X :: R)) = Some (List.length P).
Proof.
  induction P as [|b P IH]; simpl; intros H.
  - now rewrite String.eqb_refl.
  - destruct (String.eqb_spec (name b) (name X)) as [E|_].
    + exfalso. apply H. now left.
    + rewrite IH; [reflexivity|]. intros Hin. apply H. now right.
Qed.

(** [List.length mid] steps up carry the active entry over [mid]. *)
Lemma repeat_move_up_spec (mid : list ShapeKey) :
  forall (p s : list ShapeKey) (z : ShapeKey) (o : Object),
    in_edit_mode o = false ->
    shape_keys o = Some (p ++ mid ++ z :: s) ->
    shapenr o = S (List.length p + List.length mid) ->
    repeat_m (List.length mid) (shape_key_move UP) o
    = Ok (tt, with_keys o (Some (p ++ z :: mid ++ s)) (S (List.length p))).
Proof.
  induction mid as [|y mid IH] using rev_ind; intros p s z o Hm Hk Hn.
  - simpl in *. unfold ret. rewrite with_keys_same; auto.
    rewrite Hn. f_equal. lia.
  - rewrite length_app, Nat.add_1_r in *. cbn [repeat_m].
    assert (Hk' : shape_keys o = Some ((p ++ mid) ++ y :: z :: s))
      by (rewrite Hk, <- !app_assoc; reflexivity).
    assert (Hn' : shapenr o = S (S (List.length (p ++ mid))))
      by (rewrite Hn, length_app; f_equal; lia).
    rewrite (bind_Ok _ _ _ _ _
               (shape_key_move_up_step o (p ++ mid) s z y Hm Hk' Hn')).
    rewrite (IH p (y :: s) z).
    + rewrite with_keys_twice, <- !app_assoc. reflexivity.
    + exact Hm.
    + simpl. now rewrite <- app_assoc.
    + simpl. now rewrite length_app.
Qed.

Lemma shape_key_clear_variant (o : Object) (K : list ShapeKey) :
  shape_keys o = Some K ->
  exists K',
    shape_key_clear o = Ok (tt, with_keys o (Some K') (shapenr o))
    /\ variant K K'.
Proof.
  intros Hk. unfold shape_key_clear. rewrite Hk.
  destruct (active_shape_key o).
  - eexists. split; [reflexivity|]. apply variant_map.
    intros kb. split; reflexivity.
  - exists K. split; [|apply variant_refl].
    now rewrite with_keys_same.
Qed.

Lemma filter_others (B : list ShapeKey) (nb : ShapeKey) :
  sk_ptr nb = fresh_ptr B ->
  filter (fun kb => negb (sk_ptr kb =? fresh_ptr B)) (B ++ [nb]) = B.
Proof.
  intros Hp. rewrite filter_app. simpl. rewrite Hp, Nat.eqb_refl. simpl.
  rewrite app_nil_r. apply filter_all_true. intros b Hin.
  pose proof (ptr_below_fresh B b Hin) as Hlt.
  destruct (Nat.eqb_spec (sk_ptr b) (fresh_ptr B)); [lia | reflexivity].
Qed.

(** The host appends a new entry and the code renames it to a free name:
    the entry ends up last, active, under the requested name. *)
Lemma add_and_rename (o : Object) (K : list ShapeKey) (nr : nat)
  (n : string) :
  in_edit_mode o = false ->
  fits n = true ->
  ~ In n (names K) ->
  (op_shape_key_add true ;;; set_active_shape_key_name n)
    (with_keys o (Some K) nr)
  = Ok (tt, with_keys o (Some (K ++ [mkShapeKey (fresh_ptr K) n 1%Q ""]))
              (S (List.length K))).
Proof.
  intros Hm Hfit Hfree. unfold bind, op_shape_key_add.
  change (in_edit_mode (with_keys o (Some K) nr)) with (in_edit_mode o).
  rewrite Hm.
  cbn [shape_keys with_keys shapenr].
  unfold set_active_shape_key_name, active_shape_key.
  cbn [shape_keys with_keys shapenr].
  rewrite nth_error_length_app. unfold set_name, on_key_blocks.
  cbn [shape_keys with_keys shapenr].
  set (nb := new_keyblock K (default_name K)).
  assert (Hp : sk_ptr nb = fresh_ptr K) by reflexivity.
  rewrite Hp, (filter_others K nb Hp), (update_ptr_fresh K nb _ Hp).
  rewrite (unique_name_free _ _ Hfit Hfree). reflexivity.
Qed.

(** One round of the loop: the entries keep identity, name and order, and
    the new entry stands [List.length S2] places before the end. *)
Lemma split_one_spec (o : Object) (P S1 S2 : list ShapeKey) (X : ShapeKey)
  (shape_key : ShapeKey) (g : string) (acc : list string) :
  in_edit_mode o = false ->
  shape_keys o = Some (P ++ X :: S1 ++ S2) ->
  ~ In (name X) (names P) ->
  fits (name X ++ g) = true ->
  ~ In (name X ++ g)%string (names (P ++ X :: S1 ++ S2)) ->
  exists P' X' S1' S2' nw nr,
    split_one shape_key (name X) (List.length S2) (g, g) acc o
    = Ok (acc ++ [(name X ++ g)%string],
          with_keys o (Some (P' ++ X' :: S1' ++ nw :: S2')) nr)
    /\ variant P P' /\ same_id X X' /\ variant S1 S1' /\ variant S2 S2'
    /\ name nw = (name X ++ g)%string
    /\ sk_ptr nw = fresh_ptr (P ++ X :: S1 ++ S2).
Proof.
  intros Hm Hk HN Hfit Hfree. set (K0 := P ++ X :: S1 ++ S2) in *.
  unfold split_one.
  destruct (shape_key_clear_variant o K0 Hk) as (K1 & Hclear & V1).
  rewrite (bind_Ok _ _ _ _ _ Hclear).
  assert (Hidx : index_of (name X) (names K1) = Some (List.length P)).
  { rewrite (variant_names _ _ V1). unfold K0. now apply index_of_at. }
  run_host keys_index. rewrite Hidx.
  run_host set_active_shape_key_index.
  run_host set_vertex_group.
  run_host set_value.
  set (K2 := update_ptr (sk_ptr shape_key) (set_kb_vertex_group g) K1).
  set (K3 := update_ptr (sk_ptr shape_key) (set_kb_value 1%Q) K2).
  assert (V3 : variant K0 K3).
  { apply (variant_trans _ K1); [exact V1|].
    apply (variant_trans _ K2); apply variant_update_ptr;
      intros kb; split; reflexivity. }
  assert (Hfree3 : ~ In (name X ++ g)%string (names K3))
    by (now rewrite (variant_names _ _ V3)).
  rewrite !with_keys_twice.
  match goal with
  | |- context [bind (op_shape_key_add true) ?k ?st] =>
      replace (bind (op_shape_key_add true) k st)
        with (bind (op_shape_key_add true ;;;
                    set_active_shape_key_name (name X ++ g)%string)
                (fun _ => repeat_m (List.length S2) (shape_key_move UP) ;;;
                          ret (acc ++ [(name X ++ g)%string])) st)
        by apply bind_assoc
  end.
  rewrite (bind_Ok _ _ _ _ _ (add_and_rename o K3 _ _ Hm Hfit Hfree3)).
  destruct (variant_split P S1 S2 K3 X V3)
    as (P' & X' & S1' & S2' & E3 & VP & VX & VS1 & VS2).
  set (nw := mkShapeKey (fresh_ptr K3) (name X ++ g)%string 1%Q "").
  exists P', X', S1', S2', nw. eexists.
  rewrite <- (variant_length _ _ VS2).
  erewrite (bind_Ok (repeat_m _ _)).
  2:{ apply (repeat_move_up_spec S2' (P' ++ X' :: S1') [] nw);
        cbn [shape_keys with_keys shapenr].
      - exact Hm.
      - rewrite E3, <- !app_assoc. simpl. now rewrite <- !app_assoc.
      - rewrite E3. f_equal. rewrite !length_app. simpl.
        rewrite !length_app. lia. }
  unfold ret. rewrite with_keys_twice, app_nil_r, <- app_assoc. simpl.
  split; [reflexivity|]. repeat split; try assumption; try apply VX.
  unfold nw. simpl. apply (variant_fresh_ptr _ _ V3).
Qed.

Lemma update_ptr_at (p : nat) (f : ShapeKey -> ShapeKey)
  (P R : list ShapeKey) (X : ShapeKey) :
  sk_ptr X = p ->
  update_ptr p f (P ++ X :: R) = update_ptr p f P ++ f X :: update_ptr p f R.
Proof.
  intros Hp. unfold update_ptr. rewrite map_app. simpl.
  now rewrite Hp, Nat.eqb_refl.
Qed.

(** The end of the split: the original is found where it was, its mask is
    emptied, and nothing has to move. *)
Lemma split_restore_spec (o : Object) (P R : list ShapeKey)
  (X shape_key : ShapeKey) :
  shape_keys o = Some (P ++ X :: R) ->
  ~ In (name X) (names P) ->
  sk_ptr X = sk_ptr shape_key ->
  exists P' X' R',
    split_restore shape_key (name X) (List.length P) o
    = Ok (tt, with_keys o (Some (P' ++ X' :: R')) (S (List.length P)))
    /\ variant P P' /\ same_id X X' /\ variant R R'
    /\ vertex_group X' = "".
Proof.
  intros Hk HN Hp. unfold split_restore.
  destruct (shape_key_clear_variant o _ Hk) as (K1 & Hclear & V1).
  rewrite (bind_Ok _ _ _ _ _ Hclear).
  replace (P ++ X :: R) with (P ++ X :: R ++ []) in V1
    by (now rewrite app_nil_r).
  destruct (variant_split P R [] K1 X V1)
    as (P1 & X1 & R1 & E & -> & VP & VX & VR & VE).
  inversion VE; subst. rewrite app_nil_r.
  assert (Hidx : index_of (name X) (names (P1 ++ X1 :: R1))
                 = Some (List.length P)).
  { destruct VX as [_ HnX]. rewrite HnX, <- (variant_length _ _ VP).
    apply index_of_at. now rewrite <- HnX, (variant_names _ _ VP). }
  run_host keys_index. rewrite Hidx.
  run_host set_active_shape_key_index.
  run_host set_vertex_group.
  rewrite Nat.eqb_refl. cbn [negb]. unfold bind at 1. unfold ret at 1.
  unfold set_active_shape_key_index. cbn [shape_keys with_keys shapenr].
  assert (HpX1 : sk_ptr X1 = sk_ptr shape_key)
    by (destruct VX as [HpX _]; congruence).
  rewrite (update_ptr_at _ _ P1 R1 X1 HpX1).
  eexists _, _, _. split.
  - rewrite !with_keys_twice. reflexivity.
  - split; [|split; [|split]].
    + apply (variant_trans _ P1); [exact VP|].
      apply variant_update_ptr. intros kb. split; reflexivity.
    + destruct VX as [HpX HnX]. split; simpl; assumption.
    + apply (variant_trans _ R1); [exact VR|].
      apply variant_update_ptr. intros kb. split; reflexivity.
    + reflexivity.
Qed.


Lemma fresh_ptr_not_in (K : list ShapeKey) :
  ~ In (fresh_ptr K) (map sk_ptr K).
Proof.
  intros Hin. apply in_map_iff in Hin. destruct Hin as (b & Hb & Hin).
  pose proof (ptr_below_fresh K b Hin). lia.
Qed.

Lemma NoDup_names_head (pre suf : list ShapeKey) (x : ShapeKey) :
  NoDup (names (pre ++ x :: suf)) -> ~ In (name x) (names pre).
Proof.
  unfold names. rewrite map_app. simpl. intros H Hin.
  apply NoDup_remove_2 in H. apply H. apply in_or_app. now left.
Qed.

(** What a successful split does to the object. *)
Lemma split_steps_spec (o : Object) (pre suf : list ShapeKey)
  (x : ShapeKey) (A B : string) :
  in_edit_mode o = false ->
  shape_keys o = Some (pre ++ x :: suf) ->
  shapenr o = S (List.length pre) ->
  ~ In (name x) (names pre) ->
  fits (name x ++ A) = true ->
  fits (name x ++ B) = true ->
  ~ In (name x ++ A)%string (names (pre ++ x :: suf)) ->
  ~ In (name x ++ B)%string (names (pre ++ x :: suf)) ->
  A <> B ->
  exists pre' x' nA nB suf',
    split_steps x A B o
    = Ok (Some ((name x ++ A)%string, (name x ++ B)%string),
          with_keys o (Some (pre' ++ x' :: nA :: nB :: suf'))
            (S (List.length pre)))
    /\ variant pre pre' /\ same_id x x' /\ variant suf suf'
    /\ vertex_group x' = ""
    /\ name nA = (name x ++ A)%string /\ name nB = (name x ++ B)%string
    /\ ~ In (sk_ptr nA) (map sk_ptr (pre ++ x :: suf))
    /\ ~ In (sk_ptr nB) (map sk_ptr (pre ++ x :: suf))
    /\ sk_ptr nA <> sk_ptr nB.
Proof.
  intros Hm Hk Hn HN HtA HtB HfA HfB HAB. unfold split_steps.
  unfold bind at 1. unfold get_active_shape_key_index at 1.
  unfold bind at 1. unfold keys_len at 1. rewrite Hk.
  unfold active_shape_key_index. rewrite Hn.
  replace (List.length (pre ++ x :: suf) - (S (List.length pre) - 1) - 1)
    with (List.length suf) by (rewrite length_app; simpl; lia).
  replace (S (List.length pre) - 1) with (List.length pre) by lia.
  cbn [for_each].
  (* first round *)
  destruct (split_one_spec o pre [] suf x x A [] Hm Hk HN HtA HfA)
    as (P1 & X1 & E1 & S1 & nA & nr1 & Hrun1 & VP1 & VX1 & VE1 & VS1
        & HnA & HpA).
  inversion VE1; subst E1. clear VE1. cbn [app] in Hrun1, HpA.
  unfold bind at 1. unfold bind at 1. rewrite Hrun1.
  (* second round *)
  set (o1 := with_keys o (Some (P1 ++ X1 :: nA :: S1)) nr1).
  assert (HnX1 : name X1 = name x) by (symmetry; apply VX1).
  assert (HN1 : ~ In (name X1) (names P1))
    by (now rewrite HnX1, (variant_names _ _ VP1)).
  assert (V1 : variant (pre ++ x :: suf) (P1 ++ X1 :: S1)).
  { apply variant_app; [exact VP1|]. constructor; assumption. }
  assert (HfB1 : ~ In (name X1 ++ B)%string
                   (names (P1 ++ X1 :: [nA] ++ S1))).
  { rewrite HnX1. intros Hin. unfold names in Hin.
    rewrite map_app in Hin. simpl in Hin.
    apply in_app_or in Hin. destruct Hin as [Hin|[Hin|[Hin|Hin]]].
    - apply HfB. rewrite <- (variant_names _ _ V1). unfold names.
      rewrite map_app. apply in_or_app. now left.
    - apply HfB. rewrite <- (variant_names _ _ V1). unfold names.
      rewrite map_app. apply in_or_app. right. now left.
    - rewrite HnA in Hin. apply string_app_inv_head in Hin. congruence.
    - apply HfB. rewrite <- (variant_names _ _ V1). unfold names.
      rewrite map_app. apply in_or_app. right. now right. }
  assert (HtB1 : fits (name X1 ++ B) = true) by (now rewrite HnX1).
  destruct (split_one_spec o1 P1 [nA] S1 X1 x B [(name x ++ A)%string]
              Hm eq_refl HN1 HtB1 HfB1)
    as (P2 & X2 & E2 & S2 & nB & nr2 & Hrun2 & VP2 & VX2 & VE2 & VS2
        & HnB & HpB).
  inversion VE2 as [|? nA' ? E2' VnA VE2']; subst. inversion VE2'; subst.
  clear VE2 VE2'. rewrite HnX1, (variant_length _ _ VS1) in Hrun2.
  rewrite HnX1 in HnB.
  cbn [app] in Hrun2. fold o1. rewrite (bind_Ok _ _ _ _ _ Hrun2).
  unfold ret at 1. unfold bind at 1.
  (* the original is put back *)
  set (o2 := with_keys o1 (Some (P2 ++ X2 :: nA' :: nB :: S2)) nr2).
  assert (HnX2 : name X2 = name x) by (destruct VX2; congruence).
  assert (HN2 : ~ In (name X2) (names P2))
    by (now rewrite HnX2, (variant_names _ _ VP2), <- HnX1).
  assert (HpX2 : sk_ptr X2 = sk_ptr x)
    by (destruct VX1, VX2; congruence).
  destruct (split_restore_spec o2 P2 (nA' :: nB :: S2) X2 x
              eq_refl HN2 HpX2)
    as (P3 & X3 & R3 & Hrun3 & VP3 & VX3 & VR3 & Hmask).
  inversion VR3 as [|? nA3 ? R3' VnA3 VR3']; subst.
  inversion VR3' as [|? nB3 ? S3 VnB3 VS3]; subst. clear VR3 VR3'.
  rewrite HnX2 in Hrun3.
  replace (List.length P2) with (List.length pre) in Hrun3
    by (now rewrite (variant_length _ _ VP2), (variant_length _ _ VP1)).
  rewrite Hrun3. unfold first_two, ret. unfold o2, o1.
  rewrite !with_keys_twice.
  exists P3, X3, nA3, nB3, S3. split; [reflexivity|].
  assert (HpA3 : sk_ptr nA3 = fresh_ptr (pre ++ x :: suf))
    by (destruct VnA, VnA3; congruence).
  assert (HpB3 : sk_ptr nB3 = fresh_ptr (P1 ++ X1 :: [nA] ++ S1))
    by (destruct VnB3; congruence).
  assert (Hincl : forall p, In p (map sk_ptr (pre ++ x :: suf)) ->
                            In p (map sk_ptr (P1 ++ X1 :: [nA] ++ S1))).
  { intros p Hin. rewrite <- (variant_ptrs _ _ V1) in Hin.
    rewrite map_app in Hin |- *. simpl in Hin |- *.
    apply in_app_or in Hin. apply in_or_app.
    destruct Hin as [Hin|[Hin|Hin]]; [now left | right; now left |].
    right. right. now right. }
  split; [exact (variant_trans _ _ _ (variant_trans _ _ _ VP1 VP2) VP3)|].
  split.
  { destruct VX1, VX2, VX3. split; congruence. }
  split; [exact (variant_trans _ _ _ (variant_trans _ _ _ VS1 VS2) VS3)|].
  split; [exact Hmask|].
  split; [destruct VnA, VnA3; congruence|].
  split; [destruct VnB3; congruence|].
  split; [rewrite HpA3; apply fresh_ptr_not_in|].
  split.
  - rewrite HpB3. intros Hin. apply Hincl in Hin.
    exact (fresh_ptr_not_in _ Hin).
  - rewrite HpA3, HpB3, <- HpA. intros E.
    apply (fresh_ptr_not_in (P1 ++ X1 :: [nA] ++ S1)).
    rewrite <- E, map_app. apply in_or_app. right. right. now left.
Qed.

(** C4 (amended). For every mesh object in Object or Sculpt mode whose
    shapekey names are distinct, with an active shapekey named N at
    position i and two vertex groups A and B present on the object, such
    that N+A and N+B fit the host's name field, are different names and
    neither is already the name of an entry:
    [split_shapekey_by_groups] creates exactly two new entries, named N+A
    and N+B, at positions i+1 and i+2; the other entries keep their
    identity, name and order; the original entry is at position i with an
    empty mask and is the active one; the function returns (N+A, N+B). *)
Theorem split_shapekey_by_groups_splits (o : Object)
  (pre suf : list ShapeKey) (x : ShapeKey) (A B : string) :
  mesh_in_mode o = true ->
  shape_keys o = Some (pre ++ x :: suf) ->
  shapenr o = S (List.length pre) ->
  In A (vertex_groups o) ->
  In B (vertex_groups o) ->
  NoDup (names (pre ++ x :: suf)) ->
  fits (name x ++ A) = true ->
  fits (name x ++ B) = true ->
  ~ In (name x ++ A)%string (names (pre ++ x :: suf)) ->
  ~ In (name x ++ B)%string (names (pre ++ x :: suf)) ->
  A <> B ->
  exists o' kbs' x' nA nB,
    split_shapekey_by_groups (Some o) A B
    = Ok (Some ((name x ++ A)%string, (name x ++ B)%string), Some o')
    /\ shape_keys o' = Some kbs'
    /\ names kbs'
       = names pre
         ++ name x :: (name x ++ A)%string :: (name x ++ B)%string
            :: names suf
    /\ map sk_ptr kbs'
       = map sk_ptr pre ++ sk_ptr x :: sk_ptr nA :: sk_ptr nB
                          :: map sk_ptr suf
    /\ ~ In (sk_ptr nA) (map sk_ptr (pre ++ x :: suf))
    /\ ~ In (sk_ptr nB) (map sk_ptr (pre ++ x :: suf))
    /\ sk_ptr nA <> sk_ptr nB
    /\ nth_error kbs' (List.length pre) = Some x'
    /\ same_id x x' /\ vertex_group x' = ""
    /\ nth_error kbs' (S (List.length pre)) = Some nA
    /\ nth_error kbs' (S (S (List.length pre))) = Some nB
    /\ active_shape_key_index o' = List.length pre
    /\ vertex_groups o' = vertex_groups o.
Proof.
  intros Hp Hk Hn HA HB Hdup HtA HtB HfA HfB HAB.
  destruct (mesh_in_mode_inv o Hp) as (_ & _ & Hattr & _ & Hm).
  pose proof (NoDup_names_head pre suf x Hdup) as HN.
  destruct (split_steps_spec o pre suf x A B Hm Hk Hn HN HtA HtB HfA HfB HAB)
    as (pre' & x' & nA & nB & suf' & Hrun & Vp & Vx & Vs & Hmask & HnA
        & HnB & HpA & HpB & Hne).
  exists (with_keys o (Some (pre' ++ x' :: nA :: nB :: suf'))
            (S (List.length pre))),
    (pre' ++ x' :: nA :: nB :: suf'), x', nA, nB.
  assert (Hlen : List.length pre' = List.length pre)
    by (apply variant_length, Vp).
  split.
  { unfold split_shapekey_by_groups, data_shape_keys, active_shape_key.
    rewrite Hattr, Hk, Hn.
    rewrite nth_error_length_app.
    rewrite (vertex_groups_get_present o A HA).
    rewrite (vertex_groups_get_present o B HB).
    unfold on_object. now rewrite Hrun. }
  split; [reflexivity|]. split.
  { unfold names. rewrite map_app. simpl. fold (names pre') (names suf').
    rewrite (variant_names _ _ Vp), (variant_names _ _ Vs), HnA, HnB.
    destruct Vx as [_ <-]. reflexivity. }
  split.
  { rewrite map_app. simpl.
    rewrite (variant_ptrs _ _ Vp), (variant_ptrs _ _ Vs).
    destruct Vx as [<- _]. reflexivity. }
  split; [exact HpA|]. split; [exact HpB|]. split; [exact Hne|].
  rewrite <- Hlen. split; [apply nth_error_length_app|].
  split; [exact Vx|]. split; [exact Hmask|]. split.
  { replace (S (List.length pre')) with (List.length (pre' ++ [x']))
      by (rewrite length_app; simpl; lia).
    replace (pre' ++ x' :: nA :: nB :: suf')
      with ((pre' ++ [x']) ++ nA :: nB :: suf')
      by (now rewrite <- app_assoc).
    apply nth_error_length_app. }
  split.
  { replace (S (S (List.length pre')))
      with (List.length (pre' ++ [x'; nA]))
      by (rewrite length_app; simpl; lia).
    replace (pre' ++ x' :: nA :: nB :: suf')
      with ((pre' ++ [x'; nA]) ++ nB :: suf')
      by (now rewrite <- app_assoc).
    apply nth_error_length_app. }
  split; [|reflexivity].
  unfold active_shape_key_index. simpl. lia.
Qed.

Lemma split_shapekey_by_groups_splits_witness :
  exists o' kbs',
    split_shapekey_by_groups (Some sample_split) "L" "R"
    = Ok (Some ("SmileL", "SmileR"), Some o')
    /\ shape_keys o' = Some kbs'
    /\ names kbs' = ["Basis"; "Smile"; "SmileL"; "SmileR"; "Frown"].
Proof.
  assert (Hdup : NoDup ["Basis"; "Smile"; "Frown"]).
  { repeat constructor; simpl; intros H;
      repeat (destruct H as [H|H]; [discriminate H|]); exact H. }
  assert (HfA : ~ In "SmileL" ["Basis"; "Smile"; "Frown"]).
  { simpl. intros H.
    repeat (destruct H as [H|H]; [discriminate H|]). exact H. }
  assert (HfB : ~ In "SmileR" ["Basis"; "Smile"; "Frown"]).
  { simpl. intros H.
    repeat (destruct H as [H|H]; [discriminate H|]). exact H. }
  assert (HAB : "L" <> "R") by discriminate.
  destruct (split_shapekey_by_groups_splits sample_split
              [plain 1 "Basis"] [plain 3 "Frown"] (plain 2 "Smile")
              "L" "R" eq_refl eq_refl eq_refl
              (or_introl eq_refl) (or_intror (or_introl eq_refl))
              Hdup eq_refl eq_refl HfA HfB HAB)
    as (o' & kbs' & x' & nA & nB & Hrun & Hk & Hnames & _).
  exists o', kbs'. split; [exact Hrun|]. split; [exact Hk | exact Hnames].
Defined.

Lemma sample_split_again_is_split :
  split_shapekey_by_groups (Some sample_split) "L" "R"
  = Ok (Some ("SmileL", "SmileR"), Some sample_split_again).
Proof. reflexivity. Qed.

(** C4 as stated fails when a requested name is taken, as in a repeated
    split: on [Basis, Smile, SmileL, SmileR, Frown] with [Smile] active,
    splitting by L and R again does not put an entry called [SmileL]
    after [Smile]. The host keeps names distinct and calls the new entry
    [SmileL.001]; the function still returns [SmileL]. *)
Lemma split_taken_name_not_given :
  ~ (exists r o' kbs' nA,
       split_shapekey_by_groups (Some sample_split_again) "L" "R"
       = Ok (r, Some o')
       /\ shape_keys o' = Some kbs'
       /\ nth_error kbs' 2 = Some nA
       /\ name nA = "SmileL").
Proof.
  intros (r & o' & kbs' & nA & Hrun & Hk & Hnth & Hname).
  vm_compute in Hrun. inversion Hrun; subst. clear Hrun.
  vm_compute in Hk. inversion Hk; subst. clear Hk.
  vm_compute in Hnth. inversion Hnth; subst. clear Hnth.
  vm_compute in Hname. discriminate.
Qed.

(** * Further properties of the code *)

(** ** Results of binds *)

Lemma bind_Ok_inv {A B : Type} (m : M A) (k : A -> M B) (o o' : Object)
  (b : B) :
  bind m k o = Ok (b, o') ->
  exists a o1, m o = Ok (a, o1) /\ k a o1 = Ok (b, o').
Proof.
  unfold bind. destruct (m o) as [[a o1]| |]; try discriminate.
  intros H. now exists a, o1.
Qed.

(** ** The move sweep, in full *)

(** The loop with the active number it leaves: untouched when no entry
    carries the suffix, the number of the last entry otherwise. *)
Lemma move_loop_active (l : list ShapeKey) :
  forall (pre : list ShapeKey) (o : Object) (fuel moved : nat),
    in_edit_mode o = false ->
    pre <> [] ->
    shape_keys o = Some (pre ++ l) ->
    List.length (pre ++ l) <= fuel ->
    move_loop fuel (rev (old_indices_from (List.length pre) l)) moved o
    = Ok (moved + List.length (filter is_old l),
          with_keys o
            (Some (pre ++ filter not_old l ++ rev (filter is_old l)))
            (match filter is_old l with
             | [] => shapenr o
             | _ :: _ => List.length (pre ++ l)
             end)).
Proof.
  induction l as [|x l IH]; intros pre o fuel moved Hm Hpre Hk Hf.
  - simpl. unfold move_loop, ret. simpl.
    rewrite Nat.add_0_r, with_keys_same; auto.
  - assert (Hk' : shape_keys o = Some ((pre ++ [x]) ++ l))
      by (now rewrite <- app_assoc).
    assert (Hf' : List.length ((pre ++ [x]) ++ l) <= fuel)
      by (now rewrite <- app_assoc).
    assert (Hpre' : pre ++ [x] <> []) by (destruct pre; discriminate).
    pose proof (IH (pre ++ [x]) o fuel moved Hm Hpre' Hk' Hf') as Hloop.
    replace (List.length (pre ++ [x])) with (S (List.length pre)) in Hloop
      by (rewrite length_app; simpl; lia).
    simpl. unfold not_old at 1. destruct (is_old x) eqn:Eold; simpl.
    + unfold move_loop in *. rewrite for_each_app.
      rewrite (bind_Ok _ _ _ _ _ Hloop). simpl.
      destruct (Nat.eqb_spec (List.length pre) 0) as [E0|_].
      { destruct pre; [congruence|discriminate]. }
      set (mid := filter not_old l ++ rev (filter is_old l)).
      assert (Hlen : List.length (pre ++ x :: l)
                     = List.length (pre ++ x :: mid)).
      { rewrite !length_app. simpl. unfold mid. rewrite length_app, length_rev.
        f_equal. f_equal. unfold not_old.
        rewrite <- (filter_length is_old l). lia. }
      unfold bind at 1. unfold bind at 1. unfold set_active_shape_key_index.
      cbn [shape_keys with_keys shapenr].
      unfold bind at 1. unfold key_blocks_len at 1.
      cbn [shape_keys with_keys shapenr].
      rewrite <- app_assoc. simpl.
      erewrite (bind_Ok (while_below fuel _)).
      2:{ apply (while_below_spec mid pre x); cbn [shape_keys with_keys shapenr].
          - exact Hm.
          - reflexivity.
          - reflexivity.
          - rewrite length_app. simpl. lia.
          - rewrite Hlen in Hf. rewrite length_app in Hf. simpl in Hf. lia. }
      unfold ret. rewrite !with_keys_twice. f_equal. f_equal.
      * lia.
      * f_equal.
        -- unfold mid. rewrite <- !app_assoc. reflexivity.
        -- rewrite Hlen, !length_app. simpl. lia.
    + rewrite Hloop. rewrite <- !app_assoc. reflexivity.
Qed.

(** One sweep, with the state it leaves. *)
Lemma move_old_full (o : Object) (x : ShapeKey) (l : list ShapeKey)
  (fuel : nat) :
  has_shape_keys_attr o = true ->
  in_edit_mode o = false ->
  shape_keys o = Some (x :: l) ->
  S (List.length l) <= fuel ->
  move_old_shapekeys_to_bottom fuel (Some o)
  = Ok (Some (List.length (filter is_old l)),
        Some (with_keys o
                (Some (x :: filter not_old l ++ rev (filter is_old l)))
                (match filter is_old l with
                 | [] => shapenr o
                 | _ :: _ => S (List.length l)
                 end))).
Proof.
  intros Ha Hm Hk Hf. unfold move_old_shapekeys_to_bottom, data_shape_keys.
  rewrite Ha, Hk.
  pose proof (move_loop_active l [x] o fuel 0) as Hloop.
  specialize (Hloop Hm ltac:(discriminate) Hk Hf).
  unfold on_object, old_indices. simpl in Hloop |- *.
  destruct (is_old x).
  - simpl. unfold bind at 1. unfold move_loop in *. rewrite for_each_app.
    rewrite (bind_Ok _ _ _ _ _ Hloop). reflexivity.
  - unfold bind at 1. rewrite Hloop. reflexivity.
Qed.

Lemma filter_partition_length (l : list ShapeKey) :
  List.length l
  = List.length (filter not_old l) + List.length (filter is_old l).
Proof.
  unfold not_old. rewrite <- (filter_length is_old l). lia.
Qed.

Lemma filter_partition_perm (l : list ShapeKey) :
  Permutation l (filter not_old l ++ filter is_old l).
Proof.
  induction l as [|x l IH]; simpl; [constructor|].
  unfold not_old at 1. destruct (is_old x); simpl.
  - apply Permutation_cons_app. exact IH.
  - now constructor.
Qed.

(** X1. On a mesh in Object or Sculpt mode, one sweep leaves the entry
    of position 0 in place, then the entries without the suffix in their
    original order, then the entries with the suffix in the reverse of
    their original order; it returns the number of the latter. *)
Theorem move_old_orders_entries (o : Object) (kbs : list ShapeKey)
  (fuel : nat) :
  mesh_in_mode o = true ->
  shape_keys o = Some kbs ->
  List.length kbs <= fuel ->
  exists o',
    move_old_shapekeys_to_bottom fuel (Some o)
    = Ok (Some (List.length (filter is_old (tl kbs))), Some o')
    /\ key_list o'
       = firstn 1 kbs ++ filter not_old (tl kbs)
         ++ rev (filter is_old (tl kbs)).
Proof.
  intros Hp Hk Hf.
  destruct (move_old_spec o kbs fuel Hp Hk Hf) as (o' & Hrun & Hk' & _).
  exists o'. split; [exact Hrun|]. unfold key_list. now rewrite Hk'.
Qed.

Lemma move_old_orders_entries_witness :
  exists o',
    move_old_shapekeys_to_bottom 4 (Some sample_cleanup)
    = Ok (Some 2, Some o')
    /\ key_list o'
       = [plain 1 "Basis"; plain 3 "B"; plain 4 "C.old"; plain 2 "A.old"].
Proof.
  exact (move_old_orders_entries sample_cleanup _ 4 eq_refl eq_refl
           (le_n 4)).
Defined.

(** X2. On a mesh in Object or Sculpt mode, a sweep neither adds nor
    drops an entry and rewrites none: the collection it leaves is a
    permutation of the one it found, and the object's type, mode and
    vertex groups are as before. *)
Theorem move_old_permutes (o : Object) (kbs : list ShapeKey) (fuel : nat) :
  mesh_in_mode o = true ->
  shape_keys o = Some kbs ->
  List.length kbs <= fuel ->
  exists r o',
    move_old_shapekeys_to_bottom fuel (Some o) = Ok (r, Some o')
    /\ Permutation kbs (key_list o')
    /\ type o' = type o /\ mode o' = mode o
    /\ vertex_groups o' = vertex_groups o.
Proof.
  intros Hp Hk Hf.
  destruct (move_old_spec o kbs fuel Hp Hk Hf)
    as (o' & Hrun & Hk' & Ht & Hm & Hv).
  eexists _, o'. split; [exact Hrun|]. split; [|auto].
  unfold key_list. rewrite Hk'. destruct kbs as [|x l]; [constructor|].
  unfold movable. simpl. constructor.
  apply (Permutation_trans (filter_partition_perm l)).
  apply Permutation_app_head, Permutation_rev.
Qed.

Lemma move_old_permutes_witness :
  exists r o',
    move_old_shapekeys_to_bottom 4 (Some sample_cleanup) = Ok (r, Some o')
    /\ Permutation
         [plain 1 "Basis"; plain 2 "A.old"; plain 3 "B"; plain 4 "C.old"]
         (key_list o').
Proof.
  destruct (move_old_permutes sample_cleanup _ 4 eq_refl eq_refl (le_n 4))
    as (r & o' & Hrun & Hperm & _).
  exists r, o'. split; [exact Hrun | exact Hperm].
Defined.

(** X3. On a mesh in Object or Sculpt mode, a second sweep puts the
    suffixed entries back in their original relative order: after two
    sweeps they follow the other entries in the order they had at the
    start. A third sweep gives the collection of the first again. *)
Theorem move_old_period_two (o : Object) (kbs : list ShapeKey)
  (fuel : nat) :
  mesh_in_mode o = true ->
  shape_keys o = Some kbs ->
  List.length kbs <= fuel ->
  exists r1 o1 r2 o2 r3 o3,
    move_old_shapekeys_to_bottom fuel (Some o) = Ok (r1, Some o1)
    /\ move_old_shapekeys_to_bottom fuel (Some o1) = Ok (r2, Some o2)
    /\ move_old_shapekeys_to_bottom fuel (Some o2) = Ok (r3, Some o3)
    /\ key_list o2
       = firstn 1 kbs ++ filter not_old (tl kbs) ++ filter is_old (tl kbs)
    /\ key_list o3 = key_list o1.
Proof.
  intros Hp Hk Hf.
  destruct (mesh_in_mode_inv o Hp) as (_ & _ & Ha & _ & _).
  destruct kbs as [|x l].
  - exists (Some 0), o, (Some 0), o, (Some 0), o.
    rewrite (move_old_nil o fuel Ha Hk). unfold key_list. rewrite Hk. auto.
  - assert (Hsweep : forall (ob : Object) (olds : list ShapeKey),
              mesh_in_mode ob = true ->
              shape_keys ob = Some (x :: filter not_old l ++ olds) ->
              filter is_old olds = olds ->
              List.length olds = List.length (filter is_old l) ->
              exists r ob',
                move_old_shapekeys_to_bottom fuel (Some ob)
                = Ok (r, Some ob')
                /\ mesh_in_mode ob' = true
                /\ shape_keys ob'
                   = Some (x :: filter not_old l ++ rev olds)).
    { intros ob olds Hpo Hko Hall Hlen.
      assert (Hfo : List.length (x :: filter not_old l ++ olds) <= fuel).
      { simpl. rewrite length_app, Hlen, <- filter_partition_length.
        exact Hf. }
      destruct (move_old_spec ob _ fuel Hpo Hko Hfo)
        as (ob' & Hrun & Hk' & Hty & Hmo & _).
      eexists _, ob'. split; [exact Hrun|].
      split; [now rewrite (mesh_in_mode_same _ _ Hty Hmo)|]. rewrite Hk'.
      unfold movable. simpl. rewrite !filter_app.
      assert (Hz : filter is_old (filter not_old l) = [])
        by apply (filter_negb_filter is_old l).
      rewrite Hz, Hall. simpl.
      assert (Hn : filter not_old (filter not_old l) = filter not_old l)
        by apply filter_idem.
      assert (Hno : filter not_old olds = []).
      { rewrite <- Hall. unfold not_old.
        clear. induction olds as [|k olds IH]; simpl; [reflexivity|].
        destruct (is_old k) eqn:E; simpl; [rewrite E; simpl|]; exact IH. }
      rewrite Hn, Hno, app_nil_r. reflexivity. }
    destruct (move_old_spec o _ fuel Hp Hk Hf)
      as (o1 & Hrun1 & Hk1 & Hty1 & Hmo1 & _).
    assert (Hp1 : mesh_in_mode o1 = true)
      by (now rewrite (mesh_in_mode_same _ _ Hty1 Hmo1)).
    unfold movable in Hk1. simpl in Hk1.
    destruct (Hsweep o1 (rev (filter is_old l)) Hp1 Hk1)
      as (r2 & o2 & Hrun2 & Hp2 & Hk2).
    { now rewrite filter_rev, filter_idem. }
    { apply length_rev. }
    rewrite rev_involutive in Hk2.
    destruct (Hsweep o2 (filter is_old l) Hp2 Hk2 (filter_idem _ _) eq_refl)
      as (r3 & o3 & Hrun3 & _ & Hk3).
    eexists _, o1, r2, o2, r3, o3.
    split; [exact Hrun1|]. split; [exact Hrun2|]. split; [exact Hrun3|].
    unfold key_list. rewrite Hk1, Hk2, Hk3. split; reflexivity.
Qed.

Lemma move_old_period_two_witness :
  exists r1 o1 r2 o2,
    move_old_shapekeys_to_bottom 4 (Some sample_cleanup) = Ok (r1, Some o1)
    /\ move_old_shapekeys_to_bottom 4 (Some o1) = Ok (r2, Some o2)
    /\ key_list o2
       = [plain 1 "Basis"; plain 3 "B"; plain 2 "A.old"; plain 4 "C.old"].
Proof.
  destruct (move_old_period_two sample_cleanup _ 4 eq_refl eq_refl (le_n 4))
    as (r1 & o1 & r2 & o2 & r3 & o3 & H1 & H2 & _ & Hk & _).
  exists r1, o1, r2, o2. split; [exact H1|]. split; [exact H2 | exact Hk].
Defined.

(** X4. On a mesh in Object or Sculpt mode: with no suffixed entry
    after position 0 the sweep returns 0 and leaves the object exactly as
    it was, active shapekey included. Otherwise the sweep ends with the
    last entry active, and that entry is the first suffixed entry of the
    original order. *)
Theorem move_old_active_entry (o : Object) (kbs : list ShapeKey)
  (fuel : nat) :
  mesh_in_mode o = true ->
  shape_keys o = Some kbs ->
  List.length kbs <= fuel ->
  (filter is_old (tl kbs) = [] ->
   move_old_shapekeys_to_bottom fuel (Some o) = Ok (Some 0, Some o))
  /\ (forall m r,
        filter is_old (tl kbs) = m :: r ->
        exists o',
          move_old_shapekeys_to_bottom fuel (Some o)
          = Ok (Some (S (List.length r)), Some o')
          /\ active_shape_key o' = Some m
          /\ active_shape_key_index o' = List.length kbs - 1).
Proof.
  intros Hp Hk Hf.
  destruct (mesh_in_mode_inv o Hp) as (_ & _ & Ha & _ & Hm).
  destruct kbs as [|x l].
  - split; [intros _; apply (move_old_nil o fuel Ha Hk) | discriminate].
  - pose proof (move_old_full o x l fuel Ha Hm Hk Hf) as Hrun. cbn [tl].
    split.
    + intros Hnone. rewrite Hrun, Hnone. cbn [rev List.length].
      assert (Hall : filter not_old l = l)
        by (apply (filter_none_all is_old l Hnone)).
      rewrite app_nil_r, Hall, with_keys_same; auto.
    + intros m r Hold. rewrite Hold in Hrun. eexists. split; [exact Hrun|].
      unfold active_shape_key, active_shape_key_index.
      cbn [shape_keys with_keys shapenr rev List.length nth_error].
      split; [|lia].
      pose proof (filter_partition_length l) as Hlen. rewrite Hold in Hlen.
      simpl in Hlen. rewrite app_assoc.
      replace (List.length l)
        with (S (List.length (filter not_old l ++ rev r)))
        by (rewrite length_app, length_rev; lia).
      cbn [nth_error]. apply nth_error_length_app.
Qed.

Lemma move_old_active_entry_witness :
  exists o',
    move_old_shapekeys_to_bottom 4 (Some sample_cleanup)
    = Ok (Some 2, Some o')
    /\ active_shape_key o' = Some (plain 2 "A.old").
Proof.
  destruct (move_old_active_entry sample_cleanup _ 4 eq_refl eq_refl
              (le_n 4))
    as [_ H].
  destruct (H (plain 2 "A.old") [plain 4 "C.old"] eq_refl)
    as (o' & Hrun & Hact & _).
  exists o'. split; [exact Hrun | exact Hact].
Defined.

(** ** The deletion sweep, further *)

Lemma filter_not_old_rev_old (l : list ShapeKey) :
  filter not_old (rev (filter is_old l)) = [].
Proof.
  rewrite filter_rev.
  assert (H : filter not_old (filter is_old l) = []).
  { induction l as [|x l IH]; simpl; [reflexivity|].
    destruct (is_old x) eqn:E; simpl; [|exact IH].
    unfold not_old at 1. rewrite E. exact IH. }
  now rewrite H.
Qed.

(** X5. On a mesh in Object or Sculpt mode, moving the suffixed entries
    to the bottom first changes nothing to a deletion: deleting after a
    move sweep removes as many entries and leaves the same collection as
    deleting right away. *)
Theorem delete_after_move (o : Object) (kbs : list ShapeKey) (fuel : nat) :
  mesh_in_mode o = true ->
  shape_keys o = Some kbs ->
  List.length kbs <= fuel ->
  exists r1 o1 n o2 o3,
    move_old_shapekeys_to_bottom fuel (Some o) = Ok (r1, Some o1)
    /\ delete_old_shapekeys (Some o1) = Ok (Some n, Some o2)
    /\ delete_old_shapekeys (Some o) = Ok (Some n, Some o3)
    /\ key_list o2 = key_list o3.
Proof.
  intros Hp Hk Hf.
  destruct (move_old_spec o kbs fuel Hp Hk Hf)
    as (o1 & Hrun1 & Hk1 & Hty1 & Hmo1 & _).
  assert (Hp1 : mesh_in_mode o1 = true)
    by (now rewrite (mesh_in_mode_same _ _ Hty1 Hmo1)).
  destruct (delete_old_spec o1 _ Hp1 Hk1) as (o2 & Hrun2 & Hkl2 & _).
  destruct (delete_old_spec o kbs Hp Hk) as (o3 & Hrun3 & Hkl3 & _).
  assert (Hsame : forall p : ShapeKey -> bool,
             (p = is_old \/ p = not_old) ->
             List.length
               (filter p (firstn 1 kbs ++ filter not_old (tl kbs)
                          ++ rev (movable kbs)))
             = List.length (filter p kbs)
             /\ (p = not_old ->
                 filter p (firstn 1 kbs ++ filter not_old (tl kbs)
                           ++ rev (movable kbs))
                 = filter p kbs)).
  { intros p Hcase. destruct kbs as [|x l]; [split; reflexivity|].
    unfold movable. cbn [firstn tl]. rewrite !filter_app. cbn [filter app].
    destruct Hcase as [-> | ->].
    - assert (Hz : filter is_old (filter not_old l) = [])
        by apply (filter_negb_filter is_old l).
      rewrite Hz, filter_rev, filter_idem. split.
      + destruct (is_old x); simpl; now rewrite length_rev.
      + intros E. exfalso.
        assert (Hx : is_old x = not_old x) by (now rewrite E).
        unfold not_old in Hx. destruct (is_old x); discriminate.
    - assert (Hn : filter not_old (filter not_old l) = filter not_old l)
        by apply filter_idem.
      rewrite Hn, filter_not_old_rev_old, app_nil_r.
      split; [|intros _]; destruct (not_old x); reflexivity. }
  exists (Some (List.length (movable kbs))), o1,
    (List.length (filter is_old kbs)), o2, o3.
  split; [exact Hrun1|]. split.
  - rewrite Hrun2. destruct (Hsame is_old (or_introl eq_refl)) as [-> _].
    reflexivity.
  - split; [exact Hrun3|]. rewrite Hkl2, Hkl3.
    destruct (Hsame not_old (or_intror eq_refl)) as [_ H]. now apply H.
Qed.

Lemma delete_after_move_witness :
  exists r1 o1 n o2 o3,
    move_old_shapekeys_to_bottom 4 (Some sample_cleanup) = Ok (r1, Some o1)
    /\ delete_old_shapekeys (Some o1) = Ok (Some n, Some o2)
    /\ delete_old_shapekeys (Some sample_cleanup) = Ok (Some n, Some o3)
    /\ key_list o2 = key_list o3.
Proof.
  exact (delete_after_move sample_cleanup _ 4 eq_refl eq_refl (le_n 4)).
Defined.

(** The deletion loop never leaves an empty collection behind: the host
    frees the collection with its last entry. *)
Lemma delete_loop_never_empty (R : list string) :
  forall (o o' : Object) (d r : nat),
    delete_loop R d o = Ok (r, o') ->
    shape_keys o <> Some [] ->
    shape_keys o' <> Some [].
Proof.
  induction R as [|n R IH]; intros o o' d r Hrun Hne.
  - unfold delete_loop in Hrun. simpl in Hrun. unfold ret in Hrun.
    now inversion Hrun; subst.
  - unfold delete_loop in Hrun. cbn [for_each] in Hrun.
    apply bind_Ok_inv in Hrun. destruct Hrun as (d1 & o1 & Hbody & Hrest).
    apply (IH o1 o' d1 r Hrest).
    apply bind_Ok_inv in Hbody.
    destruct Hbody as (present & oa & Hc & Hbody).
    unfold key_blocks_contains in Hc.
    destruct (shape_keys o) as [C|] eqn:Hk; [|discriminate].
    inversion Hc; subst. clear Hc. destruct (mem n (names C)).
    + apply bind_Ok_inv in Hbody. destruct Hbody as (i & ob & Hi & Hbody).
      unfold index_of_named in Hi. rewrite Hk in Hi.
      destruct (index_of n (names C)); [|discriminate].
      inversion Hi; subst. clear Hi.
      apply bind_Ok_inv in Hbody. destruct Hbody as ([] & oc & Hs & Hbody).
      unfold set_active_shape_key_index in Hs. inversion Hs; subst. clear Hs.
      apply bind_Ok_inv in Hbody. destruct Hbody as ([] & od & Hr & Hbody).
      unfold ret in Hbody. inversion Hbody; subst. clear Hbody.
      unfold shape_key_remove in Hr.
      cbn [shape_keys with_keys shapenr] in Hr. rewrite Hk in Hr.
      destruct (active_shape_key _); [|discriminate].
      destruct (in_edit_mode _); [discriminate|].
      destruct (remove_at _ C); inversion Hr; subst; simpl; discriminate.
    + unfold ret in Hbody. inversion Hbody; subst. now rewrite Hk.
Qed.

(** X6. On a mesh in Object or Sculpt mode with a non-empty collection,
    the deletion sweep leaves the object without any collection exactly
    when every entry carried the suffix. From then on both sweeps return
    [None] and every expected name is reported missing. *)
Theorem delete_old_frees_collection (o : Object) (kbs : list ShapeKey) :
  mesh_in_mode o = true ->
  shape_keys o = Some kbs ->
  kbs <> [] ->
  exists n o',
    delete_old_shapekeys (Some o) = Ok (Some n, Some o')
    /\ (shape_keys o' = None <-> forall kb, In kb kbs -> is_old kb = true)
    /\ (shape_keys o' = None ->
        delete_old_shapekeys (Some o') = Ok (None, Some o')
        /\ (forall fuel,
              move_old_shapekeys_to_bottom fuel (Some o')
              = Ok (None, Some o'))
        /\ forall expected,
             get_missing_shapekeys (Some o') expected
             = Ok (expected, Some o')).
Proof.
  intros Hp Hk Hne.
  destruct (mesh_in_mode_inv o Hp) as (_ & _ & Ha & _ & _).
  destruct (delete_old_spec o kbs Hp Hk) as (o' & Hrun & Hkl & Hty & _).
  assert (Ha' : has_shape_keys_attr o' = true)
    by (unfold has_shape_keys_attr in *; now rewrite Hty).
  exists (List.length (filter is_old kbs)), o'. split; [exact Hrun|].
  assert (Hinv : shape_keys o' <> Some []).
  { unfold delete_old_shapekeys, data_shape_keys in Hrun.
    rewrite Ha, Hk in Hrun.
    unfold on_object in Hrun.
    destruct (bind _ _ o) as [[a ob]| |] eqn:Hb; try discriminate.
    apply bind_Ok_inv in Hb. destruct Hb as (d & oc & Hloop & Hret).
    unfold ret in Hret. inversion Hret; subst. inversion Hrun; subst.
    apply (delete_loop_never_empty _ _ _ _ _ Hloop). rewrite Hk.
    intros E. inversion E. contradiction. }
  split; [split|].
  - intros Hnone kb Hin. unfold key_list in Hkl. rewrite Hnone in Hkl.
    destruct (is_old kb) eqn:E; [reflexivity|].
    assert (Hin' : In kb (filter not_old kbs)).
    { apply filter_In. split; [exact Hin|]. unfold not_old. now rewrite E. }
    rewrite <- Hkl in Hin'. contradiction.
  - intros Hall. unfold key_list in Hkl.
    destruct (shape_keys o') as [l|]; [|reflexivity].
    exfalso. apply Hinv. f_equal. rewrite Hkl.
    destruct (filter not_old kbs) as [|kb r] eqn:E; [reflexivity|].
    assert (Hin : In kb (filter not_old kbs)) by (rewrite E; now left).
    apply filter_In in Hin. destruct Hin as [Hin Hn].
    unfold not_old in Hn. rewrite (Hall kb Hin) in Hn. discriminate.
  - intros Hnone.
    unfold delete_old_shapekeys, move_old_shapekeys_to_bottom,
      get_missing_shapekeys, data_shape_keys.
    rewrite Ha', Hnone. auto.
Qed.

Lemma delete_old_frees_collection_witness :
  exists n o',
    delete_old_shapekeys (Some (mesh [plain 1 "A.old"; plain 2 "B.old"] 1))
    = Ok (Some n, Some o')
    /\ shape_keys o' = None.
Proof.
  destruct (delete_old_frees_collection
              (mesh [plain 1 "A.old"; plain 2 "B.old"] 1) _ eq_refl eq_refl)
    as (n & o' & Hrun & Hiff & _).
  { discriminate. }
  exists n, o'. split; [exact Hrun|]. apply Hiff.
  intros kb [<-|[<-|[]]]; reflexivity.
Defined.

Lemma NoDup_names_filter (p : ShapeKey -> bool) (l : list ShapeKey) :
  NoDup (names l) -> NoDup (names (filter p l)).
Proof.
  induction l as [|x l IH]; simpl; intros H; [constructor|].
  inversion H as [|? ? Hnin Hnd]; subst.
  destruct (p x); simpl; [|now apply IH]. constructor; [|now apply IH].
  intros Hin. apply Hnin. unfold names in *. apply in_map_iff in Hin.
  destruct Hin as (y & Hy & Hin). apply filter_In in Hin.
  apply in_map_iff. exists y. split; [exact Hy | apply Hin].
Qed.

(** X7. On a mesh in Object or Sculpt mode, both cleanup sweeps keep the
    names of the collection distinct. *)
Theorem cleanup_keeps_names_distinct (o : Object) (kbs : list ShapeKey)
  (fuel : nat) :
  mesh_in_mode o = true ->
  shape_keys o = Some kbs ->
  NoDup (names kbs) ->
  List.length kbs <= fuel ->
  (exists r o',
      move_old_shapekeys_to_bottom fuel (Some o) = Ok (r, Some o')
      /\ NoDup (names (key_list o')))
  /\ (exists r o',
        delete_old_shapekeys (Some o) = Ok (r, Some o')
        /\ NoDup (names (key_list o'))).
Proof.
  intros Hp Hk Hnd Hf. split.
  - destruct (move_old_spec o kbs fuel Hp Hk Hf) as (o' & Hrun & Hk' & _).
    eexists _, o'. split; [exact Hrun|].
    unfold key_list. rewrite Hk'.
    apply (Permutation_NoDup (l := names kbs)); [|exact Hnd].
    unfold names. apply Permutation_map.
    destruct kbs as [|x l]; [constructor|].
    unfold movable. simpl. constructor.
    apply (Permutation_trans (filter_partition_perm l)).
    apply Permutation_app_head, Permutation_rev.
  - destruct (delete_old_spec o kbs Hp Hk) as (o' & Hrun & Hkl & _).
    eexists _, o'. split; [exact Hrun|]. rewrite Hkl.
    now apply NoDup_names_filter.
Qed.

Lemma cleanup_keeps_names_distinct_witness :
  exists r o',
    delete_old_shapekeys (Some sample_cleanup) = Ok (r, Some o')
    /\ NoDup (names (key_list o')).
Proof.
  assert (Hnd : NoDup ["Basis"; "A.old"; "B"; "C.old"]).
  { repeat constructor; simpl; intros H;
      repeat (destruct H as [H|H]; [discriminate H|]); exact H. }
  destruct (cleanup_keeps_names_distinct sample_cleanup _ 4 eq_refl eq_refl
              Hnd (le_n 4)) as [_ H].
  exact H.
Defined.

(** ** The split, whatever the names *)

Lemma alike_refl (p : nat) (a : ShapeKey) : alike p a a.
Proof. repeat split. Qed.

Lemma alike_trans (p : nat) (a b c : ShapeKey) :
  alike p a b -> alike p b c -> alike p a c.
Proof.
  intros (Hp1 & Hn1 & Hm1) (Hp2 & Hn2 & Hm2). repeat split; try congruence.
  intros Hne. rewrite (Hm1 Hne). apply Hm2. congruence.
Qed.

Lemma alikes_refl (p : nat) (K : list ShapeKey) : Forall2 (alike p) K K.
Proof. induction K; constructor; [apply alike_refl | assumption]. Qed.

Lemma alikes_trans (p : nat) (K1 K2 K3 : list ShapeKey) :
  Forall2 (alike p) K1 K2 -> Forall2 (alike p) K2 K3 ->
  Forall2 (alike p) K1 K3.
Proof.
  intros H12. revert K3. induction H12 as [|a b K1 K2 Hab _ IH];
    intros K3 H23; inversion H23; subst; constructor.
  - eapply alike_trans; eassumption.
  - now apply IH.
Qed.

Lemma alikes_variant (p : nat) (K K' : list ShapeKey) :
  Forall2 (alike p) K K' -> variant K K'.
Proof.
  induction 1 as [|a b K K' (Hp & Hn & _) _ IH]; constructor;
    [split|]; assumption.
Qed.

Lemma alikes_map (p : nat) (h : ShapeKey -> ShapeKey) (K : list ShapeKey) :
  (forall kb, alike p kb (h kb)) -> Forall2 (alike p) K (map h K).
Proof. intros H. induction K; simpl; constructor; auto. Qed.

(** A write through the reference [p] that keeps identity and name leaves
    every entry alike. *)
Lemma alikes_update_ptr (p : nat) (f : ShapeKey -> ShapeKey)
  (K : list ShapeKey) :
  (forall kb, sk_ptr (f kb) = sk_ptr kb /\ name (f kb) = name kb) ->
  Forall2 (alike p) K (update_ptr p f K).
Proof.
  intros H. apply alikes_map. intros kb.
  destruct (Nat.eqb_spec (sk_ptr kb) p) as [E|E]; [|apply alike_refl].
  destruct (H kb) as [Hp Hn]. repeat split; congruence.
Qed.

Lemma alikes_split (p : nat) (P S1 S2 K' : list ShapeKey) (X : ShapeKey) :
  Forall2 (alike p) (P ++ X :: S1 ++ S2) K' ->
  exists P' X' S1' S2',
    K' = P' ++ X' :: S1' ++ S2'
    /\ Forall2 (alike p) P P' /\ alike p X X'
    /\ Forall2 (alike p) S1 S1' /\ Forall2 (alike p) S2 S2'.
Proof.
  intros H. apply Forall2_app_inv_l in H.
  destruct H as (P' & R' & HP & HR & ->).
  inversion HR as [|? X' ? R'' HX HR']; subst.
  apply Forall2_app_inv_l in HR'.
  destruct HR' as (S1' & S2' & H1 & H2 & ->).
  exists P', X', S1', S2'. auto.
Qed.

Lemma shape_key_clear_alikes (p : nat) (o : Object) (K : list ShapeKey) :
  shape_keys o = Some K ->
  exists K',
    shape_key_clear o = Ok (tt, with_keys o (Some K') (shapenr o))
    /\ Forall2 (alike p) K K'.
Proof.
  intros Hk. unfold shape_key_clear. rewrite Hk.
  destruct (active_shape_key o).
  - eexists. split; [reflexivity|]. apply alikes_map.
    intros kb. repeat split.
  - exists K. split; [|apply alikes_refl]. now rewrite with_keys_same.
Qed.

(** The host appends a new entry and the code renames it: the entry ends
    up last, active, under the name the host grants. *)
Lemma add_and_rename_any (o : Object) (K : list ShapeKey) (nr : nat)
  (n : string) :
  in_edit_mode o = false ->
  (op_shape_key_add true ;;; set_active_shape_key_name n)
    (with_keys o (Some K) nr)
  = Ok (tt, with_keys o
              (Some (K ++ [derived (fresh_ptr K) (unique_name (names K) n)]))
              (S (List.length K))).
Proof.
  intros Hm. unfold bind, op_shape_key_add.
  change (in_edit_mode (with_keys o (Some K) nr)) with (in_edit_mode o).
  rewrite Hm.
  cbn [shape_keys with_keys shapenr].
  unfold set_active_shape_key_name, active_shape_key.
  cbn [shape_keys with_keys shapenr].
  rewrite nth_error_length_app. unfold set_name, on_key_blocks.
  cbn [shape_keys with_keys shapenr].
  set (nb := new_keyblock K (default_name K)).
  assert (Hp : sk_ptr nb = fresh_ptr K) by reflexivity.
  rewrite Hp, (filter_others K nb Hp), (update_ptr_fresh K nb _ Hp).
  reflexivity.
Qed.

(** One round of the loop, whatever the name asked for. *)
Lemma split_one_any (o : Object) (P S1 S2 : list ShapeKey) (X : ShapeKey)
  (shape_key : ShapeKey) (g : string) (acc : list string) :
  in_edit_mode o = false ->
  shape_keys o = Some (P ++ X :: S1 ++ S2) ->
  ~ In (name X) (names P) ->
  exists P' X' S1' S2',
    split_one shape_key (name X) (List.length S2) (g, g) acc o
    = Ok (acc ++ [(name X ++ g)%string],
          with_keys o
            (Some (P' ++ X' :: S1'
                   ++ derived (fresh_ptr (P ++ X :: S1 ++ S2))
                        (unique_name (names (P ++ X :: S1 ++ S2))
                           (name X ++ g)%string)
                      :: S2'))
            (S (S (List.length P + List.length S1))))
    /\ Forall2 (alike (sk_ptr shape_key)) P P'
    /\ alike (sk_ptr shape_key) X X'
    /\ Forall2 (alike (sk_ptr shape_key)) S1 S1'
    /\ Forall2 (alike (sk_ptr shape_key)) S2 S2'.
Proof.
  intros Hm Hk HN. set (K0 := P ++ X :: S1 ++ S2) in *.
  set (p := sk_ptr shape_key). unfold split_one.
  destruct (shape_key_clear_alikes p o K0 Hk) as (K1 & Hclear & V1).
  rewrite (bind_Ok _ _ _ _ _ Hclear).
  assert (Hidx : index_of (name X) (names K1) = Some (List.length P)).
  { rewrite (variant_names _ _ (alikes_variant _ _ _ V1)). unfold K0.
    now apply index_of_at. }
  run_host keys_index. rewrite Hidx.
  run_host set_active_shape_key_index.
  run_host set_vertex_group.
  run_host set_value.
  fold p.
  set (K2 := update_ptr p (set_kb_vertex_group g) K1).
  set (K3 := update_ptr p (set_kb_value 1%Q) K2).
  assert (V3 : Forall2 (alike p) K0 K3).
  { apply (alikes_trans _ _ K1); [exact V1|].
    apply (alikes_trans _ _ K2); apply alikes_update_ptr;
      intros kb; split; reflexivity. }
  rewrite !with_keys_twice.
  match goal with
  | |- context [bind (op_shape_key_add true) ?k ?st] =>
      replace (bind (op_shape_key_add true) k st)
        with (bind (op_shape_key_add true ;;;
                    set_active_shape_key_name (name X ++ g)%string)
                (fun _ => repeat_m (List.length S2) (shape_key_move UP) ;;;
                          ret (acc ++ [(name X ++ g)%string])) st)
        by apply bind_assoc
  end.
  rewrite (bind_Ok _ _ _ _ _ (add_and_rename_any o K3 _ _ Hm)).
  destruct (alikes_split p P S1 S2 K3 X V3)
    as (P' & X' & S1' & S2' & E3 & VP & VX & VS1 & VS2).
  exists P', X', S1', S2'.
  pose proof (alikes_variant _ _ _ V3) as W3.
  rewrite (variant_fresh_ptr _ _ W3), (variant_names _ _ W3).
  set (nw := derived (fresh_ptr K0)
               (unique_name (names K0) (name X ++ g)%string)).
  rewrite <- (variant_length _ _ (alikes_variant _ _ _ VS2)).
  erewrite (bind_Ok (repeat_m _ _)).
  2:{ apply (repeat_move_up_spec S2' (P' ++ X' :: S1') [] nw);
        cbn [shape_keys with_keys shapenr].
      - exact Hm.
      - rewrite E3, <- !app_assoc. simpl. now rewrite <- !app_assoc.
      - rewrite E3. f_equal. rewrite !length_app. simpl.
        rewrite !length_app. lia. }
  unfold ret. rewrite with_keys_twice, app_nil_r, <- app_assoc. simpl.
  split; [|auto]. f_equal. f_equal. f_equal. f_equal.
  rewrite length_app. simpl.
  rewrite (variant_length _ _ (alikes_variant _ _ _ VP)).
  rewrite (variant_length _ _ (alikes_variant _ _ _ VS1)). lia.
Qed.

(** The end of the split, exactly: every weight is put to 0 and the mask
    of the entry referred to is emptied. *)
Lemma split_restore_exact (o : Object) (P R : list ShapeKey)
  (X a shape_key : ShapeKey) :
  shape_keys o = Some (P ++ X :: R) ->
  active_shape_key o = Some a ->
  ~ In (name X) (names P) ->
  split_restore shape_key (name X) (List.length P) o
  = Ok (tt, with_keys o
              (Some (update_ptr (sk_ptr shape_key) (set_kb_vertex_group "")
                       (map (set_kb_value 0%Q) (P ++ X :: R))))
              (S (List.length P))).
Proof.
  intros Hk Ha HN. unfold split_restore.
  unfold bind at 1. unfold shape_key_clear at 1. rewrite Hk, Ha.
  assert (Hidx : index_of (name X)
                   (names (map (set_kb_value 0%Q) (P ++ X :: R)))
                 = Some (List.length P)).
  { unfold names. rewrite map_map. simpl.
    change (map (fun x => name x) (P ++ X :: R)) with (names (P ++ X :: R)).
    now apply index_of_at. }
  run_host keys_index. rewrite Hidx.
  run_host set_active_shape_key_index.
  run_host set_vertex_group.
  rewrite Nat.eqb_refl. cbn [negb]. unfold bind at 1. unfold ret at 1.
  unfold set_active_shape_key_index. cbn [shape_keys with_keys shapenr].
  rewrite !with_keys_twice. reflexivity.
Qed.

Lemma ptr_in_below_fresh (P R : list ShapeKey) (X : ShapeKey) :
  sk_ptr X <> fresh_ptr (P ++ X :: R).
Proof.
  assert (H : sk_ptr X < fresh_ptr (P ++ X :: R)).
  { apply ptr_below_fresh. apply in_or_app. right. now left. }
  lia.
Qed.

(** What the split leaves once its guards have passed, whatever the
    names already present. *)
Lemma split_steps_any (o : Object) (pre suf : list ShapeKey)
  (x : ShapeKey) (A B : string) :
  in_edit_mode o = false ->
  shape_keys o = Some (pre ++ x :: suf) ->
  shapenr o = S (List.length pre) ->
  ~ In (name x) (names pre) ->
  exists pre' x' nA nB suf',
    split_steps x A B o
    = Ok (Some ((name x ++ A)%string, (name x ++ B)%string),
          with_keys o (Some (pre' ++ x' :: nA :: nB :: suf'))
            (S (List.length pre)))
    /\ Forall2 (alike (sk_ptr x)) pre pre'
    /\ alike (sk_ptr x) x x'
    /\ Forall2 (alike (sk_ptr x)) suf suf'
    /\ vertex_group x' = ""
    /\ name nA = unique_name (names (pre ++ x :: suf)) (name x ++ A)%string
    /\ name nB
       = unique_name (names pre ++ name x :: name nA :: names suf)
           (name x ++ B)%string
    /\ vertex_group nA = "" /\ vertex_group nB = ""
    /\ ~ In (sk_ptr nA) (map sk_ptr (pre ++ x :: suf))
    /\ ~ In (sk_ptr nB) (sk_ptr nA :: map sk_ptr (pre ++ x :: suf))
    /\ Forall (fun kb => value kb = 0%Q) (pre' ++ x' :: nA :: nB :: suf').
Proof.
  intros Hm Hk Hn HN. set (p := sk_ptr x). unfold split_steps.
  unfold bind at 1. unfold get_active_shape_key_index at 1.
  unfold bind at 1. unfold keys_len at 1. rewrite Hk.
  unfold active_shape_key_index. rewrite Hn.
  replace (List.length (pre ++ x :: suf) - (S (List.length pre) - 1) - 1)
    with (List.length suf) by (rewrite length_app; simpl; lia).
  replace (S (List.length pre) - 1) with (List.length pre) by lia.
  cbn [for_each].
  (* first round *)
  destruct (split_one_any o pre [] suf x x A [] Hm Hk HN)
    as (P1 & X1 & E1 & S1 & Hrun1 & VP1 & VX1 & VE1 & VS1).
  inversion VE1; subst E1. clear VE1. cbn [app List.length] in Hrun1.
  set (dA := derived (fresh_ptr (pre ++ x :: suf))
               (unique_name (names (pre ++ x :: suf)) (name x ++ A)%string))
    in *.
  unfold bind at 1. unfold bind at 1. rewrite Hrun1.
  set (o1 := with_keys o (Some (P1 ++ X1 :: dA :: S1))
               (S (S (List.length pre + 0)))).
  assert (HnX1 : name X1 = name x) by (symmetry; apply VX1).
  assert (HpX1 : sk_ptr X1 = p) by (symmetry; apply VX1).
  pose proof (alikes_variant _ _ _ VP1) as WP1.
  pose proof (alikes_variant _ _ _ VS1) as WS1.
  assert (HN1 : ~ In (name X1) (names P1))
    by (now rewrite HnX1, (variant_names _ _ WP1)).
  (* second round *)
  destruct (split_one_any o1 P1 [dA] S1 X1 x B [(name x ++ A)%string]
              Hm eq_refl HN1)
    as (P2 & X2 & E2 & S2 & Hrun2 & VP2 & VX2 & VE2 & VS2).
  inversion VE2 as [|? dA' ? E2' VdA VE2']; subst. inversion VE2'; subst.
  clear VE2 VE2'. rewrite HnX1, (variant_length _ _ WS1) in Hrun2.
  cbn [app List.length] in Hrun2.
  set (K1 := P1 ++ X1 :: dA :: S1) in *.
  set (dB := derived (fresh_ptr K1)
               (unique_name (names K1) (name x ++ B)%string)) in *.
  fold o1. rewrite (bind_Ok _ _ _ _ _ Hrun2).
  unfold ret at 1. unfold bind at 1.
  set (o2 := with_keys o1 (Some (P2 ++ X2 :: dA' :: dB :: S2))
               (S (S (List.length P1 + 1)))).
  pose proof (alikes_variant _ _ _ VP2) as WP2.
  assert (HnX2 : name X2 = name x) by (destruct VX2 as (_ & H & _); congruence).
  assert (HpX2 : sk_ptr X2 = p) by (destruct VX2 as (H & _); congruence).
  assert (HN2 : ~ In (name X2) (names P2))
    by (now rewrite HnX2, (variant_names _ _ WP2), <- HnX1).
  assert (Hact : active_shape_key o2 = Some dB).
  { unfold active_shape_key, o2. cbn [shape_keys with_keys shapenr].
    replace (S (List.length P1 + 1))
      with (List.length (P2 ++ [X2; dA']))
      by (rewrite length_app, (variant_length _ _ WP2); simpl; lia).
    replace (P2 ++ X2 :: dA' :: dB :: S2)
      with ((P2 ++ [X2; dA']) ++ dB :: S2)
      by (now rewrite <- app_assoc).
    apply nth_error_length_app. }
  pose proof (split_restore_exact o2 P2 (dA' :: dB :: S2) X2 dB x
                eq_refl Hact HN2) as Hrun3.
  rewrite HnX2 in Hrun3.
  replace (List.length P2) with (List.length pre) in Hrun3
    by (now rewrite (variant_length _ _ WP2), (variant_length _ _ WP1)).
  rewrite Hrun3. unfold first_two, ret. unfold o2, o1.
  rewrite !with_keys_twice.
  (* the collection left *)
  set (h := fun kb : ShapeKey =>
              if sk_ptr (set_kb_value 0%Q kb) =? p
              then set_kb_vertex_group "" (set_kb_value 0%Q kb)
              else set_kb_value 0%Q kb).
  assert (Hfinal :
    update_ptr p (set_kb_vertex_group "")
      (map (set_kb_value 0%Q) (P2 ++ X2 :: dA' :: dB :: S2))
    = map h P2 ++ h X2 :: h dA' :: h dB :: map h S2).
  { unfold update_ptr. rewrite map_map, map_app. reflexivity. }
  fold p. rewrite Hfinal.
  assert (Hh : forall kb, alike p kb (h kb)).
  { intros kb. unfold h. simpl.
    destruct (Nat.eqb_spec (sk_ptr kb) p); repeat split; congruence. }
  assert (Hv : forall kb, value (h kb) = 0%Q).
  { intros kb. unfold h. destruct (_ =? _); reflexivity. }
  assert (HpA : sk_ptr dA' = fresh_ptr (pre ++ x :: suf))
    by (symmetry; apply VdA).
  assert (HpA' : sk_ptr dA' <> p).
  { rewrite HpA. unfold p. intros E. symmetry in E.
    exact (ptr_in_below_fresh pre suf x E). }
  assert (HpB' : sk_ptr dB <> p).
  { unfold dB, K1. simpl. rewrite <- HpX1. intros E. symmetry in E.
    exact (ptr_in_below_fresh P1 (dA :: S1) X1 E). }
  assert (W1 : variant (pre ++ x :: suf) (P1 ++ X1 :: S1)).
  { apply variant_app; [exact WP1|]. constructor; [|exact WS1].
    split; apply VX1. }
  exists (map h P2), (h X2), (h dA'), (h dB), (map h S2).
  split; [reflexivity|].
  split.
  { apply (alikes_trans _ _ P1); [exact VP1|].
    apply (alikes_trans _ _ P2); [exact VP2 | now apply alikes_map]. }
  split.
  { apply (alike_trans _ _ X1); [exact VX1|].
    apply (alike_trans _ _ X2); [exact VX2 | apply Hh]. }
  split.
  { apply (alikes_trans _ _ S1); [exact VS1|].
    apply (alikes_trans _ _ S2); [exact VS2 | now apply alikes_map]. }
  split.
  { unfold h. simpl. rewrite HpX2, Nat.eqb_refl. reflexivity. }
  assert (HnA : name (h dA')
                = unique_name (names (pre ++ x :: suf)) (name x ++ A)%string).
  { destruct (Hh dA') as (_ & <- & _). destruct VdA as (_ & <- & _).
    reflexivity. }
  split; [exact HnA|].
  split.
  { destruct (Hh dB) as (_ & <- & _). unfold dB. simpl. f_equal.
    unfold K1, names. rewrite map_app. simpl.
    fold (names P1) (names S1).
    rewrite (variant_names _ _ WP1), (variant_names _ _ WS1), HnX1.
    rewrite HnA. reflexivity. }
  split.
  { destruct (Hh dA') as (_ & _ & Hg). rewrite <- (Hg HpA').
    destruct VdA as (Hp & _ & Hg'). rewrite <- Hg'; [reflexivity|].
    rewrite Hp. exact HpA'. }
  split.
  { destruct (Hh dB) as (_ & _ & Hg). rewrite <- (Hg HpB'). reflexivity. }
  split.
  { destruct (Hh dA') as (<- & _). rewrite HpA. apply fresh_ptr_not_in. }
  split.
  { assert (E : sk_ptr (h dB) = fresh_ptr K1)
      by (destruct (Hh dB) as (<- & _); reflexivity).
    assert (E' : sk_ptr (h dA') = sk_ptr dA)
      by (destruct (Hh dA') as (<- & _); symmetry; apply VdA).
    rewrite E, E'. intros Hin.
    apply (fresh_ptr_not_in K1). unfold K1.
    rewrite map_app. simpl. rewrite <- (variant_ptrs _ _ W1) in Hin.
    rewrite map_app in Hin. simpl in Hin.
    destruct Hin as [Hin|Hin].
    - apply in_or_app. right. right. now left.
    - apply in_app_or in Hin. apply in_or_app.
      destruct Hin as [Hin|[Hin|Hin]]; [now left | right; now left |].
      right. right. now right. }
  rewrite <- Hfinal. unfold update_ptr. rewrite map_map.
  apply Forall_forall. intros kb Hin. apply in_map_iff in Hin.
  destruct Hin as (k0 & <- & _). apply Hv.
Qed.

Lemma active_entry_splits (o : Object) (kbs : list ShapeKey)
  (x : ShapeKey) :
  shape_keys o = Some kbs ->
  active_shape_key o = Some x ->
  exists pre suf,
    kbs = pre ++ x :: suf /\ shapenr o = S (List.length pre).
Proof.
  intros Hk Ha. unfold active_shape_key in Ha. rewrite Hk in Ha.
  destruct (shapenr o) as [|i]; [discriminate|].
  apply nth_error_split in Ha. destruct Ha as (pre & suf & -> & <-).
  now exists pre, suf.
Qed.

(** X8. On a mesh in Object or Sculpt mode with distinct names, an
    active shapekey and both vertex groups present,
    [split_shapekey_by_groups] always succeeds: it returns (N+A, N+B),
    adds exactly two entries right after the original, keeps all names
    distinct and leaves the original active. A requested name that fits
    the name field and is free is given to the new entry; one that is
    taken is not, although it is the one returned. *)
Theorem split_keeps_names_distinct (o : Object) (pre suf : list ShapeKey)
  (x : ShapeKey) (A B : string) :
  mesh_in_mode o = true ->
  shape_keys o = Some (pre ++ x :: suf) ->
  shapenr o = S (List.length pre) ->
  In A (vertex_groups o) ->
  In B (vertex_groups o) ->
  NoDup (names (pre ++ x :: suf)) ->
  exists o' kbs' nmA nmB,
    split_shapekey_by_groups (Some o) A B
    = Ok (Some ((name x ++ A)%string, (name x ++ B)%string), Some o')
    /\ shape_keys o' = Some kbs'
    /\ names kbs' = names pre ++ name x :: nmA :: nmB :: names suf
    /\ NoDup (names kbs')
    /\ (fits (name x ++ A) = true ->
        ~ In (name x ++ A)%string (names (pre ++ x :: suf)) ->
        nmA = (name x ++ A)%string)
    /\ (In (name x ++ A)%string (names (pre ++ x :: suf)) ->
        nmA <> (name x ++ A)%string)
    /\ (fits (name x ++ B) = true ->
        ~ In (name x ++ B)%string (names (pre ++ x :: suf)) ->
        (name x ++ B)%string <> nmA ->
        nmB = (name x ++ B)%string)
    /\ (In (name x ++ B)%string (names (pre ++ x :: suf))
        \/ (name x ++ B)%string = nmA ->
        nmB <> (name x ++ B)%string)
    /\ active_shape_key_index o' = List.length pre
    /\ option_map name (active_shape_key o') = Some (name x).
Proof.
  intros Hp Hk Hn HA HB Hdup.
  destruct (mesh_in_mode_inv o Hp) as (_ & _ & Hattr & _ & Hm).
  pose proof (NoDup_names_head pre suf x Hdup) as HN.
  destruct (split_steps_any o pre suf x A B Hm Hk Hn HN)
    as (pre' & x' & nA & nB & suf' & Hrun & Vp & Vx & Vs & _ & HnA & HnB
        & _).
  pose proof (variant_names _ _ (alikes_variant _ _ _ Vp)) as Np.
  pose proof (variant_names _ _ (alikes_variant _ _ _ Vs)) as Ns.
  pose proof (variant_length _ _ (alikes_variant _ _ _ Vp)) as Lp.
  assert (Nx : name x' = name x) by (symmetry; apply Vx).
  exists (with_keys o (Some (pre' ++ x' :: nA :: nB :: suf'))
            (S (List.length pre))),
    (pre' ++ x' :: nA :: nB :: suf'), (name nA), (name nB).
  assert (Hnames : names (pre' ++ x' :: nA :: nB :: suf')
                   = names pre ++ name x :: name nA :: name nB :: names suf).
  { unfold names. rewrite map_app. simpl. fold (names pre') (names suf').
    now rewrite Np, Ns, Nx. }
  assert (HK0 : names (pre ++ x :: suf) = names pre ++ name x :: names suf).
  { unfold names. now rewrite map_app. }
  assert (Hin1 : forall n,
             In n (names pre ++ name x :: name nA :: names suf)
             <-> In n (names (pre ++ x :: suf)) \/ n = name nA).
  { intros n. rewrite HK0, !in_app_iff. simpl. intuition. }
  split.
  { unfold split_shapekey_by_groups, data_shape_keys, active_shape_key.
    rewrite Hattr, Hk, Hn.
    rewrite nth_error_length_app.
    rewrite (vertex_groups_get_present o A HA).
    rewrite (vertex_groups_get_present o B HB).
    unfold on_object. now rewrite Hrun. }
  split; [reflexivity|]. split; [exact Hnames|]. split.
  { rewrite Hnames.
    assert (HfA : ~ In (name nA) (names pre ++ name x :: names suf)).
    { rewrite HnA, <- HK0. apply unique_name_fresh. }
    assert (HfB : ~ In (name nB)
                    (names pre ++ name x :: name nA :: names suf)).
    { rewrite HnB. apply unique_name_fresh. }
    assert (H1 : NoDup (names pre ++ name x :: name nA :: names suf)).
    { replace (names pre ++ name x :: name nA :: names suf)
        with ((names pre ++ [name x]) ++ name nA :: names suf)
        by (now rewrite <- app_assoc).
      apply (Permutation_NoDup (Permutation_middle _ _ _)).
      rewrite <- app_assoc. simpl. constructor; [exact HfA|].
      now rewrite <- HK0. }
    replace (names pre ++ name x :: name nA :: name nB :: names suf)
      with ((names pre ++ [name x; name nA]) ++ name nB :: names suf)
      by (now rewrite <- app_assoc).
    apply (Permutation_NoDup (Permutation_middle _ _ _)).
    rewrite <- app_assoc. simpl. constructor; assumption. }
  split.
  { intros Hfit Hfree. rewrite HnA. now apply unique_name_free. }
  split.
  { intros Htaken E. apply (unique_name_fresh (names (pre ++ x :: suf))
                              (name x ++ A)%string).
    rewrite <- HnA, E. exact Htaken. }
  split.
  { intros Hfit Hfree Hne. rewrite HnB. apply unique_name_free;
      [exact Hfit|]. intros Hin. apply Hin1 in Hin.
    destruct Hin as [Hin|Hin]; [now apply Hfree | now apply Hne]. }
  split.
  { intros Htaken E.
    apply (unique_name_fresh
             (names pre ++ name x :: name nA :: names suf)
             (name x ++ B)%string).
    rewrite <- HnB, E. apply Hin1. exact Htaken. }
  split; [unfold active_shape_key_index; simpl; lia|].
  unfold active_shape_key. cbn [shape_keys with_keys shapenr].
  rewrite <- Lp, nth_error_length_app. simpl. now rewrite Nx.
Qed.

Lemma split_keeps_names_distinct_witness :
  exists o' kbs',
    split_shapekey_by_groups (Some sample_split_again) "L" "R"
    = Ok (Some ("SmileL", "SmileR"), Some o')
    /\ shape_keys o' = Some kbs'
    /\ NoDup (names kbs').
Proof.
  assert (Hdup : NoDup ["Basis"; "Smile"; "SmileL"; "SmileR"; "Frown"]).
  { repeat constructor; simpl; intros H;
      repeat (destruct H as [H|H]; [discriminate H|]); exact H. }
  destruct (split_keeps_names_distinct sample_split_again
              [plain 1 "Basis"]
              [plain 4 "SmileL"; plain 5 "SmileR"; plain 3 "Frown"]
              (plain 2 "Smile") "L" "R" eq_refl eq_refl eq_refl
              (or_introl eq_refl) (or_intror (or_introl eq_refl)) Hdup)
    as (o' & kbs' & nmA & nmB & Hrun & Hk & _ & Hnd & _).
  exists o', kbs'. split; [exact Hrun|]. split; [exact Hk | exact Hnd].
Defined.

(** X9. On a mesh in Object or Sculpt mode, a successful split leaves
    every blend weight at 0, the weights the entries had before
    included, and empties the mask of the original entry whatever it
    was; the two new entries have no mask, and every other entry keeps
    its identity, name and mask. *)
Theorem split_resets_weights (o : Object) (pre suf : list ShapeKey)
  (x : ShapeKey) (A B : string) :
  mesh_in_mode o = true ->
  shape_keys o = Some (pre ++ x :: suf) ->
  shapenr o = S (List.length pre) ->
  In A (vertex_groups o) ->
  In B (vertex_groups o) ->
  NoDup (names (pre ++ x :: suf)) ->
  exists r o' pre' x' nA nB suf',
    split_shapekey_by_groups (Some o) A B = Ok (Some r, Some o')
    /\ key_list o' = pre' ++ x' :: nA :: nB :: suf'
    /\ Forall (fun kb => value kb = 0%Q) (key_list o')
    /\ Forall2 (alike (sk_ptr x)) pre pre'
    /\ Forall2 (alike (sk_ptr x)) suf suf'
    /\ sk_ptr x' = sk_ptr x /\ name x' = name x /\ vertex_group x' = ""
    /\ vertex_group nA = "" /\ vertex_group nB = "".
Proof.
  intros Hp Hk Hn HA HB Hdup.
  destruct (mesh_in_mode_inv o Hp) as (_ & _ & Hattr & _ & Hm).
  pose proof (NoDup_names_head pre suf x Hdup) as HN.
  destruct (split_steps_any o pre suf x A B Hm Hk Hn HN)
    as (pre' & x' & nA & nB & suf' & Hrun & Vp & Vx & Vs & Hmx & _ & _
        & HmA & HmB & _ & _ & Hval).
  eexists _, _, pre', x', nA, nB, suf'. split.
  { unfold split_shapekey_by_groups, data_shape_keys, active_shape_key.
    rewrite Hattr, Hk, Hn.
    rewrite nth_error_length_app.
    rewrite (vertex_groups_get_present o A HA).
    rewrite (vertex_groups_get_present o B HB).
    unfold on_object. rewrite Hrun. reflexivity. }
  unfold key_list. cbn [shape_keys with_keys].
  split; [reflexivity|]. split; [exact Hval|].
  split; [exact Vp|]. split; [exact Vs|].
  destruct Vx as (Hpx & Hnm & _). auto.
Qed.

Lemma split_resets_weights_witness :
  exists r o',
    split_shapekey_by_groups (Some sample_weighted) "L" "R"
    = Ok (Some r, Some o')
    /\ Forall (fun kb => value kb = 0%Q) (key_list o').
Proof.
  assert (Hdup : NoDup ["Basis"; "Smile"; "Frown"]).
  { repeat constructor; simpl; intros H;
      repeat (destruct H as [H|H]; [discriminate H|]); exact H. }
  destruct (split_resets_weights sample_weighted [plain 1 "Basis"]
              [mkShapeKey 3 "Frown" 1%Q "Mouth"]
              (mkShapeKey 2 "Smile" (1 # 2) "Face") "L" "R"
              eq_refl eq_refl eq_refl
              (or_introl eq_refl) (or_intror (or_introl eq_refl)) Hdup)
    as (r & o' & pre' & x' & nA & nB & suf' & Hrun & _ & Hval & _).
  exists r, o'. split; [exact Hrun | exact Hval].
Defined.

(** ** Checking and creating missing shapekeys *)

Lemma filter_all_false {A : Type} (p : A -> bool) (l : list A) :
  (forall x, In x l -> p x = false) -> filter p l = [].
Proof.
  induction l as [|x l IH]; simpl; intros H; [reflexivity|].
  rewrite (H x (or_introl eq_refl)). apply IH. auto.
Qed.

Lemma names_to_create_covers (missing : list string) :
  forall (present : list string) (n : string),
    In n missing -> In n (present ++ names_to_create present missing).
Proof.
  induction missing as [|m missing IH]; intros present n Hin;
    [contradiction|].
  simpl. destruct (in_dec string_dec m present) as [Hm|Hm].
  - destruct Hin as [<-|Hin]; [apply in_or_app; now left | now apply IH].
  - replace (present ++ m :: names_to_create (present ++ [m]) missing)
      with ((present ++ [m]) ++ names_to_create (present ++ [m]) missing)
      by (now rewrite <- app_assoc).
    destruct Hin as [<-|Hin]; [|now apply IH].
    apply in_or_app. left. apply in_or_app. right. now left.
Qed.

Lemma names_to_create_filter (missing : list string) :
  forall present : list string,
    NoDup missing ->
    names_to_create present missing
    = filter (fun n => negb (mem n present)) missing.
Proof.
  induction missing as [|m missing IH]; intros present Hnd;
    [reflexivity|].
  inversion Hnd as [|? ? Hnin Hnd']; subst. simpl.
  destruct (in_dec string_dec m present) as [Hm|Hm].
  - apply mem_In in Hm. rewrite Hm. simpl. now apply IH.
  - pose proof Hm as Hm'. apply mem_not_In in Hm'. rewrite Hm'. simpl.
    f_equal. rewrite (IH _ Hnd'). apply filter_ext_in. intros n Hn.
    f_equal. unfold mem. rewrite existsb_app. simpl.
    destruct (String.eqb_spec n m) as [->|_]; [contradiction|].
    now rewrite !orb_false_r.
Qed.

(** What a check that ends normally was given and what it leaves. *)
Lemma get_missing_Ok_inv (obj obj' : option Object)
  (expected missing : list string) :
  get_missing_shapekeys obj expected = Ok (missing, obj') ->
  obj' = obj
  /\ missing = filter (fun n => negb (mem n (present_names obj))) expected
  /\ (forall o, obj = Some o -> has_shape_keys_attr o = true).
Proof.
  intros H.
  assert (Hattr : forall o, obj = Some o -> has_shape_keys_attr o = true).
  { intros o ->. unfold get_missing_shapekeys, data_shape_keys in H.
    destruct (has_shape_keys_attr o); [reflexivity | discriminate]. }
  rewrite (get_missing_by_filter obj expected Hattr) in H.
  injection H as <- <-. auto.
Qed.

Lemma check_missing_result (L : ShapekeyLists) (context : Context) :
  (forall t, pawlygon_target_object (scene context) = Some t ->
             has_shape_keys_attr t = true) ->
  let missing :=
    filter (fun n =>
              negb (mem n (present_names
                             (pawlygon_target_object (scene context)))))
      (dict_get L (pawlygon_list_name (scene context))) in
  PU_OT_check_missing_execute L context
  = Ok (mkOutcome
          (match missing with
           | _ :: _ =>
               ("INFO",
                ("Found " ++ str_of_nat (List.length missing)
                 ++ " missing shapekeys")%string)
           | [] => ("INFO", "All shapekeys present!")
           end)
          FINISHED,
        mkContext (active_object context)
          (mkScene (pawlygon_target_object (scene context))
             (pawlygon_list_name (scene context))
             (Z.of_nat (List.length missing))
             (map PawlygonMissingItem.mk missing)
             (pawlygon_missing_index (scene context)))).
Proof.
  intros Hattr. unfold PU_OT_check_missing_execute.
  now rewrite (get_missing_by_filter _ _ Hattr).
Qed.

Lemma check_missing_Ok_inv (L : ShapekeyLists) (context context1 : Context)
  (out : Outcome) :
  PU_OT_check_missing_execute L context = Ok (out, context1) ->
  forall t, pawlygon_target_object (scene context) = Some t ->
            has_shape_keys_attr t = true.
Proof.
  unfold PU_OT_check_missing_execute. intros H.
  destruct (get_missing_shapekeys _ _) as [[missing target']| |] eqn:E;
    try discriminate.
  apply get_missing_Ok_inv in E. apply E.
Qed.

Lemma item_names (l : list string) :
  map PawlygonMissingItem.name (map PawlygonMissingItem.mk l) = l.
Proof. rewrite map_map. simpl. apply map_id. Qed.

Lemma Forall_filter {A : Type} (P : A -> Prop) (p : A -> bool)
  (l : list A) :
  Forall P l -> Forall P (filter p l).
Proof.
  intros H. apply Forall_forall. intros x Hin. apply filter_In in Hin.
  rewrite Forall_forall in H. apply H, Hin.
Qed.

(** X10. Check, create, check again, on a mesh target and with expected
    names that fit the host's name field: once the missing names found
    by a check have been created, a second check against the same list
    reports that all shapekeys are present, stores count 0 and an empty
    list, and leaves the create operator disabled. *)
Theorem check_create_check (L : ShapekeyLists) (context : Context)
  (target : Object) :
  pawlygon_target_object (scene context) = Some target ->
  type target = "MESH" ->
  Forall (fun n => fits n = true)
    (dict_get L (pawlygon_list_name (scene context))) ->
  exists out1 context1 out created context2,
    PU_OT_check_missing_execute L context = Ok (out1, context1)
    /\ PU_OT_create_missing_execute context1 = Ok (out, created, context2)
    /\ PU_OT_check_missing_execute L context2
       = Ok (mkOutcome ("INFO", "All shapekeys present!") FINISHED,
             context2)
    /\ PU_OT_create_missing_poll context2 = false.
Proof.
  intros Ht Hmesh Hfit.
  destruct (mesh_has_attr target Hmesh) as (Hattr & _).
  rewrite check_missing_result
    by (intros t Et; rewrite Ht in Et; now injection Et as <-).
  rewrite Ht.
  set (expected := dict_get L (pawlygon_list_name (scene context))) in *.
  set (missing := filter _ expected).
  destruct (create_missing_steps_spec
              (map PawlygonMissingItem.mk missing) target Hmesh)
    as (news & Hrun & Hn & _).
  rewrite item_names in Hn.
  rewrite (names_created_fitting missing _ (Forall_filter _ _ _ Hfit)) in Hn.
  eexists _, _, _, _, _. split; [reflexivity|].
  unfold PU_OT_create_missing_execute.
  cbn [scene pawlygon_target_object pawlygon_missing_list
       pawlygon_list_name pawlygon_missing_index active_object].
  rewrite Hrun. split; [reflexivity|].
  split; [|reflexivity].
  rewrite check_missing_result.
  2:{ cbn [scene pawlygon_target_object]. intros t Et. injection Et as <-.
      unfold has_shape_keys_attr in *. exact Hattr. }
  cbn [scene pawlygon_target_object pawlygon_missing_list
       pawlygon_list_name pawlygon_missing_index active_object].
  fold expected.
  assert (Hnone :
    filter (fun n =>
              negb (mem n (present_names
                             (Some (with_keys target
                                      (Some (base_ensured target ++ news))
                                      (base_ensured_nr target))))))
      expected = []).
  { apply filter_all_false. intros n Hin.
    unfold present_names, key_list. cbn [shape_keys with_keys].
    apply negb_false_iff, mem_In. unfold names. rewrite map_app.
    fold (names news) (names (base_ensured target)). rewrite Hn.
    destruct (mem n (present_names (Some target))) eqn:Hp.
    - apply in_or_app. left. apply mem_In in Hp.
      unfold present_names, key_list, base_ensured in *.
      destruct (shape_keys target); [exact Hp | contradiction].
    - apply names_to_create_covers. unfold missing. apply filter_In.
      split; [exact Hin|]. now rewrite Hp. }
  rewrite Hnone. reflexivity.
Qed.

Lemma check_create_check_witness :
  exists out1 context1 out created context2,
    PU_OT_check_missing_execute sample_lists sample_check
    = Ok (out1, context1)
    /\ PU_OT_create_missing_execute context1 = Ok (out, created, context2)
    /\ PU_OT_check_missing_execute sample_lists context2
       = Ok (mkOutcome ("INFO", "All shapekeys present!") FINISHED,
             context2).
Proof.
  assert (Hfit : Forall (fun n => fits n = true)
                   (dict_get sample_lists
                      (pawlygon_list_name (scene sample_check)))).
  { repeat constructor. }
  destruct (check_create_check sample_lists sample_check _ eq_refl eq_refl
              Hfit)
    as (out1 & context1 & out & created & context2 & H1 & H2 & H3 & _).
  exists out1, context1, out, created, context2. auto.
Defined.

Lemma filter_out_one (a : string) (l : list string) :
  NoDup l -> In a l ->
  S (List.length (filter (fun n => negb (mem n [a])) l)) = List.length l.
Proof.
  induction l as [|x l IH]; intros Hnd Hin; [contradiction|].
  inversion Hnd as [|? ? Hx Hnd']; subst. simpl.
  destruct (String.eqb_spec x a) as [->|Hne]; simpl.
  - f_equal. f_equal. apply filter_all_true. intros n Hn.
    destruct (String.eqb_spec n a) as [->|_]; [contradiction|reflexivity].
  - f_equal. destruct Hin as [E|Hin]; [contradiction|]. now apply IH.
Qed.

(** X11. On a mesh target, with an expected list that has no repeated
    name and whose names fit the host's name field, the create operator
    run right after a check creates as many shapekeys as the check
    counted, except that on a target without a collection the name
    [Basis], when expected, is counted by the check but not created as a
    missing one: the ensured base entry already carries it. *)
Theorem create_reports_check_count (L : ShapekeyLists) (context : Context)
  (target : Object) :
  pawlygon_target_object (scene context) = Some target ->
  type target = "MESH" ->
  NoDup (dict_get L (pawlygon_list_name (scene context))) ->
  Forall (fun n => fits n = true)
    (dict_get L (pawlygon_list_name (scene context))) ->
  exists out1 context1 out created context2,
    PU_OT_check_missing_execute L context = Ok (out1, context1)
    /\ PU_OT_create_missing_execute context1 = Ok (out, created, context2)
    /\ (shape_keys target <> None
        \/ ~ In "Basis" (dict_get L (pawlygon_list_name (scene context))) ->
        Z.of_nat created = pawlygon_missing_count (scene context1))
    /\ (shape_keys target = None ->
        In "Basis" (dict_get L (pawlygon_list_name (scene context))) ->
        Z.of_nat (S created) = pawlygon_missing_count (scene context1)).
Proof.
  intros Ht Hmesh Hnd Hfit.
  rewrite check_missing_result
    by (intros t Et; rewrite Ht in Et; injection Et as <-;
        now apply mesh_has_attr).
  rewrite Ht.
  set (expected := dict_get L (pawlygon_list_name (scene context))) in *.
  set (missing := filter _ expected).
  destruct (create_missing_steps_spec
              (map PawlygonMissingItem.mk missing) target Hmesh)
    as (news & Hrun & Hn & _).
  rewrite item_names in Hn.
  rewrite (names_created_fitting missing _ (Forall_filter _ _ _ Hfit)) in Hn.
  assert (Hm : NoDup missing) by (now apply NoDup_filter).
  rewrite (names_to_create_filter _ _ Hm) in Hn.
  assert (Hlen : List.length news
                 = List.length
                     (filter (fun n =>
                                negb (mem n (names (base_ensured target))))
                        missing)).
  { rewrite <- Hn. unfold names. now rewrite length_map. }
  eexists _, _, _, _, _. split; [reflexivity|].
  unfold PU_OT_create_missing_execute.
  cbn [scene pawlygon_target_object pawlygon_missing_list
       pawlygon_list_name pawlygon_missing_index active_object
       pawlygon_missing_count].
  rewrite Hrun. split; [reflexivity|]. rewrite Hlen.
  unfold base_ensured. subst missing. unfold present_names, key_list.
  split.
  - intros Hcase. f_equal. f_equal.
    destruct (shape_keys target) as [kbs|].
    + apply filter_idem.
    + destruct Hcase as [Hc|Hc]; [congruence|].
      apply filter_all_true. intros n Hin. apply filter_In in Hin.
      destruct Hin as (Hin & _). simpl.
      destruct (String.eqb_spec n "Basis") as [->|_];
        [contradiction|reflexivity].
  - intros Hnone Hb. rewrite Hnone. f_equal.
    rewrite (filter_all_true (fun n => negb (mem n (names []))) expected)
      by reflexivity.
    now apply (filter_out_one "Basis").
Qed.

Lemma create_reports_check_count_witness :
  exists out1 context1 out created context2,
    PU_OT_check_missing_execute sample_lists sample_check
    = Ok (out1, context1)
    /\ PU_OT_create_missing_execute context1 = Ok (out, created, context2)
    /\ Z.of_nat created = pawlygon_missing_count (scene context1).
Proof.
  assert (Hnd : NoDup (dict_get sample_lists
                         (pawlygon_list_name (scene sample_check)))).
  { simpl. repeat constructor; simpl; intuition discriminate. }
  assert (Hfit : Forall (fun n => fits n = true)
                   (dict_get sample_lists
                      (pawlygon_list_name (scene sample_check)))).
  { repeat constructor. }
  destruct (create_reports_check_count sample_lists sample_check _
              eq_refl eq_refl Hnd Hfit)
    as (out1 & context1 & out & created & context2 & H1 & H2 & Hcount & _).
  exists out1, context1, out, created, context2.
  split; [exact H1|]. split; [exact H2|].
  apply Hcount. left. discriminate.
Defined.

(** X12. On a mesh target the create operator keeps names distinct:
    when the target's names are distinct before, they are distinct
    after, whatever the stored missing list holds, repeated names and
    names the host has to change included. *)
Theorem create_missing_keeps_names_distinct (context : Context)
  (target : Object) :
  pawlygon_target_object (scene context) = Some target ->
  type target = "MESH" ->
  NoDup (names (key_list target)) ->
  exists out created context2 target2,
    PU_OT_create_missing_execute context = Ok (out, created, context2)
    /\ pawlygon_target_object (scene context2) = Some target2
    /\ NoDup (names (key_list target2))
    /\ incl (names (key_list target)) (names (key_list target2))
    /\ List.length (key_list target2)
       = List.length (base_ensured target) + created.
Proof.
  intros Ht Hmesh Hnd. unfold PU_OT_create_missing_execute. rewrite Ht.
  destruct (create_missing_steps_spec
              (pawlygon_missing_list (scene context)) target Hmesh)
    as (news & Hrun & Hn & _).
  rewrite Hrun. eexists _, _, _, _. split; [reflexivity|].
  split; [reflexivity|].
  unfold key_list at 1 3 4. cbn [shape_keys with_keys].
  unfold names at 1 3. rewrite !map_app.
  fold (names news) (names (base_ensured target)). rewrite Hn.
  split; [|split].
  - apply names_created_NoDup. unfold base_ensured, key_list in *.
    destruct (shape_keys target); [exact Hnd|].
    simpl. constructor; [easy | constructor].
  - intros n Hin. apply in_or_app. left.
    unfold base_ensured, key_list in *.
    destruct (shape_keys target); [exact Hin | contradiction].
  - now rewrite length_app.
Qed.

Lemma create_missing_keeps_names_distinct_witness :
  exists out created context2 target2,
    PU_OT_create_missing_execute sample_missing
    = Ok (out, created, context2)
    /\ pawlygon_target_object (scene context2) = Some target2
    /\ NoDup (names (key_list target2)).
Proof.
  assert (Hnd : NoDup (names [plain 1 "Basis"; plain 2 "Smile";
                              plain 3 "Smile.old"; plain 4 "Frown"])).
  { simpl. repeat constructor; simpl; intuition discriminate. }
  destruct (create_missing_keeps_names_distinct sample_missing _ eq_refl
              eq_refl Hnd)
    as (out & created & context2 & target2 & Hrun & Ht & Hd & _).
  exists out, created, context2, target2. repeat split; assumption.
Defined.

(** ** The split operator and its panel *)

Lemma split_poll_inv (context : Context) :
  PU_OT_split_shapekey_poll context = true ->
  exists o kbs x,
    active_object context = Some o
    /\ mesh_in_mode o = true
    /\ shape_keys o = Some kbs
    /\ active_shape_key o = Some x.
Proof.
  unfold PU_OT_split_shapekey_poll. intros Hp.
  destruct (active_object context) as [o|]; [|discriminate].
  apply andb_prop in Hp. destruct Hp as (Hp & Hmode).
  apply andb_prop in Hp. destruct Hp as (Hp & Ha).
  apply andb_prop in Hp. destruct Hp as (Hty & Hk).
  destruct (shape_keys o) as [kbs|] eqn:Ek; [|discriminate].
  destruct (active_shape_key o) as [x|] eqn:Ea; [|discriminate].
  exists o, kbs, x. split; [reflexivity|]. split; [|split; assumption].
  unfold mesh_in_mode. now rewrite Hty, Hmode.
Qed.

Lemma split_execute_finishes (A B : string) (context : Context)
  (o : Object) (kbs : list ShapeKey) (x : ShapeKey) :
  active_object context = Some o ->
  mesh_in_mode o = true ->
  shape_keys o = Some kbs ->
  active_shape_key o = Some x ->
  NoDup (names kbs) ->
  In A (vertex_groups o) ->
  In B (vertex_groups o) ->
  exists o',
    PU_OT_split_shapekey_execute A B context
    = Ok (mkOutcome
            ("INFO",
             ("Created: " ++ (name x ++ A) ++ " and " ++ (name x ++ B))
               %string)
            FINISHED,
          mkContext (Some o') (scene context))
    /\ List.length (key_list o') = List.length kbs + 2.
Proof.
  intros Ho Hp Hk Ha Hnd HA HB.
  destruct (mesh_in_mode_inv o Hp) as (_ & _ & Hattr & _ & Hm).
  destruct (active_entry_splits o kbs x Hk Ha) as (pre & suf & -> & Hn).
  pose proof (NoDup_names_head pre suf x Hnd) as HN.
  destruct (split_steps_any o pre suf x A B Hm Hk Hn HN)
    as (pre' & x' & nA & nB & suf' & Hrun & Vp & _ & Vs & _).
  eexists. split.
  - unfold PU_OT_split_shapekey_execute, split_shapekey_by_groups,
      data_shape_keys.
    rewrite Ho, Hattr, Hk, Ha.
    rewrite (vertex_groups_get_present o A HA).
    rewrite (vertex_groups_get_present o B HB).
    unfold on_object. rewrite Hrun. reflexivity.
  - unfold key_list. cbn [shape_keys with_keys].
    apply Forall2_length in Vp. apply Forall2_length in Vs.
    rewrite !length_app. cbn [List.length]. lia.
Qed.

Lemma split_execute_cancels (A B : string) (context : Context) :
  match active_object context with
  | None => True
  | Some o =>
      has_shape_keys_attr o = true
      /\ (shape_keys o = None \/ active_shape_key o = None
          \/ ~ In A (vertex_groups o) \/ ~ In B (vertex_groups o))
  end ->
  PU_OT_split_shapekey_execute A B context
  = Ok (mkOutcome ("WARNING", "Could not split. Check vertex groups exist.")
          CANCELLED,
        context).
Proof.
  destruct context as [ao sc].
  unfold PU_OT_split_shapekey_execute, split_shapekey_by_groups,
    data_shape_keys.
  cbn [active_object scene].
  destruct ao as [o|]; [|reflexivity]. intros (Hattr & H). rewrite Hattr.
  destruct (shape_keys o) as [kbs|] eqn:Hk; [|reflexivity].
  destruct (active_shape_key o) as [x|] eqn:Ha; [|reflexivity].
  destruct H as [H|[H|[H|H]]]; try discriminate.
  - now rewrite (vertex_groups_get_absent o A H).
  - rewrite (vertex_groups_get_absent o B H).
    now destruct (vertex_groups_get o A).
Qed.

(** X13. Outcome of the split operator where its poll passes and the
    names of the collection are distinct: with both vertex groups
    present it finishes, reports "Created: N+A and N+B" for the active
    name N and leaves two entries more; with a group absent it is
    cancelled with the warning and the context is left as it was. *)
Theorem split_operator_outcome (A B : string) (context : Context) :
  PU_OT_split_shapekey_poll context = true ->
  NoDup (present_names (active_object context)) ->
  exists o x,
    active_object context = Some o
    /\ active_shape_key o = Some x
    /\ (In A (vertex_groups o) -> In B (vertex_groups o) ->
        exists o',
          PU_OT_split_shapekey_execute A B context
          = Ok (mkOutcome
                  ("INFO",
                   ("Created: " ++ (name x ++ A) ++ " and " ++ (name x ++ B))
                     %string)
                  FINISHED,
                mkContext (Some o') (scene context))
          /\ List.length (key_list o') = List.length (key_list o) + 2)
    /\ (~ (In A (vertex_groups o) /\ In B (vertex_groups o)) ->
        PU_OT_split_shapekey_execute A B context
        = Ok (mkOutcome
                ("WARNING", "Could not split. Check vertex groups exist.")
                CANCELLED,
              context)).
Proof.
  intros Hp Hnd.
  destruct (split_poll_inv context Hp)
    as (o & kbs & x & Ho & Hmesh & Hk & Ha).
  exists o, x. split; [exact Ho|]. split; [exact Ha|].
  rewrite Ho in Hnd. unfold present_names, key_list in *.
  rewrite Hk in *. split.
  - intros HA HB.
    now apply (split_execute_finishes A B context o kbs x).
  - intros Hno. apply split_execute_cancels. rewrite Ho.
    split; [apply (mesh_in_mode_inv o Hmesh)|].
    right. right.
    destruct (in_dec string_dec A (vertex_groups o)) as [HA|HA];
      [|now left].
    right. intros HB. apply Hno. now split.
Qed.

Lemma split_operator_outcome_witness :
  exists o',
    PU_OT_split_shapekey_execute "L" "R" (sample_split_context sample_split)
    = Ok (mkOutcome ("INFO", "Created: SmileL and SmileR") FINISHED,
          mkContext (Some o') (scene (sample_split_context sample_split)))
    /\ PU_OT_split_shapekey_execute "L" "Up"
         (sample_split_context sample_split)
       = Ok (mkOutcome
               ("WARNING", "Could not split. Check vertex groups exist.")
               CANCELLED,
             sample_split_context sample_split).
Proof.
  assert (Hnd : NoDup (present_names
                         (active_object
                            (sample_split_context sample_split)))).
  { simpl. repeat constructor; simpl; intuition discriminate. }
  destruct (split_operator_outcome "L" "R"
              (sample_split_context sample_split) eq_refl Hnd)
    as (o & x & Ho & Hx & Hok & _).
  destruct (split_operator_outcome "L" "Up"
              (sample_split_context sample_split) eq_refl Hnd)
    as (o2 & _ & Ho2 & _ & _ & Hno).
  injection Ho as <-. injection Hx as <-. injection Ho2 as <-.
  destruct Hok as (o' & Hrun & _);
    [simpl; now left | simpl; right; now left |].
  exists o'. split; [exact Hrun|].
  apply Hno. simpl. intros (_ & [H|[H|[]]]); discriminate.
Defined.

Lemma split_panel_condition (context : Context) (a b : string) :
  split_is_valid (active_object context)
  && (mem a (vg_names (active_object context))
      && mem b (vg_names (active_object context)))
  && is_correct_mode (active_object context) = true
  <-> PU_OT_split_shapekey_poll context = true
      /\ In a (vg_names (active_object context))
      /\ In b (vg_names (active_object context)).
Proof.
  unfold PU_OT_split_shapekey_poll, split_is_valid, is_correct_mode.
  rewrite <- !mem_In. destruct (active_object context) as [o|].
  - destruct (String.eqb (type o) "MESH"), (truthy (shape_keys o)),
      (truthy (active_shape_key o)), (correct_mode o),
      (mem a (vg_names (Some o))), (mem b (vg_names (Some o))); simpl;
      intuition discriminate.
  - simpl. intuition discriminate.
Qed.

(** X14. The split panel draws one column per configured pair after a
    status line and a separator. The enabled button of a pair, carrying
    the two group names as operator properties, is drawn exactly when
    the split operator's poll passes and both groups are on the object;
    with distinct names, pressing a drawn enabled button finishes. *)
Theorem split_panel_button (VERTEX_GROUP_PAIRS : list (string * string))
  (context : Context) (a b : string) :
  In (a, b) VERTEX_GROUP_PAIRS ->
  List.length (PU_PT_split_panel_draw VERTEX_GROUP_PAIRS context)
  = 2 + List.length VERTEX_GROUP_PAIRS
  /\ (In (Column true
            [OperatorButton "pawlygon.split_shapekey"
               ("Split " ++ a ++ "/" ++ b)%string
               [("group_a", a); ("group_b", b)]])
        (PU_PT_split_panel_draw VERTEX_GROUP_PAIRS context)
      <-> PU_OT_split_shapekey_poll context = true
          /\ In a (vg_names (active_object context))
          /\ In b (vg_names (active_object context)))
  /\ (In (Column true
            [OperatorButton "pawlygon.split_shapekey"
               ("Split " ++ a ++ "/" ++ b)%string
               [("group_a", a); ("group_b", b)]])
        (PU_PT_split_panel_draw VERTEX_GROUP_PAIRS context) ->
      NoDup (present_names (active_object context)) ->
      exists out context',
        PU_OT_split_shapekey_execute a b context = Ok (out, context')
        /\ status out = FINISHED).
Proof.
  intros Hin.
  assert (Hiff :
    In (Column true
          [OperatorButton "pawlygon.split_shapekey"
             ("Split " ++ a ++ "/" ++ b)%string
             [("group_a", a); ("group_b", b)]])
      (PU_PT_split_panel_draw VERTEX_GROUP_PAIRS context)
    <-> PU_OT_split_shapekey_poll context = true
        /\ In a (vg_names (active_object context))
        /\ In b (vg_names (active_object context))).
  { rewrite <- split_panel_condition. unfold PU_PT_split_panel_draw.
    split.
    - intros H. apply in_app_or in H. destruct H as [H|H].
      { unfold split_status in H.
        destruct (negb (is_correct_mode (active_object context)));
          [destruct H as [H|[]]; discriminate|].
        destruct (active_object context) as [o|];
          [|destruct H as [H|[]]; discriminate].
        destruct (split_is_valid (Some o)), (active_shape_key o);
          destruct H as [H|[]]; discriminate. }
      apply in_app_or in H. destruct H as [[H|[]]|H]; [discriminate|].
      apply in_map_iff in H. destruct H as ((a' & b') & H & _).
      unfold split_pair_column in H.
      destruct (split_is_valid (active_object context)
                && (mem a' (vg_names (active_object context))
                    && mem b' (vg_names (active_object context)))
                && is_correct_mode (active_object context)) eqn:Hc;
        [|discriminate].
      injection H as _ <- <-. exact Hc.
    - intros Hc. apply in_or_app. right. apply in_or_app. right.
      apply in_map_iff. exists (a, b). split; [|exact Hin].
      unfold split_pair_column. now rewrite Hc. }
  split; [|split; [exact Hiff|]].
  - unfold PU_PT_split_panel_draw. rewrite !length_app, length_map.
    assert (Hs : List.length (split_status (active_object context)) = 1).
    { unfold split_status.
      destruct (negb (is_correct_mode (active_object context)));
        [reflexivity|].
      destruct (active_object context) as [o|]; [|reflexivity].
      now destruct (split_is_valid (Some o)), (active_shape_key o). }
    rewrite Hs. reflexivity.
  - intros Hbtn Hnd. apply Hiff in Hbtn. destruct Hbtn as (Hp & Ha & Hb).
    destruct (split_poll_inv context Hp)
      as (o & kbs & x & Ho & Hmesh & Hk & Hx).
    rewrite Ho in *. unfold present_names, key_list in Hnd.
    rewrite Hk in Hnd. simpl in Ha, Hb.
    destruct (split_execute_finishes a b context o kbs x Ho Hmesh Hk Hx Hnd
                Ha Hb)
      as (o' & Hrun & _).
    eexists _, _. split; [exact Hrun | reflexivity].
Qed.

Lemma split_panel_button_witness :
  In (Column true
        [OperatorButton "pawlygon.split_shapekey" "Split L/R"
           [("group_a", "L"); ("group_b", "R")]])
    (PU_PT_split_panel_draw [("L", "R"); ("Up", "Down")]
       (sample_split_context sample_split)).
Proof.
  apply (split_panel_button [("L", "R"); ("Up", "Down")]
           (sample_split_context sample_split) "L" "R").
  - simpl. now left.
  - split; [reflexivity|]. simpl. split; [now left | right; now left].
Defined.

(** ** The cleanup operators and their panel *)

(** X15. What the cleanup panel draws. With no active object, or with a
    mesh that has no shapekey collection, [is_valid and is_correct_mode]
    is [None] and the assignment to [col.enabled] raises [TypeError]:
    the two buttons are not drawn. In every other case the panel is
    drawn, and the column holding the two buttons is enabled exactly
    when the polls of both operators pass, with a status line before it
    exactly when it is disabled. *)
Theorem cleanup_panel_enabled (context : Context) :
  (PU_PT_cleanup_panel_draw context = Raise TypeError
   <-> active_object context = None
       \/ exists o,
            active_object context = Some o
            /\ type o = "MESH" /\ shape_keys o = None)
  /\ (forall widgets,
        PU_PT_cleanup_panel_draw context = Ok widgets ->
        exists hint enabled,
          widgets
          = hint
            ++ [Column enabled
                  [OperatorButton "pawlygon.move_old_shapekeys"
                     "Move .old to Bottom" [];
                   OperatorButton "pawlygon.delete_old_shapekeys"
                     "Delete .old Shapekeys" []]]
          /\ enabled = PU_OT_move_old_shapekeys_poll context
          /\ enabled = PU_OT_delete_old_shapekeys_poll context
          /\ (hint = [] <-> enabled = true)
          /\ List.length hint = (if enabled then 0 else 1))
  /\ (PU_OT_move_old_shapekeys_poll context = true ->
      exists widgets, PU_PT_cleanup_panel_draw context = Ok widgets).
Proof.
  unfold PU_PT_cleanup_panel_draw, cleanup_enabled_value,
    PU_OT_move_old_shapekeys_poll, PU_OT_delete_old_shapekeys_poll,
    cleanup_is_valid, is_correct_mode, correct_mode.
  destruct (active_object context) as [o|].
  - destruct (String.eqb_spec (type o) "MESH") as [Ety|Ety].
    + destruct (shape_keys o) as [kbs|] eqn:Ek.
      * split; [|split].
        -- split; [discriminate|].
           intros [H|(o' & Ho & _ & Hk)]; [discriminate|].
           injection Ho as <-. congruence.
        -- intros widgets H. injection H as <-. eexists _, _.
           split; [reflexivity|].
           destruct (String.eqb (mode o) "OBJECT"),
             (String.eqb (mode o) "SCULPT"); simpl;
             repeat split; try reflexivity; intros; discriminate.
        -- intros _. eexists. reflexivity.
      * split; [|split].
        -- split; [|reflexivity]. intros _. right. now exists o.
        -- discriminate.
        -- simpl. discriminate.
    + split; [|split].
      * split; [discriminate|].
        intros [H|(o' & Ho & Ht & _)]; [discriminate|].
        injection Ho as <-. contradiction.
      * intros widgets H. injection H as <-. eexists _, _.
        split; [reflexivity|]. simpl.
        destruct (String.eqb (mode o) "OBJECT"),
          (String.eqb (mode o) "SCULPT"); simpl;
          repeat split; try reflexivity; intros; discriminate.
      * simpl. discriminate.
  - split; [|split].
    + split; [|reflexivity]. intros _. now left.
    + discriminate.
    + discriminate.
Qed.

Lemma cleanup_panel_enabled_witness :
  PU_PT_cleanup_panel_draw (sample_context sample_bare) = Raise TypeError
  /\ exists widgets,
       PU_PT_cleanup_panel_draw (sample_context sample_cleanup) = Ok widgets.
Proof.
  split.
  - apply (cleanup_panel_enabled (sample_context sample_bare)).
    right. exists sample_bare. repeat split.
  - apply (cleanup_panel_enabled (sample_context sample_cleanup)).
    reflexivity.
Defined.

(** X16. What the cleanup operators do outside and inside their polls.
    With no active object, or a mesh without a shapekey collection, both
    [execute] methods raise [TypeError] at the comparison of [None] with
    0; on an Empty both raise [AttributeError] at
    [obj.data.shape_keys]; neither reports anything. Where the poll
    passes both finish, and each reports that no [.old] shapekeys were
    found exactly when its utility counted zero entries. *)
Theorem cleanup_execute_needs_collection (fuel : nat) (context : Context) :
  (active_object context = None
   \/ (exists o,
         active_object context = Some o
         /\ type o = "MESH" /\ shape_keys o = None) ->
   PU_OT_move_old_shapekeys_execute fuel context = Raise TypeError
   /\ PU_OT_delete_old_shapekeys_execute context = Raise TypeError)
  /\ ((exists o, active_object context = Some o /\ type o = "EMPTY") ->
      PU_OT_move_old_shapekeys_execute fuel context = Raise AttributeError
      /\ PU_OT_delete_old_shapekeys_execute context = Raise AttributeError)
  /\ (PU_OT_move_old_shapekeys_poll context = true ->
      List.length (present_names (active_object context)) <= fuel ->
      exists o kbs o1 o2,
        active_object context = Some o
        /\ shape_keys o = Some kbs
        /\ PU_OT_move_old_shapekeys_execute fuel context
           = Ok (mkOutcome
                   (match movable kbs with
                    | [] => ("INFO", "No .old shapekeys found")
                    | _ :: _ =>
                        ("INFO",
                         ("Moved " ++ str_of_nat (List.length (movable kbs))
                          ++ " shapekey(s) to bottom")%string)
                    end)
                   FINISHED,
                 mkContext (Some o1) (scene context))
        /\ PU_OT_delete_old_shapekeys_execute context
           = Ok (mkOutcome
                   (match filter is_old kbs with
                    | [] => ("INFO", "No .old shapekeys found")
                    | _ :: _ =>
                        ("INFO",
                         ("Deleted "
                          ++ str_of_nat (List.length (filter is_old kbs))
                          ++ " shapekey(s)")%string)
                    end)
                   FINISHED,
                 mkContext (Some o2) (scene context))).
Proof.
  unfold PU_OT_move_old_shapekeys_execute, PU_OT_delete_old_shapekeys_execute.
  split; [|split].
  - intros [Ho|(o & Ho & Ht & Hk)]; rewrite Ho; [now split|].
    unfold move_old_shapekeys_to_bottom, delete_old_shapekeys,
      data_shape_keys, has_shape_keys_attr.
    rewrite Ht, Hk. now split.
  - intros (o & Ho & Ht). rewrite Ho.
    unfold move_old_shapekeys_to_bottom, delete_old_shapekeys,
      data_shape_keys, has_shape_keys_attr.
    rewrite Ht. now split.
  - unfold PU_OT_move_old_shapekeys_poll. intros Hpoll Hfuel.
    destruct (active_object context) as [o|] eqn:Ho; [|discriminate].
    destruct (poll_gives_collection o Hpoll) as (Hp & kbs & Hk).
    unfold present_names, key_list in Hfuel. rewrite Hk in Hfuel.
    unfold names in Hfuel. rewrite length_map in Hfuel.
    destruct (move_old_spec o kbs fuel Hp Hk Hfuel) as (o1 & Hm & _).
    destruct (delete_old_spec o kbs Hp Hk) as (o2 & Hd & _).
    exists o, kbs, o1, o2. split; [reflexivity|]. split; [exact Hk|].
    rewrite Hm, Hd. split.
    + now destruct (movable kbs).
    + now destruct (filter is_old kbs).
Qed.

Lemma cleanup_execute_needs_collection_witness :
  PU_OT_move_old_shapekeys_execute 0 (sample_context sample_bare)
  = Raise TypeError
  /\ PU_OT_delete_old_shapekeys_execute (sample_context sample_empty)
     = Raise AttributeError.
Proof.
  split.
  - apply (cleanup_execute_needs_collection 0 (sample_context sample_bare)).
    right. exists sample_bare. repeat split.
  - apply (cleanup_execute_needs_collection 0 (sample_context sample_empty)).
    exists sample_empty. split; reflexivity.
Defined.

(** ** The list selector and the missing panel *)

(** X17. Every entry offered by [get_list_items] shows its identifier as
    its name, and its identifier resolves in the dictionary: the lookup
    made by the check operator finds a stored list for it. *)
Theorem offered_list_resolves (L : ShapekeyLists)
  (it : string * string * string) :
  In it (get_list_items L) ->
  snd (fst it) = fst (fst it)
  /\ snd it = ("Check against " ++ fst (fst it) ++ " list")%string
  /\ In (fst (fst it), dict_get L (fst (fst it))) L.
Proof.
  unfold get_list_items. intros Hin. apply in_map_iff in Hin.
  destruct Hin as ((k & v) & <- & Hin). simpl.
  split; [reflexivity|]. split; [reflexivity|].
  induction L as [|(k0 & v0) L IH]; [contradiction|]. simpl.
  destruct (String.eqb_spec k0 k) as [->|Hne]; [now left|].
  right. apply IH. destruct Hin as [E|Hin]; [congruence | exact Hin].
Qed.

Lemma offered_list_resolves_witness :
  In ("Eyes", dict_get sample_lists "Eyes") sample_lists.
Proof.
  apply (offered_list_resolves sample_lists
           ("Eyes", "Eyes", "Check against Eyes list")).
  simpl. right. now left.
Defined.




(** X19. A check with no target or a mesh target ends normally. After a
    check, the missing panel draws the create button exactly when the
    check found a missing name; the label drawn with it shows the number
    of stored names, and with a target set the button is drawn exactly
    when the create operator's poll passes. *)
Theorem missing_panel_after_check (L : ShapekeyLists) (context : Context) :
  ((forall t, pawlygon_target_object (scene context) = Some t ->
              type t = "MESH") ->
   exists out context1,
     PU_OT_check_missing_execute L context = Ok (out, context1))
  /\ forall out context1,
  PU_OT_check_missing_execute L context = Ok (out, context1) ->
  (In (OperatorButton "pawlygon.create_missing" "Create Missing" [])
     (PU_PT_missing_panel_draw context1)
   <-> pawlygon_missing_list (scene context1) <> [])
  /\ (In (OperatorButton "pawlygon.create_missing" "Create Missing" [])
        (PU_PT_missing_panel_draw context1) ->
      In (Label
            ("Missing: "
             ++ str_of_nat
                  (List.length (pawlygon_missing_list (scene context1)))
             ++ " shapekeys")%string "ERROR")
        (PU_PT_missing_panel_draw context1))
  /\ (PU_OT_check_missing_poll context = true ->
      (In (OperatorButton "pawlygon.create_missing" "Create Missing" [])
         (PU_PT_missing_panel_draw context1)
       <-> PU_OT_create_missing_poll context1 = true)).
Proof.
  split.
  { intros Hmesh. eexists _, _. apply check_missing_result.
    intros t Ht. now apply mesh_has_attr, Hmesh. }
  intros out context1 Hcheck.
  pose proof (check_missing_Ok_inv L context context1 out Hcheck) as Hattr.
  rewrite (check_missing_result L context Hattr) in Hcheck.
  injection Hcheck as _ <-.
  set (missing := filter _ _).
  unfold PU_PT_missing_panel_draw, PU_OT_create_missing_poll,
    PU_OT_check_missing_poll.
  cbn [scene pawlygon_missing_count pawlygon_missing_list
       pawlygon_target_object].
  rewrite length_map, Nat2Z.id.
  destruct missing as [|m missing].
  - simpl. repeat split; intros;
      try match goal with
          | H : _ \/ _ |- _ => destruct H as [H|[H|[H|[]]]]; discriminate
          end;
      try congruence.
    destruct (pawlygon_target_object (scene context)); discriminate.
  - assert (Hpos : (0 <? Z.of_nat (List.length (m :: missing)))%Z = true).
    { apply Z.ltb_lt. simpl. lia. }
    rewrite Hpos. split; [|split].
    + split; [discriminate|]. intros _. simpl. intuition.
    + intros _. simpl. intuition.
    + intros Ht. destruct (pawlygon_target_object (scene context));
        [|discriminate].
      split; [reflexivity|]. intros _. simpl. intuition.
Qed.

Lemma missing_panel_after_check_witness :
  exists out context1,
    PU_OT_check_missing_execute sample_lists sample_check
    = Ok (out, context1)
    /\ In (OperatorButton "pawlygon.create_missing" "Create Missing" [])
         (PU_PT_missing_panel_draw context1).
Proof.
  eexists _, _. split; [reflexivity|].
  apply (proj2 (missing_panel_after_check sample_lists sample_check)
           _ _ eq_refl).
  - reflexivity.
  - reflexivity.
Defined.

(** X20. The check operator replaces what an earlier check stored
    instead of adding to it: its result does not depend on the stored
    count and list, so a second check right after the first one gives
    the same report and leaves the context as the first one left it.
    With no target or a mesh target the first check ends normally. *)
Theorem check_missing_replaces (L : ShapekeyLists) (context : Context)
  (count : Z) (stored : list PawlygonMissingItem.t) :
  PU_OT_check_missing_execute L
    (mkContext (active_object context)
       (mkScene (pawlygon_target_object (scene context))
          (pawlygon_list_name (scene context)) count stored
          (pawlygon_missing_index (scene context))))
  = PU_OT_check_missing_execute L context
  /\ (forall out context1,
        PU_OT_check_missing_execute L context = Ok (out, context1) ->
        PU_OT_check_missing_execute L context1 = Ok (out, context1))
  /\ ((forall t, pawlygon_target_object (scene context) = Some t ->
                 type t = "MESH") ->
      exists out context1,
        PU_OT_check_missing_execute L context = Ok (out, context1)).
Proof.
  split; [reflexivity|]. split.
  2:{ intros Hmesh. eexists _, _. apply check_missing_result.
      intros t Ht. now apply mesh_has_attr, Hmesh. }
  intros out context1 Hcheck.
  pose proof (check_missing_Ok_inv L context context1 out Hcheck) as Hattr.
  rewrite (check_missing_result L context Hattr) in Hcheck.
  injection Hcheck as <- <-.
  rewrite check_missing_result; [reflexivity|exact Hattr].
Qed.

Lemma check_missing_replaces_witness :
  exists out context1,
    PU_OT_check_missing_execute sample_lists sample_check
    = Ok (out, context1)
    /\ PU_OT_check_missing_execute sample_lists context1
       = Ok (out, context1).
Proof.
  eexists _, _. split; [reflexivity|].
  apply (proj1 (proj2 (check_missing_replaces sample_lists sample_check
                         0%Z []))).
  reflexivity.
Defined.

(** ** Objects without shapekey data *)

(** X21. On an Empty, an object without data, each of the four
    utilities raises [AttributeError] when it reads
    [obj.data.shape_keys]: none of them returns its sentinel or the
    expected list. *)
Theorem utilities_raise_on_empty (o : Object) :
  type o = "EMPTY" ->
  (forall A B, split_shapekey_by_groups (Some o) A B = Raise AttributeError)
  /\ (forall expected,
        get_missing_shapekeys (Some o) expected = Raise AttributeError)
  /\ (forall fuel,
        move_old_shapekeys_to_bottom fuel (Some o) = Raise AttributeError)
  /\ delete_old_shapekeys (Some o) = Raise AttributeError.
Proof.
  intros Ht.
  unfold split_shapekey_by_groups, get_missing_shapekeys,
    move_old_shapekeys_to_bottom, delete_old_shapekeys, data_shape_keys,
    has_shape_keys_attr.
  rewrite Ht. repeat split.
Qed.

Lemma utilities_raise_on_empty_witness :
  get_missing_shapekeys (Some sample_empty) ["Smile"]
  = Raise AttributeError.
Proof.
  apply (utilities_raise_on_empty sample_empty eq_refl).
Defined.

(** X22. The polls of the check and create operators only ask for a
    target (and a positive count): with an Empty as target both polls
    can pass, and both [execute] methods then raise [AttributeError];
    create-missing raises before it clears the stored state. *)
Theorem operators_raise_on_empty_target (L : ShapekeyLists)
  (context : Context) (target : Object) :
  pawlygon_target_object (scene context) = Some target ->
  type target = "EMPTY" ->
  PU_OT_check_missing_poll context = true
  /\ PU_OT_check_missing_execute L context = Raise AttributeError
  /\ PU_OT_create_missing_poll context
     = (0 <? pawlygon_missing_count (scene context))%Z
  /\ PU_OT_create_missing_execute context = Raise AttributeError.
Proof.
  intros Ht Hty.
  unfold PU_OT_check_missing_poll, PU_OT_check_missing_execute,
    PU_OT_create_missing_poll, PU_OT_create_missing_execute,
    get_missing_shapekeys, create_missing_steps, data_shape_keys,
    has_shape_keys_attr.
  rewrite Ht, Hty. repeat split.
Qed.

Lemma operators_raise_on_empty_target_witness :
  PU_OT_check_missing_execute sample_lists
    (mkContext None (mkScene (Some sample_empty) "Basic" 1%Z [item "Wink"]
                       0%Z))
  = Raise AttributeError
  /\ PU_OT_create_missing_poll
       (mkContext None (mkScene (Some sample_empty) "Basic" 1%Z
                          [item "Wink"] 0%Z))
     = true.
Proof.
  destruct (operators_raise_on_empty_target sample_lists
              (mkContext None (mkScene (Some sample_empty) "Basic" 1%Z
                                 [item "Wink"] 0%Z))
              sample_empty eq_refl eq_refl)
    as (_ & Hcheck & Hpoll & _).
  split; [exact Hcheck | exact Hpoll].
Defined.
